(** * Agentic-AI: the plan / execute / replan engine

    A shallow embedding of [agentic_ai/planner.py], [agentic_ai/executor.py],
    [agentic_ai/agent.py] and the tool registry of [agentic_ai/tools.py], and
    the properties of the engine proved on it.  The executor and the agent
    are parametric in the tools; of the tools themselves the web search and
    the check of the system command are modelled, the file system, the
    network, the shell, [eval] and [json.loads] are given.

    Python values are a tagged union [Value]; dictionaries are association
    lists that keep Python's insertion order; integers are [Z]; text is
    [string] (the model covers ASCII text: characters above 127 are neither
    letters, digits nor white space).  Mutable objects (the steps of a plan,
    the running context, the executor's history) are threaded explicitly.
    Exceptions and running out of recursion depth are results of the [Res]
    monad. *)

From Stdlib Require Import List ZArith String Ascii Lia Bool Permutation
  Relations DecimalString DecimalZ DecimalPos.
Import ListNotations.

Set Warnings "-register-all,-notation-for-abbreviation".

Local Open Scope string_scope.
Local Open Scope Z_scope.

(* ================================================================= *)
(** * Definitions *)
(* ================================================================= *)

(** ** Python strings *)

Module PyStr.

(** [s.startswith(p)] *)
Definition startswith (p s : string) : bool := String.prefix p s.

(** [s.endswith(p)] *)
Definition endswith (p s : string) : bool :=
  (Nat.leb (String.length p) (String.length s) &&
   String.eqb (substring (String.length s - String.length p) (String.length p) s) p)%bool.

(** [s[2:-1]] *)
Definition slice_2_m1 (s : string) : string :=
  substring 2 (String.length s - 3) s.

(** [sub in s] *)
Fixpoint contains (sub s : string) : bool :=
  (String.prefix sub s ||
   match s with
   | EmptyString => false
   | String _ s' => contains sub s'
   end)%bool.

Definition is_upper (c : ascii) : bool :=
  (Nat.leb 65 (nat_of_ascii c) && Nat.leb (nat_of_ascii c) 90)%bool.

Definition lower_char (c : ascii) : ascii :=
  if is_upper c then ascii_of_nat (nat_of_ascii c + 32) else c.

(** [s.lower()] *)
Fixpoint lower (s : string) : string :=
  match s with
  | EmptyString => EmptyString
  | String c s' => String (lower_char c) (lower s')
  end.

(** [\d] *)
Definition is_digit (c : ascii) : bool :=
  (Nat.leb 48 (nat_of_ascii c) && Nat.leb (nat_of_ascii c) 57)%bool.

(** [\s], and the characters removed by [strip()]: tab, line feed, vertical
    tab, form feed, carriage return, the four separators 28-31 and space. *)
Definition is_space (c : ascii) : bool :=
  let n := nat_of_ascii c in
  ((Nat.leb 9 n && Nat.leb n 13) || (Nat.leb 28 n && Nat.leb n 32))%bool.

Fixpoint lstrip_by (p : ascii -> bool) (s : string) : string :=
  match s with
  | EmptyString => EmptyString
  | String c s' => if p c then lstrip_by p s' else s
  end.

Fixpoint rstrip_by (p : ascii -> bool) (s : string) : string :=
  match s with
  | EmptyString => EmptyString
  | String c s' =>
      match rstrip_by p s' with
      | EmptyString => if p c then EmptyString else String c EmptyString
      | r => String c r
      end
  end.

(** [s.strip(chars)], the characters to remove given by [p] *)
Definition strip_by (p : ascii -> bool) (s : string) : string :=
  rstrip_by p (lstrip_by p s).

(** [s.strip()] *)
Definition strip (s : string) : string := strip_by is_space s.

(** Number of leading characters of [s] that satisfy [p]. *)
Fixpoint span_len (p : ascii -> bool) (s : string) : nat :=
  match s with
  | EmptyString => O
  | String c s' => if p c then S (span_len p s') else O
  end.

(** [s] with its first [n] characters removed. *)
Fixpoint drop (n : nat) (s : string) : string :=
  match n, s with
  | O, _ => s
  | S n', String _ s' => drop n' s'
  | S _, EmptyString => EmptyString
  end.

(** [s.split(sep)] for a one-character separator; [cur] is the piece being
    read. *)
Fixpoint split_char_aux (sep : ascii) (s cur : string) : list string :=
  match s with
  | EmptyString => [cur]
  | String c s' =>
      if Ascii.eqb c sep then cur :: split_char_aux sep s' EmptyString
      else split_char_aux sep s' (cur ++ String c EmptyString)
  end.

Definition split_char (sep : ascii) (s : string) : list string :=
  split_char_aux sep s EmptyString.

(** A regular expression is used through its matcher: [m s] is the length of
    the match that starts at the first character of [s], if there is one. *)
Definition matcher := string -> option nat.

(** [re.search(m, s)] as a truth value *)
Fixpoint re_search (m : matcher) (s : string) : bool :=
  match m s with
  | Some _ => true
  | None =>
      match s with
      | EmptyString => false
      | String _ s' => re_search m s'
      end
  end.

(** [re.split(m, s)] for a pattern that matches no empty string; [skip] is
    the number of characters of the current match still to pass over. *)
Fixpoint re_split_aux (m : matcher) (s : string) (skip : nat) (cur : string)
  : list string :=
  match s with
  | EmptyString => [cur]
  | String c s' =>
      match skip with
      | S k => re_split_aux m s' k cur
      | O =>
          match m s with
          | Some (S k) => cur :: re_split_aux m s' k EmptyString
          | _ => re_split_aux m s' O (cur ++ String c EmptyString)
          end
      end
  end.

Definition re_split (m : matcher) (s : string) : list string :=
  re_split_aux m s O EmptyString.

(** [re.findall(m, s)] where the pattern has one group: [m s] gives the length
    of the match and [grp s] the group's text. *)
Fixpoint re_findall_aux (m : matcher) (grp : string -> string) (s : string)
  (skip : nat) : list string :=
  match s with
  | EmptyString => []
  | String c s' =>
      match skip with
      | S k => re_findall_aux m grp s' k
      | O =>
          match m s with
          | Some (S k) => grp s :: re_findall_aux m grp s' k
          | _ => re_findall_aux m grp s' O
          end
      end
  end.

(** [s.replace(old, new)] for a non-empty [old] *)
Fixpoint replace_aux (old new s : string) (skip : nat) : string :=
  match s with
  | EmptyString => EmptyString
  | String c s' =>
      match skip with
      | S k => replace_aux old new s' k
      | O =>
          if String.prefix old s
          then new ++ replace_aux old new s' (String.length old - 1)
          else String c (replace_aux old new s' O)
      end
  end.

Definition replace (old new s : string) : string := replace_aux old new s O.

(** Matchers of the patterns the planner uses.  None of them needs
    backtracking: a run of a character class is always followed by a
    character outside the class. *)

(** the literal [lit] *)
Definition lit (l : string) : matcher :=
  fun s => if String.prefix l s then Some (String.length l) else None.

(** the literal [lit] under [re.IGNORECASE] *)
Definition lit_ci (lit : string) : matcher :=
  fun s => if String.prefix (lower lit) (lower s)
           then Some (String.length lit) else None.

(** [c+] for a character class *)
Definition plus (p : ascii -> bool) : matcher :=
  fun s => match span_len p s with O => None | n => Some n end.

(** [c*] for a character class *)
Definition star (p : ascii -> bool) : matcher :=
  fun s => Some (span_len p s).

(** concatenation *)
Definition seq (m1 m2 : matcher) : matcher :=
  fun s => match m1 s with
           | Some n => match m2 (drop n s) with
                       | Some k => Some (n + k)%nat
                       | None => None
                       end
           | None => None
           end.

(** [m1|m2]: the first alternative that matches *)
Definition alt (m1 m2 : matcher) : matcher :=
  fun s => match m1 s with Some n => Some n | None => m2 s end.

Definition upper_char (c : ascii) : ascii :=
  if (Nat.leb 97 (nat_of_ascii c) && Nat.leb (nat_of_ascii c) 122)%bool
  then ascii_of_nat (nat_of_ascii c - 32) else c.

(** [s.upper()] *)
Fixpoint upper (s : string) : string :=
  match s with
  | EmptyString => EmptyString
  | String c s' => String (upper_char c) (upper s')
  end.

(** [s.split()]: the words of [s], separated by runs of whitespace; [cur] is
    the word being read. *)
Fixpoint split_aux (s cur : string) : list string :=
  match s with
  | EmptyString => if String.eqb cur "" then [] else [cur]
  | String c s' =>
      if is_space c then
        if String.eqb cur "" then split_aux s' EmptyString
        else cur :: split_aux s' EmptyString
      else split_aux s' (cur ++ String c EmptyString)
  end.

Definition split (s : string) : list string := split_aux s EmptyString.

(** [str(n)] for an integer *)
Definition of_Z (n : Z) : string := NilZero.string_of_int (Z.to_int n).

End PyStr.

(** ** Python dictionaries

    A [dict] keeps its entries in insertion order; assigning to a key that is
    present replaces its value in place. *)

Class EqKey (K : Type) := {
  keqb : K -> K -> bool;
  keqb_spec : forall x y, reflect (x = y) (keqb x y)
}.

#[export] Instance EqKey_Z : EqKey Z := {| keqb := Z.eqb; keqb_spec := Z.eqb_spec |}.
#[export] Instance EqKey_string : EqKey string :=
  {| keqb := String.eqb; keqb_spec := String.eqb_spec |}.

Module PyDict.

Definition dict (K V : Type) := list (K * V).

Section Ops.
Context {K V : Type} `{EqKey K}.

(** [d.get(k)] *)
Fixpoint get (k : K) (d : dict K V) : option V :=
  match d with
  | [] => None
  | (k', v) :: d' => if keqb k k' then Some v else get k d'
  end.

(** [k in d] *)
Definition mem (k : K) (d : dict K V) : bool :=
  match get k d with Some _ => true | None => false end.

(** [d[k] = v] *)
Fixpoint set (k : K) (v : V) (d : dict K V) : dict K V :=
  match d with
  | [] => [(k, v)]
  | (k', v') :: d' => if keqb k k' then (k', v) :: d' else (k', v') :: set k v d'
  end.

(** [d.update(e)] *)
Definition update (d e : dict K V) : dict K V :=
  fold_left (fun acc kv => set (fst kv) (snd kv) acc) e d.

Definition keys (d : dict K V) : list K := map fst d.

End Ops.

(** [x in l] for a list *)
Definition mem_list {K : Type} `{EqKey K} (x : K) (l : list K) : bool :=
  existsb (keqb x) l.

End PyDict.

(** ** Python values *)

Inductive Value : Type :=
| VNone
| VBool (b : bool)
| VInt (n : Z)
| VStr (s : string)
| VList (l : list Value)
| VDict (d : list (string * Value)).

(** A result, a parameter mapping, a context: [Dict[str, Any]]. *)
Definition PyObj := PyDict.dict string Value.

(** Truth value of a Python object, as tested by [if v:]. *)
Definition truthy (v : Value) : bool :=
  match v with
  | VNone => false
  | VBool b => b
  | VInt n => negb (n =? 0)
  | VStr s => negb (String.eqb s "")
  | VList l => match l with [] => false | _ => true end
  | VDict d => match d with [] => false | _ => true end
  end.

(** [result.get("success", False)] and [result.get("success")] as conditions *)
Definition succeeded (r : PyObj) : bool :=
  match PyDict.get "success" r with
  | Some v => truthy v
  | None => false
  end.

(** ** Results of computations that may raise or exhaust the recursion budget *)

Inductive PyExn : Type :=
| StopIteration
| AttributeError.

Inductive Res (A : Type) : Type :=
| Ok (a : A)
| Raise (e : PyExn)
| OutOfFuel.
Arguments Ok {A} a.
Arguments Raise {A} e.
Arguments OutOfFuel {A}.

Definition bind {A B : Type} (m : Res A) (f : A -> Res B) : Res B :=
  match m with
  | Ok a => f a
  | Raise e => Raise e
  | OutOfFuel => OutOfFuel
  end.

Notation "x <- m ;; k" := (bind m (fun x => k))
  (at level 61, m at next level, right associativity).
Notation "' p <- m ;; k" := (bind m (fun x => match x with p => k end))
  (at level 61, p pattern, m at next level, right associativity).

(** ** planner.py *)

(** [PlanStep.status]: one of the four strings the source assigns. *)
Inductive Status : Type := pending | in_progress | completed | failed.

Definition status_eqb (a b : Status) : bool :=
  match a, b with
  | pending, pending | in_progress, in_progress
  | completed, completed | failed, failed => true
  | _, _ => false
  end.

Record PlanStep : Type := mkPlanStep {
  step_id : Z;
  description : string;
  tool : string;
  parameters : PyObj;
  dependencies : list Z;
  status : Status;
  result : option PyObj
}.

(** [PlanStep(step_id, description, tool, parameters, dependencies)] *)
Definition new_step (id : Z) (desc tl : string) (params : PyObj)
  (deps : list Z) : PlanStep :=
  mkPlanStep id desc tl params deps pending None.

Definition set_status (s : Status) (p : PlanStep) : PlanStep :=
  mkPlanStep (step_id p) (description p) (tool p) (parameters p)
             (dependencies p) s (result p).

Definition set_result (r : PyObj) (p : PlanStep) : PlanStep :=
  mkPlanStep (step_id p) (description p) (tool p) (parameters p)
             (dependencies p) (status p) (Some r).

Definition set_id_deps (id : Z) (deps : list Z) (p : PlanStep) : PlanStep :=
  mkPlanStep id (description p) (tool p) (parameters p) deps (status p)
             (result p).

(** [[s.step_id for s in steps]] *)
Definition step_ids (steps : list PlanStep) : list Z := map step_id steps.

(** The extraction heuristics built on regular expressions with groups only
    fill in the text of a step; the planner's control flow sees them through
    their [Optional[str]] results. *)
Record Heuristics : Type := {
  _extract_file_path : string -> option string;
  _extract_directory : string -> option string;
  _extract_content_hint : string -> option string;
  _extract_content_from_task : string -> option string;
  _extract_url : string -> option string;
  _extract_expression : string -> option string
}.

Module Planner.
Import PyStr.

(** [a or b] on [Optional[str]]: [None] and the empty string are false. *)
Definition or_else (a b : option string) : option string :=
  match a with
  | Some s => if String.eqb s "" then b else a
  | None => b
  end.

Definition or_default (a : option string) (d : string) : string :=
  match a with
  | Some s => if String.eqb s "" then d else s
  | None => d
  end.

Definition _matches_pattern (task : string) (patterns : list string) : bool :=
  let task_lower := lower task in
  existsb (fun pattern => contains (lower pattern) task_lower) patterns.

Definition _infer_file_path (task : string) : string :=
  if contains "report" (lower task) then "report.txt"
  else if contains "data" (lower task) then "data.json"
  else if contains "summary" (lower task) then "summary.md"
  else "output.txt".

Definition _infer_api_endpoint (task : string) : string :=
  if contains "weather" (lower task)
  then "https://api.openweathermap.org/data/2.5/weather"
  else if contains "user" (lower task)
  then "https://jsonplaceholder.typicode.com/users/1"
  else "https://jsonplaceholder.typicode.com/posts/1".

Definition _extract_http_method (task : string) : option string :=
  let task_upper := upper task in
  find (fun method => contains method task_upper)
       ["GET"; "POST"; "PUT"; "DELETE"; "PATCH"].

(** the double quote (code 34) or the single quote (code 39) *)
Definition is_quote (c : ascii) : bool :=
  (Nat.eqb (nat_of_ascii c) 34 || Nat.eqb (nat_of_ascii c) 39)%bool.

Definition _extract_search_query (task : string) : string :=
  let prefixes := ["search for"; "find"; "lookup"; "information about"; "search"] in
  let query :=
    match find (fun prefix => startswith prefix (lower task)) prefixes with
    | Some prefix => strip (drop (String.length prefix) task)
    | None => task
    end in
  let query := strip_by is_quote query in
  if String.eqb query "" then task else query.

(** [\d+\.] *)
Definition re_numbered : matcher := seq (plus is_digit) (lit ".").
(** [\d+\.\s*] *)
Definition re_numbered_split : matcher := seq re_numbered (star is_space).
(** [then|and then|after that|next] *)
Definition re_keywords : matcher :=
  alt (lit_ci "then") (alt (lit_ci "and then")
      (alt (lit_ci "after that") (lit_ci "next"))).

Definition multi_step_indicators : list matcher :=
  [ re_numbered;
    seq (lit_ci "then") (plus is_space);
    seq (lit_ci "and") (seq (plus is_space) (lit_ci "then"));
    seq (lit_ci "after") (seq (plus is_space) (lit_ci "that"));
    seq (lit_ci "next") (plus is_space) ].

Definition _is_multi_step_task (task : string) : bool :=
  existsb (fun pattern => re_search pattern task) multi_step_indicators.

Definition _create_generic_plan (task : string) (start_id : Z) : list PlanStep :=
  if contains "file" (lower task) then
    [new_step start_id ("Process task: " ++ task) "file_list"
              [("directory", VStr ".")] []]
  else if existsb (fun word => contains word (lower task))
                  ["data"; "information"; "get"] then
    [new_step start_id ("Process task: " ++ task) "web_search"
              [("query", VStr task)] []]
  else
    [new_step start_id ("Process task: " ++ task) "system_command"
              [("command", VStr ("echo '" ++ task ++ "'"))] []].

(** The inner loop of [_decompose_multi_step]: renumber each sub-step, make
    it depend on every step so far with a smaller identifier, append it. *)
Definition add_sub_steps (sub_steps : list PlanStep) (acc : list PlanStep * Z)
  : list PlanStep * Z :=
  fold_left
    (fun (acc : list PlanStep * Z) sub_step =>
       let (steps, step_id') := acc in
       let deps := step_ids (filter (fun s => step_id s <? step_id') steps) in
       ((steps ++ [set_id_deps step_id' deps sub_step])%list, step_id' + 1))
    sub_steps acc.

(** The outer loop, [plan_rec] standing for [self.plan(_, {})]. *)
Fixpoint decompose_parts (plan_rec : string -> Res (list PlanStep))
  (parts : list string) (acc : list PlanStep * Z) : Res (list PlanStep * Z) :=
  match parts with
  | [] => Ok acc
  | part :: rest =>
      sub_steps <- plan_rec (strip part) ;;
      decompose_parts plan_rec rest (add_sub_steps sub_steps acc)
  end.

Definition _decompose_multi_step (plan_rec : string -> Res (list PlanStep))
  (task : string) (existing_steps : list PlanStep) (start_id : Z)
  : Res (list PlanStep) :=
  let parts :=
    if re_search re_numbered task
    then tl (re_split re_numbered_split task)
    else re_split re_keywords task in
  acc <- decompose_parts plan_rec parts (existing_steps, start_id) ;;
  Ok (fst acc).

Definition tool_in (tools : list string) (s : PlanStep) : bool :=
  existsb (String.eqb (tool s)) tools.

(** The pattern-based part of [plan]: the steps found by the six keyword
    tests, and the next free identifier. *)
Definition pattern_steps (h : Heuristics) (task : string) : list PlanStep * Z :=
  let steps : list PlanStep := [] in
  let step_id := 0 in
  let '(steps, step_id) :=
    if (_matches_pattern task ["write"; "save"; "create file"; "store"]
        && negb (_matches_pattern task ["read"]))%bool then
      let file_path :=
        or_default (_extract_file_path h task) (_infer_file_path task) in
      let content_hint :=
        or_else (_extract_content_hint h task)
                (_extract_content_from_task h task) in
      (List.app steps
         [new_step step_id ("Write to file: " ++ file_path) "file_write"
            [("file_path", VStr file_path);
             ("content", VStr (or_default content_hint ""))]
            (step_ids
               (filter (tool_in ["file_read"; "calculate"; "api_call"])
                       steps))],
       step_id + 1)
    else (steps, step_id) in
  let '(steps, step_id) :=
    if (_matches_pattern task ["read"; "load"]
        && negb (_matches_pattern task ["write"; "save"]))%bool then
      match _extract_file_path h task with
      | Some file_path =>
          if String.eqb file_path "" then (steps, step_id)
          else (List.app steps
                  [new_step step_id ("Read file: " ++ file_path)
                     "file_read" [("file_path", VStr file_path)] []],
                step_id + 1)
      | None => (steps, step_id)
      end
    else (steps, step_id) in
  let '(steps, step_id) :=
    if _matches_pattern task ["list"; "directory"; "folder"; "files"] then
      let directory := or_default (_extract_directory h task) "." in
      (List.app steps
         [new_step step_id ("List files in: " ++ directory) "file_list"
            [("directory", VStr directory)] []],
       step_id + 1)
    else (steps, step_id) in
  let '(steps, step_id) :=
    if _matches_pattern task
         ["api"; "http"; "request"; "call"; "fetch"; "get data"] then
      let url := or_default (_extract_url h task) (_infer_api_endpoint task) in
      let method := or_default (_extract_http_method task) "GET" in
      (List.app steps
         [new_step step_id ("Make API call: " ++ method ++ " " ++ url)
            "api_call" [("url", VStr url); ("method", VStr method)] []],
       step_id + 1)
    else (steps, step_id) in
  let '(steps, step_id) :=
    if _matches_pattern task
         ["search"; "find"; "lookup"; "information about"] then
      let query := _extract_search_query task in
      (List.app steps
         [new_step step_id ("Search for: " ++ query) "web_search"
            [("query", VStr query)] []],
       step_id + 1)
    else (steps, step_id) in
  if _matches_pattern task
       ["calculate"; "compute"; "math"; "add"; "multiply"] then
    match _extract_expression h task with
    | Some expression =>
        if String.eqb expression "" then (steps, step_id)
        else (List.app steps
                [new_step step_id ("Calculate: " ++ expression)
                   "calculate" [("expression", VStr expression)] []],
              step_id + 1)
    | None => (steps, step_id)
    end
  else (steps, step_id).

(** [Planner.plan]; [fuel] bounds the depth of the recursion through
    [_decompose_multi_step].  The [context] argument is never read. *)
Fixpoint plan (h : Heuristics) (fuel : nat) (task : string) (context : PyObj)
  : Res (list PlanStep) :=
  match fuel with
  | O => OutOfFuel
  | S fuel' =>
      let (steps, step_id) := pattern_steps h task in
      steps <- (if _is_multi_step_task task
                then _decompose_multi_step (fun part => plan h fuel' part [])
                                           task steps step_id
                else Ok steps) ;;
      match steps with
      | [] => Ok (_create_generic_plan task step_id)
      | _ => Ok steps
      end
  end.

(** [Planner.adjust_plan] *)
Definition adjust_plan (steps : list PlanStep)
  (execution_results : PyDict.dict Z PyObj) : list PlanStep :=
  let failed_steps := filter (fun s => status_eqb (status s) failed) steps in
  match failed_steps with
  | [] => steps
  | _ =>
      fold_left
        (fun adjusted_steps failed_step =>
           if String.eqb (tool failed_step) "api_call" then
             List.app adjusted_steps
               [new_step (Z.of_nat (List.length adjusted_steps))
                  ("Alternative approach for: " ++ description failed_step)
                  "web_search"
                  [("query", VStr (description failed_step))] []]
           else adjusted_steps)
        failed_steps steps
  end.

End Planner.

(** ** executor.py *)

(** What a call of [tool_registry.execute_tool] does: it returns a result
    dictionary or raises. *)
Inductive ToolOutcome : Type :=
| Returned (r : PyObj)
| Raised (msg : string).

(** An entry of [Executor.execution_history]. *)
Record ExecRecord : Type := mkExecRecord {
  rec_step_id : Z;
  rec_tool : string;
  rec_parameters : PyObj;
  rec_result : PyObj;
  rec_status : Status
}.

(** What an execution does that an observer can see: every assignment to a
    step's status and every call of a tool, in the order they happen. *)
Inductive Event : Type :=
| EvStatus (id : Z) (s : Status)
| EvInvoke (id : Z) (tl : string) (params : PyObj) (out : ToolOutcome).

Section Executor.

(** The tools act on a world outside the program, and their results depend on
    it.  [execute_tool t params w] is the call
    [self.tool_registry.execute_tool(t, **params)] made in world [w]; [py_str]
    is Python's [str()]. *)
Variable World : Type.
Variable execute_tool : string -> PyObj -> World -> ToolOutcome * World.
Variable py_str : Value -> string.

(** The executor object: its history, with the world and the events so far. *)
Record Executor : Type := mkExecutor {
  execution_history : list ExecRecord;
  world : World;
  trace : list Event
}.

(** [Executor(tool_registry)] *)
Definition new_executor (w : World) : Executor := mkExecutor [] w [].

Fixpoint walk_path (parts : list string) (value : Value) : Value :=
  match parts with
  | [] => value
  | part :: rest =>
      match value with
      | VDict d =>
          walk_path rest
            (match PyDict.get part d with Some v => v | None => VNone end)
      | _ => VNone
      end
  end.

Definition _get_context_value (path : string) (context : PyObj) : Value :=
  let parts := PyStr.split_char "." path in
  walk_path parts (VDict context).

Definition not_rbrace (c : ascii) : bool := negb (Ascii.eqb c "}").

(** [\{\{([^}]+)\}\}] and its group *)
Definition re_template : PyStr.matcher :=
  PyStr.seq (PyStr.lit "{{") (PyStr.seq (PyStr.plus not_rbrace) (PyStr.lit "}}")).

Definition re_template_group (s : string) : string :=
  substring 2 (PyStr.span_len not_rbrace (PyStr.drop 2 s)) s.

Definition _resolve_template (template : string) (context : PyObj) : string :=
  let matches := PyStr.re_findall_aux re_template re_template_group template O in
  fold_left
    (fun result match_ =>
       match _get_context_value (PyStr.strip match_) context with
       | VNone => result
       | value => PyStr.replace ("{{" ++ match_ ++ "}}") (py_str value) result
       end)
    matches template.

(** One parameter value of [_resolve_parameters]. *)
Definition resolve_value (value : Value) (context : PyObj) : Value :=
  match value with
  | VStr s =>
      if (PyStr.startswith "${" s && PyStr.endswith "}" s)%bool then
        let var_path := PyStr.slice_2_m1 s in
        _get_context_value var_path context
      else if PyStr.contains "{{" s then
        VStr (_resolve_template s context)
      else value
  | _ => value
  end.

Definition _resolve_parameters (parameters context : PyObj) : PyObj :=
  fold_left
    (fun resolved kv =>
       PyDict.set (fst kv) (resolve_value (snd kv) context) resolved)
    parameters [].

(** The well-known result fields and the context keys they are copied to. *)
Definition well_known : list (string * string) :=
  [ ("content", "content");
    ("file_path", "file_path");
    ("response", "api_response");
    ("results", "search_results");
    ("result", "calculation_result") ].

Definition _extract_context (result : PyObj) : PyObj :=
  let context : PyObj := [] in
  if succeeded result then
    fold_left
      (fun context fk =>
         match PyDict.get (fst fk) result with
         | Some v => PyDict.set (snd fk) v context
         | None => context
         end)
      well_known context
  else context.

Definition execute_step (ex : Executor) (step : PlanStep) (context : PyObj)
  : PyObj * PlanStep * Executor :=
  let step := set_status in_progress step in
  let resolved_params := _resolve_parameters (parameters step) context in
  let (outcome, w) := execute_tool (tool step) resolved_params (world ex) in
  match outcome with
  | Returned result =>
      let st := if succeeded result then completed else failed in
      let step := set_result result (set_status st step) in
      let execution_record :=
        mkExecRecord (step_id step) (tool step) resolved_params result
                     (status step) in
      (result, step,
       mkExecutor (execution_history ex ++ [execution_record]) w
         (trace ex ++ [EvStatus (step_id step) in_progress;
                       EvInvoke (step_id step) (tool step) resolved_params outcome;
                       EvStatus (step_id step) st]))
  | Raised e =>
      let error_result : PyObj :=
        [("success", VBool false); ("error", VStr e);
         ("step_id", VInt (step_id step))] in
      let step := set_result error_result (set_status failed step) in
      let execution_record :=
        mkExecRecord (step_id step) (tool step) (parameters step) error_result
                     failed in
      (error_result, step,
       mkExecutor (execution_history ex ++ [execution_record]) w
         (trace ex ++ [EvStatus (step_id step) in_progress;
                       EvInvoke (step_id step) (tool step) resolved_params outcome;
                       EvStatus (step_id step) failed]))
  end.

(** [next((s for s in all_steps if s.step_id == id), None)] *)
Definition find_step (id : Z) (steps : list PlanStep) : option PlanStep :=
  find (fun s => step_id s =? id) steps.

(** The steps of a plan are objects shared with the caller: an assignment to
    a field of the step found by [find_step] shows in the list, at the first
    step with that identifier. *)
Fixpoint store_step (p : PlanStep) (steps : list PlanStep) : list PlanStep :=
  match steps with
  | [] => []
  | s :: rest =>
      if step_id s =? step_id p then p :: rest else s :: store_step p rest
  end.

Definition _dependencies_satisfied (step : PlanStep) (all_steps : list PlanStep)
  : bool :=
  match dependencies step with
  | [] => true
  | deps =>
      forallb
        (fun dep_id =>
           match find_step dep_id all_steps with
           | None => false
           | Some dep_step => status_eqb (status dep_step) completed
           end)
        deps
  end.

(** [{step.step_id: step.dependencies for step in steps}] *)
Definition build_graph (steps : list PlanStep) : PyDict.dict Z (list Z) :=
  fold_left (fun g s => PyDict.set (step_id s) (dependencies s) g) steps [].

(** [in_degree[k] += delta]; the key is always one of the graph's. *)
Definition bump (k delta : Z) (in_degree : PyDict.dict Z Z) : PyDict.dict Z Z :=
  match PyDict.get k in_degree with
  | Some n => PyDict.set k (n + delta) in_degree
  | None => in_degree
  end.

Definition init_in_degree (graph : PyDict.dict Z (list Z)) : PyDict.dict Z Z :=
  let in_degree : PyDict.dict Z Z :=
    fold_left (fun d kv => PyDict.set (fst kv) 0 d) graph [] in
  fold_left
    (fun in_degree (kv : Z * list Z) =>
       fold_left
         (fun in_degree dep =>
            if PyDict.mem dep in_degree then bump (fst kv) 1 in_degree
            else in_degree)
         (snd kv) in_degree)
    graph in_degree.

(** The [for other_id, deps in graph.items()] loop that follows a pop. *)
Definition relax (step_id : Z) (graph : PyDict.dict Z (list Z))
  (acc : PyDict.dict Z Z * list Z) : PyDict.dict Z Z * list Z :=
  fold_left
    (fun (acc : PyDict.dict Z Z * list Z) (kv : Z * list Z) =>
       let (in_degree, queue) := acc in
       let (other_id, deps) := kv in
       if PyDict.mem_list step_id deps then
         let in_degree := bump other_id (-1) in_degree in
         match PyDict.get other_id in_degree with
         | Some 0 => (in_degree, (queue ++ [other_id])%list)
         | _ => (in_degree, queue)
         end
       else (in_degree, queue))
    graph acc.

(** [while queue:]; every turn moves one identifier to the order. *)
Fixpoint kahn_loop (fuel : nat) (graph : PyDict.dict Z (list Z))
  (in_degree : PyDict.dict Z Z) (queue execution_order : list Z)
  : Res (list Z) :=
  match queue with
  | [] => Ok execution_order
  | step_id :: queue =>
      match fuel with
      | O => OutOfFuel
      | S fuel' =>
          let execution_order := (execution_order ++ [step_id])%list in
          let (in_degree, queue) := relax step_id graph (in_degree, queue) in
          kahn_loop fuel' graph in_degree queue execution_order
      end
  end.

(** The order found by the queue, before the remaining steps are added. *)
Definition kahn_order (steps : list PlanStep) : Res (list Z) :=
  let graph := build_graph steps in
  let in_degree := init_in_degree graph in
  let queue :=
    map fst (filter (fun kv : Z * Z => snd kv =? 0) in_degree) in
  kahn_loop (List.length graph) graph in_degree queue [].

Definition _resolve_dependencies (steps : list PlanStep) : Res (list Z) :=
  execution_order <- kahn_order steps ;;
  let remaining :=
    filter (fun id => negb (PyDict.mem_list id execution_order))
           (step_ids steps) in
  Ok (execution_order ++ remaining)%list.

(** The execution summary. *)
Record Summary : Type := mkSummary {
  sum_success : bool;
  sum_total_steps : nat;
  sum_completed : nat;
  sum_failed : nat;
  sum_pending : nat;
  sum_steps : list PlanStep;
  sum_results : PyDict.dict Z PyObj;
  sum_execution_history : list ExecRecord
}.

Definition count_status (st : Status) (steps : list PlanStep) : nat :=
  List.length (filter (fun s => status_eqb (status s) st) steps).

Definition _generate_summary (ex : Executor) (steps : list PlanStep)
  (results : PyDict.dict Z PyObj) : Summary :=
  let failed_n := count_status failed steps in
  mkSummary (Nat.eqb failed_n 0) (List.length steps)
            (count_status completed steps) failed_n
            (count_status pending steps) steps results
            (execution_history ex).

(** The state of an [execute_plan] call between two steps. *)
Record PlanState : Type := mkPlanState {
  ps_steps : list PlanStep;
  ps_context : PyObj;
  ps_results : PyDict.dict Z PyObj;
  ps_exec : Executor
}.

(** [while retry_count <= max_retries:]; [result] is [None] until the first
    attempt. *)
Fixpoint retry_loop (fuel : nat) (max_retries retry_count : Z)
  (step : PlanStep) (result : option PyObj) (context : PyObj) (ex : Executor)
  : Res (option PyObj * PlanStep * PyObj * Executor) :=
  if retry_count <=? max_retries then
    match fuel with
    | O => OutOfFuel
    | S fuel' =>
        let '(result, step, ex) := execute_step ex step context in
        if succeeded result then Ok (Some result, step, context, ex)
        else
          let retry_count := retry_count + 1 in
          let context :=
            if retry_count <=? max_retries
            then PyDict.update context (_extract_context result)
            else context in
          retry_loop fuel' max_retries retry_count step (Some result) context ex
    end
  else Ok (result, step, context, ex).

Definition dependencies_error : PyObj :=
  [("success", VBool false); ("error", VStr "Dependencies not satisfied")].

(** The body of [for step_id in execution_order:]. *)
Definition run_step (max_retries : Z) (st : PlanState) (step_id : Z)
  : Res PlanState :=
  match find_step step_id (ps_steps st) with
  | None => Raise StopIteration
  | Some step =>
      if negb (_dependencies_satisfied step (ps_steps st)) then
        let ex := ps_exec st in
        Ok (mkPlanState
              (store_step (set_status failed step) (ps_steps st))
              (ps_context st)
              (PyDict.set step_id dependencies_error (ps_results st))
              (mkExecutor (execution_history ex) (world ex)
                          (trace ex ++ [EvStatus step_id failed])))
      else
        '(result, step, context, ex) <-
           retry_loop (Z.to_nat (max_retries + 1)) max_retries 0 step None
                      (ps_context st) (ps_exec st) ;;
        match result with
        | None => Raise AttributeError
        | Some result =>
            let results := PyDict.set step_id result (ps_results st) in
            let context :=
              if succeeded result then
                PyDict.set ("step_" ++ PyStr.of_Z step_id ++ "_result")
                           (VDict result)
                           (PyDict.update context (_extract_context result))
              else context in
            Ok (mkPlanState (store_step step (ps_steps st)) context results ex)
        end
  end.

Fixpoint run_steps (max_retries : Z) (execution_order : list Z)
  (st : PlanState) : Res PlanState :=
  match execution_order with
  | [] => Ok st
  | step_id :: rest =>
      st' <- run_step max_retries st step_id ;;
      run_steps max_retries rest st'
  end.

(** [Executor.execute_plan]; the steps come back as the call left them. *)
Definition execute_plan (ex : Executor) (steps : list PlanStep)
  (max_retries : Z) : Res (Summary * Executor) :=
  execution_order <- _resolve_dependencies steps ;;
  st <- run_steps max_retries execution_order (mkPlanState steps [] [] ex) ;;
  Ok (_generate_summary (ps_exec st) (ps_steps st) (ps_results st), ps_exec st).

End Executor.

Arguments mkExecutor {World}.
Arguments execution_history {World}.
Arguments world {World}.
Arguments trace {World}.
Arguments mkPlanState {World}.
Arguments ps_steps {World}.
Arguments ps_context {World}.
Arguments ps_results {World}.
Arguments ps_exec {World}.

(** ** agent.py *)

Section Agent.

Variable World : Type.
Variable execute_tool : string -> PyObj -> World -> ToolOutcome * World.
Variable py_str : Value -> string.
(** The planner's extraction heuristics and the depth to which Python lets
    [plan] recurse. *)
Variable heuristics : Heuristics.
Variable recursion_limit : nat.

(** The agent object; [plan_calls] counts the calls of [planner.plan]. *)
Record AgenticAI : Type := mkAgenticAI {
  executor : Executor World;
  execution_context : PyObj;
  max_iterations : Z;
  plan_calls : nat
}.

(** [AgenticAI(tool_registry)] *)
Definition new_agent (w : World) : AgenticAI :=
  mkAgenticAI (new_executor World w) [] 10 O.

(** What [execute] returns: the early "no plan" dictionary, or the final one
    (its [available_tools] entry, a listing of the registry, is left out). *)
Inductive AgentResult : Type :=
| NoPlan (iteration : Z)
| Finished (success : bool) (task : string) (iterations : Z)
           (final_result : option Summary) (context : PyObj).

Definition update_from_step (context : PyObj) (step_data : PlanStep) : PyObj :=
  match result step_data with
  | Some ((_ :: _) as result) =>
      if status_eqb (status step_data) completed then
        let context :=
          PyDict.set ("step_" ++ PyStr.of_Z (step_id step_data) ++ "_result")
                     (VDict result) context in
        let context :=
          match PyDict.get "content" result with
          | Some v => PyDict.set "last_file_content" v context
          | None => context
          end in
        let context :=
          match PyDict.get "file_path" result with
          | Some v => PyDict.set "last_file_path" v context
          | None => context
          end in
        let context :=
          if PyDict.mem "api_response" result then
            PyDict.set "last_api_response"
              (match PyDict.get "response" result with
               | Some v => v | None => VNone end) context
          else context in
        if PyDict.mem "search_results" result then
          PyDict.set "last_search_results"
            (match PyDict.get "results" result with
             | Some v => v | None => VNone end) context
        else context
      else context
  | _ => context
  end.

Definition _update_context (context : PyObj) (execution_result : Summary)
  : PyObj :=
  fold_left update_from_step (sum_steps execution_result) context.

(** How one turn of [while iteration < self.max_iterations:] ends. *)
Inductive Turn : Type :=
| Return (r : AgentResult) (a : AgenticAI)
| Break (final_result : Summary) (a : AgenticAI)
| Continue (a : AgenticAI).

(** One turn of the loop, [iteration] already incremented. *)
Definition turn (task : string) (iteration : Z) (a : AgenticAI) : Res Turn :=
  steps <- Planner.plan heuristics recursion_limit task (execution_context a) ;;
  let a := mkAgenticAI (executor a) (execution_context a) (max_iterations a)
                       (S (plan_calls a)) in
  match steps with
  | [] => Ok (Return (NoPlan iteration) a)
  | _ =>
      '(execution_result, ex) <-
         execute_plan World execute_tool py_str (executor a) steps 2 ;;
      let steps := sum_steps execution_result in
      let a := mkAgenticAI ex
                 (_update_context (execution_context a) execution_result)
                 (max_iterations a) (plan_calls a) in
      if sum_success execution_result then Ok (Break execution_result a)
      else if Nat.ltb 0 (sum_failed execution_result) then
        let adjusted_steps :=
          Planner.adjust_plan steps (sum_results execution_result) in
        if Nat.eqb (List.length adjusted_steps) (List.length steps)
        then Ok (Break execution_result a)
        else Ok (Continue a)
      else Ok (Continue a)
  end.

Definition finish (task : string) (iteration : Z)
  (final_result : option Summary) (a : AgenticAI) : AgentResult * AgenticAI :=
  (Finished (match final_result with
             | Some r => sum_success r
             | None => false
             end)
            task iteration final_result (execution_context a), a).

Fixpoint agent_loop (fuel : nat) (task : string) (iteration : Z)
  (a : AgenticAI) : Res (AgentResult * AgenticAI) :=
  if iteration <? max_iterations a then
    match fuel with
    | O => OutOfFuel
    | S fuel' =>
        let iteration := iteration + 1 in
        t <- turn task iteration a ;;
        match t with
        | Return r a => Ok (r, a)
        | Break final_result a => Ok (finish task iteration (Some final_result) a)
        | Continue a => agent_loop fuel' task iteration a
        end
    end
  else Ok (finish task iteration None a).

(** [AgenticAI.execute] *)
Definition execute (a : AgenticAI) (task : string) (context : option PyObj)
  : Res (AgentResult * AgenticAI) :=
  let a :=
    match context with
    | Some ((_ :: _) as context) =>
        mkAgenticAI (executor a)
                    (PyDict.update (execution_context a) context)
                    (max_iterations a) (plan_calls a)
    | _ => a
    end in
  agent_loop (Z.to_nat (max_iterations a)) task 0 a.

End Agent.

Arguments mkAgenticAI {World}.
Arguments executor {World}.
Arguments execution_context {World}.
Arguments max_iterations {World}.
Arguments plan_calls {World}.

(** ** tools.py *)

Module Tools.

(** What [subprocess.run] comes to: a completed process, or an exception (the
    timeout, a failure to start the shell). *)
Inductive Completed : Type :=
| CompletedProcess (returncode : Z) (stdout stderr : string)
| RunError (msg : string).

Section Tools.

Variable World : Type.

(** A tool: its name, its description and its [execute] method, which takes
    the keyword arguments and returns a result dictionary or raises. *)
Record Tool : Type := mkTool {
  name : string;
  description : string;
  execute : PyObj -> World -> ToolOutcome * World
}.

(** Python's [str()]; the text of the [TypeError] of a call that cannot bind
    its keyword arguments; the text of the [AttributeError] of a missing
    attribute. *)
Variable py_str : Value -> string.
Variable type_error : string -> PyObj -> string.
Variable attribute_error : Value -> string -> string.

(** The tools that act on the file system, on the network or through
    [eval] and [json.loads]: their [execute] methods are given. *)
Variable file_read_execute : PyObj -> World -> ToolOutcome * World.
Variable file_write_execute : PyObj -> World -> ToolOutcome * World.
Variable file_list_execute : PyObj -> World -> ToolOutcome * World.
Variable api_call_execute : PyObj -> World -> ToolOutcome * World.
Variable calculate_execute : PyObj -> World -> ToolOutcome * World.
Variable json_parse_execute : PyObj -> World -> ToolOutcome * World.

(** [subprocess.run(command, shell=True, capture_output=True, text=True,
    timeout=10)] *)
Variable subprocess_run : string -> World -> Completed * World.

Definition FileReadTool : Tool :=
  mkTool "file_read" "Read content from a file. Parameters: file_path (str)"
         file_read_execute.

Definition FileWriteTool : Tool :=
  mkTool "file_write"
         "Write content to a file. Parameters: file_path (str), content (str)"
         file_write_execute.

Definition FileListTool : Tool :=
  mkTool "file_list"
         "List files in a directory. Parameters: directory (str, optional, default='.')"
         file_list_execute.

Definition APICallTool : Tool :=
  mkTool "api_call"
         "Make HTTP API call. Parameters: url (str), method (str, default='GET'), headers (dict, optional), data (dict, optional)"
         api_call_execute.

(** The body of [WebSearchTool.execute]: two simulated results, whatever the
    query. *)
Definition web_search (query : Value) : PyObj :=
  let q := py_str query in
  let mock_results :=
    [ VDict [("title", VStr ("Result 1 for: " ++ q));
             ("url", VStr ("https://example.com/result1?q=" ++ q));
             ("snippet",
              VStr ("This is a simulated search result for '" ++ q ++
                    "'. In a real implementation, this would connect to a search API."))];
      VDict [("title", VStr ("Result 2 for: " ++ q));
             ("url", VStr ("https://example.com/result2?q=" ++ q));
             ("snippet",
              VStr ("Another simulated result for '" ++ q ++
                    "' demonstrating the tool calling capability."))] ] in
  [("success", VBool true);
   ("query", query);
   ("results", VList mock_results);
   ("count", VInt (Z.of_nat (List.length mock_results)));
   ("note",
    VStr "This is a simulated search. In production, integrate with a real search API.")].

(** [WebSearchTool.execute], called with keyword arguments: the call raises
    unless [query] is given and [self] is not given again. *)
Definition web_search_execute (kwargs : PyObj) (w : World)
  : ToolOutcome * World :=
  if PyDict.mem "self" kwargs then
    (Raised (type_error "WebSearchTool.execute" kwargs), w)
  else
    match PyDict.get "query" kwargs with
    | Some query => (Returned (web_search query), w)
    | None => (Raised (type_error "WebSearchTool.execute" kwargs), w)
    end.

Definition WebSearchTool : Tool :=
  mkTool "web_search"
         "Search the web. Parameters: query (str). Note: This is a simulated search."
         web_search_execute.

Definition CalculateTool : Tool :=
  mkTool "calculate"
         "Perform mathematical calculation. Parameters: expression (str) - e.g., '2 + 2', '10 * 5'"
         calculate_execute.

Definition safe_commands : list string :=
  ["ls"; "dir"; "pwd"; "echo"; "date"; "whoami"].

(** The result dictionary made from what [subprocess.run] comes to. *)
Definition shell_result (command : string) (r : Completed) : PyObj :=
  match r with
  | CompletedProcess returncode stdout stderr =>
      [("success", VBool (returncode =? 0));
       ("command", VStr command);
       ("stdout", VStr stdout);
       ("stderr", VStr stderr);
       ("return_code", VInt returncode)]
  | RunError msg =>
      [("success", VBool false); ("error", VStr msg);
       ("command", VStr command)]
  end.

(** The body of [SystemCommandTool.execute]. *)
Definition system_command (command : Value) (w : World)
  : ToolOutcome * World :=
  match command with
  | VStr command =>
      let command_parts := PyStr.split command in
      let run :=
        let (r, w') := subprocess_run command w in
        (Returned (shell_result command r), w') in
      match command_parts with
      | first :: _ =>
          if negb (PyDict.mem_list first safe_commands) then
            (Returned
               [("success", VBool false);
                ("error",
                 VStr ("Command '" ++ first ++
                       "' not in safe list. Allowed: ['ls', 'dir', 'pwd', 'echo', 'date', 'whoami']"))],
             w)
          else run
      | [] => run
      end
  | _ =>
      (Returned [("success", VBool false);
                 ("error", VStr (attribute_error command "split"));
                 ("command", command)], w)
  end.

(** [SystemCommandTool.execute], called with keyword arguments. *)
Definition system_command_execute (kwargs : PyObj) (w : World)
  : ToolOutcome * World :=
  if PyDict.mem "self" kwargs then
    (Raised (type_error "SystemCommandTool.execute" kwargs), w)
  else
    match PyDict.get "command" kwargs with
    | Some command => system_command command w
    | None => (Raised (type_error "SystemCommandTool.execute" kwargs), w)
    end.

Definition SystemCommandTool : Tool :=
  mkTool "system_command"
         "Execute a system command. Parameters: command (str). Use with caution!"
         system_command_execute.

Definition JSONParseTool : Tool :=
  mkTool "json_parse" "Parse JSON string. Parameters: json_string (str)"
         json_parse_execute.

(** [ToolRegistry.tools] *)
Definition ToolRegistry : Type := PyDict.dict string Tool.

Definition register (tool : Tool) (self : ToolRegistry) : ToolRegistry :=
  PyDict.set (name tool) tool self.

Definition default_tools : list Tool :=
  [ FileReadTool; FileWriteTool; FileListTool; APICallTool;
    WebSearchTool; CalculateTool; SystemCommandTool; JSONParseTool ].

Definition _register_default_tools (self : ToolRegistry) : ToolRegistry :=
  fold_left (fun self tool => register tool self) default_tools self.

(** [ToolRegistry()] *)
Definition new_registry : ToolRegistry := _register_default_tools [].

Definition get_tool (tool_name : string) (self : ToolRegistry) : option Tool :=
  PyDict.get tool_name self.

Definition list_tools (self : ToolRegistry) : list PyObj :=
  map (fun kv : string * Tool =>
         [("name", VStr (name (snd kv)));
          ("description", VStr (description (snd kv)))])
      self.

(** [ToolRegistry.execute_tool(tool_name, **kwargs)] *)
Definition execute_tool (self : ToolRegistry) (tool_name : string)
  (kwargs : PyObj) (w : World) : ToolOutcome * World :=
  if (PyDict.mem "self" kwargs || PyDict.mem "tool_name" kwargs)%bool then
    (Raised (type_error "ToolRegistry.execute_tool" kwargs), w)
  else
    match get_tool tool_name self with
    | None =>
        (Returned
           [("success", VBool false);
            ("error",
             VStr ("Tool '" ++ tool_name ++ "' not found. Available tools: " ++
                   py_str (VList (map VStr (PyDict.keys self)))))],
         w)
    | Some tool => execute tool kwargs w
    end.

End Tools.

Arguments name {World}.
Arguments description {World}.
Arguments execute {World}.

End Tools.

(** ** Vocabulary of the properties *)

(** The fields of a step that execution never assigns. *)
Definition static (p : PlanStep) : Z * string * string * PyObj * list Z :=
  (step_id p, description p, tool p, parameters p, dependencies p).

(** An attempt is a call of a tool: the resolved parameters it was given and
    what came back. *)
Definition Attempt : Type := (PyObj * ToolOutcome)%type.

Definition outcome_ok (out : ToolOutcome) : bool :=
  match out with
  | Returned r => succeeded r
  | Raised _ => false
  end.

(** The result [execute_step] hands back for an outcome. *)
Definition outcome_result (id : Z) (out : ToolOutcome) : PyObj :=
  match out with
  | Returned r => r
  | Raised e =>
      [("success", VBool false); ("error", VStr e); ("step_id", VInt id)]
  end.

Definition outcome_status (out : ToolOutcome) : Status :=
  if outcome_ok out then completed else failed.

(** The history record of an attempt: the resolved parameters when the tool
    returned, the step's own parameters when the call raised. *)
Definition attempt_record (step : PlanStep) (a : Attempt) : ExecRecord :=
  mkExecRecord (step_id step) (tool step)
    (match snd a with Returned _ => fst a | Raised _ => parameters step end)
    (outcome_result (step_id step) (snd a))
    (outcome_status (snd a)).

Definition attempt_events (step : PlanStep) (a : Attempt) : list Event :=
  [EvStatus (step_id step) in_progress;
   EvInvoke (step_id step) (tool step) (fst a) (snd a);
   EvStatus (step_id step) (outcome_status (snd a))].

Definition event_id (e : Event) : Z :=
  match e with
  | EvStatus id _ => id
  | EvInvoke id _ _ _ => id
  end.

(** The statuses assigned to step [id], in order. *)
Definition statuses_of (id : Z) (tr : list Event) : list Status :=
  flat_map (fun e => match e with
                     | EvStatus id' s => if id' =? id then [s] else []
                     | EvInvoke _ _ _ _ => []
                     end) tr.

(** The tool calls made for step [id], in order. *)
Definition invocations_of (id : Z) (tr : list Event) : list Event :=
  filter (fun e => match e with
                   | EvInvoke id' _ _ _ => id' =? id
                   | EvStatus _ _ => false
                   end) tr.

(** All the tool calls, in order. *)
Definition invocations (tr : list Event) : list Event :=
  filter (fun e => match e with
                   | EvInvoke _ _ _ _ => true
                   | EvStatus _ _ => false
                   end) tr.

(** The history records of step [id], in order. *)
Definition records_of (id : Z) (h : list ExecRecord) : list ExecRecord :=
  filter (fun r => rec_step_id r =? id) h.

(** Every adjacent pair of a list is related by [ok]. *)
Fixpoint chain (ok : Status -> Status -> bool) (l : list Status) : bool :=
  match l with
  | a :: (b :: _) as t => (ok a b && chain ok t)%bool
  | _ => true
  end.

(** The transitions the specification allows. *)
Definition spec_transition (a b : Status) : bool :=
  match a, b with
  | pending, in_progress
  | in_progress, completed
  | in_progress, failed => true
  | _, _ => false
  end.

(** The transitions an execution pass makes: those, the failure of a step
    whose dependencies are not satisfied, and the restart of a failed step by
    a retry. *)
Definition pass_transition (a b : Status) : bool :=
  match a, b with
  | pending, in_progress
  | in_progress, completed
  | in_progress, failed
  | pending, failed
  | failed, in_progress => true
  | _, _ => false
  end.

(** [a] occurs in [l] somewhere before an occurrence of [b]. *)
Definition occurs_before (a b : Z) (l : list Z) : Prop :=
  exists l1 l2, l = (l1 ++ a :: l2)%list /\ In b l2.

(** The dependency edges of a plan that stay inside the plan: [d] is a
    dependency of the step [s]. *)
Definition dep_edge (steps : list PlanStep) (d s : Z) : Prop :=
  exists p, In p steps /\ step_id p = s /\ In d (dependencies p) /\
            In d (step_ids steps).

(** The dependency graph has no cycle. *)
Definition acyclic (steps : list PlanStep) : Prop :=
  forall x, ~ clos_trans Z (dep_edge steps) x x.

(** What the last of a run of attempts returned. *)
Definition last_outcome (atts : list Attempt) : ToolOutcome :=
  snd (last atts ([], Raised "")).

Definition all_failed (atts : list Attempt) : Prop :=
  Forall (fun a => outcome_ok (snd a) = false) atts.

(** The statuses assigned by a run of attempts: in progress, then the
    attempt's status, for each attempt. *)
Definition attempt_statuses (atts : list Attempt) : list Status :=
  flat_map (fun a : Attempt => [in_progress; outcome_status (snd a)]) atts.

(** The events of the step [p] in the trace [tr] of a pass are those of one
    turn of the loop.  They stand together in the trace, with no event of
    [p] before or after them, and they are either the single assignment of
    [failed] to a step whose dependencies are not satisfied, which is never
    in progress, or the events of at least one and at most [1 + max_retries]
    attempts, every one but the last failed: [failed] is followed by
    [in_progress] only there, in a retry. *)
Definition single_turn (max_retries : Z) (p : PlanStep) (tr : list Event)
  : Prop :=
  exists before own after : list Event,
    tr = (before ++ own ++ after)%list /\
    Forall (fun e => event_id e <> step_id p) before /\
    Forall (fun e => event_id e <> step_id p) after /\
    ((own = [EvStatus (step_id p) failed] /\
      statuses_of (step_id p) tr = [failed]) \/
     (exists atts : list Attempt,
        own = flat_map (attempt_events p) atts /\
        statuses_of (step_id p) tr = attempt_statuses atts /\
        1 <= Z.of_nat (List.length atts) <= 1 + max_retries /\
        all_failed (removelast atts))).

(** The state [run_step] leaves when the step's dependencies are not
    satisfied. *)
Definition after_gate {World : Type} (st : PlanState World) (step : PlanStep)
  : PlanState World :=
  mkPlanState
    (store_step (set_status failed step) (ps_steps st))
    (ps_context st)
    (PyDict.set (step_id step) dependencies_error (ps_results st))
    (mkExecutor (execution_history (ps_exec st)) (world (ps_exec st))
                (trace (ps_exec st) ++ [EvStatus (step_id step) failed])).

(** The state [run_step] leaves after the attempts [atts], the step and the
    executor being [step'] and [ex'] by then. *)
Definition after_attempts {World : Type} (st : PlanState World)
  (step' : PlanStep) (atts : list Attempt) (ex' : Executor World)
  : PlanState World :=
  let r := outcome_result (step_id step') (last_outcome atts) in
  mkPlanState
    (store_step step' (ps_steps st))
    (if succeeded r then
       PyDict.set ("step_" ++ PyStr.of_Z (step_id step') ++ "_result") (VDict r)
                  (PyDict.update (ps_context st) (_extract_context r))
     else ps_context st)
    (PyDict.set (step_id step') r (ps_results st))
    ex'.

(** What holds of the queue loop of [_resolve_dependencies] at every turn,
    [ks] being the identifiers of the graph: the order and the queue together
    hold no identifier twice and only identifiers of the graph, each with an
    in-degree that has reached zero. *)
Definition kahn_inv (ks : list Z) (in_degree : PyDict.dict Z Z)
  (queue execution_order : list Z) : Prop :=
  PyDict.keys in_degree = ks /\
  NoDup (execution_order ++ queue) /\
  incl (execution_order ++ queue) ks /\
  forall x, In x (execution_order ++ queue) ->
            exists n, PyDict.get x in_degree = Some n /\ n <= 0.

(** [st] is the state of the call [execute_plan ex steps max_retries] when
    its loop reaches the step [id]. *)
Definition reached {World : Type}
  (execute_tool : string -> PyObj -> World -> ToolOutcome * World)
  (py_str : Value -> string) (ex : Executor World) (steps : list PlanStep)
  (max_retries : Z) (id : Z) (st : PlanState World) : Prop :=
  exists order pre post,
    _resolve_dependencies steps = Ok order /\
    order = (pre ++ id :: post)%list /\
    run_steps World execute_tool py_str max_retries pre
              (mkPlanState steps [] [] ex) = Ok st.

(** The tool [t] fails whatever it is given. *)
Definition always_fails {World : Type}
  (execute_tool : string -> PyObj -> World -> ToolOutcome * World)
  (t : string) : Prop :=
  forall params w, outcome_ok (fst (execute_tool t params w)) = false.

(** The history record [r] is the record of the tool call [e] of a plan with
    the steps [steps]. *)
Definition record_matches (steps : list PlanStep) (r : ExecRecord) (e : Event)
  : Prop :=
  match e with
  | EvInvoke id tl params out =>
      rec_step_id r = id /\ rec_tool r = tl /\
      rec_result r = outcome_result id out /\
      rec_status r = outcome_status out /\
      rec_parameters r =
        match out with
        | Returned _ => params
        | Raised _ =>
            match find_step id steps with
            | Some p => parameters p
            | None => []
            end
        end
  | EvStatus _ _ => False
  end.

Definition terminal (s : Status) : Prop := s = completed \/ s = failed.

(** The dependencies in [deps] that are steps of the plan and not yet in the
    order. *)
Definition pending_deps (ks order deps : list Z) : list Z :=
  filter (fun d => (PyDict.mem_list d ks && negb (PyDict.mem_list d order))%bool)
         deps.

(** What more holds of the queue loop when no dependency list names a step
    twice: the in-degree of a step is the number of its dependencies still
    to come, a step with none of them is in the queue or in the order, and
    every step of the order comes after its dependencies. *)
Definition kahn_topo_inv (graph : PyDict.dict Z (list Z))
  (in_degree : PyDict.dict Z Z) (queue execution_order : list Z) : Prop :=
  kahn_inv (PyDict.keys graph) in_degree queue execution_order /\
  (forall x deps, PyDict.get x graph = Some deps ->
     PyDict.get x in_degree =
       Some (Z.of_nat (List.length
                         (pending_deps (PyDict.keys graph) execution_order deps)))) /\
  (forall x, In x (PyDict.keys graph) -> PyDict.get x in_degree = Some 0 ->
     In x (execution_order ++ queue)) /\
  (forall l1 x l2 deps d,
     execution_order = (l1 ++ x :: l2)%list ->
     PyDict.get x graph = Some deps -> In d deps -> In d (PyDict.keys graph) ->
     In d l1).

(** Every step comes after its dependencies that are steps of the plan. *)
Definition respects_dependencies (steps : list PlanStep) (order : list Z)
  : Prop :=
  forall p d l1 l2,
    In p steps -> In d (dependencies p) -> In d (step_ids steps) ->
    order = (l1 ++ step_id p :: l2)%list ->
    In d l1 /\ ~ occurs_before (step_id p) d order.

(** ** Vocabulary of the further properties *)

(** [Planner.available_tools], set in [Planner.__init__]. *)
Definition available_tools : list string :=
  [ "file_read"; "file_write"; "file_list";
    "api_call"; "web_search"; "calculate";
    "system_command"; "json_parse" ].

(** The tools the planner makes steps for, each with the names of the
    parameters the planner gives it. *)
Definition tool_parameters : list (string * list string) :=
  [ ("file_read", ["file_path"]);
    ("file_write", ["file_path"; "content"]);
    ("file_list", ["directory"]);
    ("api_call", ["url"; "method"]);
    ("web_search", ["query"]);
    ("calculate", ["expression"]);
    ("system_command", ["command"]) ].

(** A step as [PlanStep.__init__] leaves it, for one of the planner's tools,
    with the parameters of that tool. *)
Definition fresh_step (p : PlanStep) : Prop :=
  status p = pending /\ result p = None /\ In (tool p) available_tools /\
  In (tool p, PyDict.keys (parameters p)) tool_parameters.

(** The identifiers are 0, 1, 2, ... in the order of the list. *)
Definition dense_ids (steps : list PlanStep) : Prop :=
  step_ids steps = map Z.of_nat (seq 0 (List.length steps)).

(** A step depends only on identifiers below its own, each named once. *)
Definition earlier_deps (p : PlanStep) : Prop :=
  NoDup (dependencies p) /\
  forall d, In d (dependencies p) -> 0 <= d < step_id p.

Definition planned (steps : list PlanStep) : Prop :=
  dense_ids steps /\ Forall fresh_step steps /\ Forall earlier_deps steps.

(** A failed step of the tool [api_call]: what [adjust_plan] finds an
    alternative for. *)
Definition failed_api_call (s : PlanStep) : bool :=
  (status_eqb (status s) failed && String.eqb (tool s) "api_call")%bool.

(** What holds of the steps gathered so far and of the next identifier while
    [plan] goes through its keyword tests: [n] bounds the number of steps. *)
Definition plan_shape (n : nat) (acc : list PlanStep * Z) : Prop :=
  planned (fst acc) /\
  snd acc = Z.of_nat (List.length (fst acc)) /\
  Forall (fun p => dependencies p = []) (fst acc) /\
  (List.length (fst acc) <= n)%nat.

(** [f"step_{step_id}_result"] *)
Definition step_result_key (id : Z) : string :=
  "step_" ++ PyStr.of_Z id ++ "_result".

(** What holds of a completed step [p] in the state [st] of a run: its
    dependencies are completed steps, and its result is a successful one,
    recorded in the results and in the running context. *)
Definition settled {World : Type} (st : PlanState World) (p : PlanStep) : Prop :=
  (forall d, In d (dependencies p) ->
     exists q, find_step d (ps_steps st) = Some q /\ status q = completed) /\
  exists r, result p = Some r /\ succeeded r = true /\
            PyDict.get (step_id p) (ps_results st) = Some r /\
            PyDict.get (step_result_key (step_id p)) (ps_context st) =
              Some (VDict r).

(** Between two turns of the loop of [execute_plan], [todo] being the
    identifiers still to come: their steps are pending, and every completed
    step is settled. *)
Definition pass_inv {World : Type} (st : PlanState World) (todo : list Z)
  : Prop :=
  (forall i p, In i todo -> find_step i (ps_steps st) = Some p ->
               status p = pending) /\
  (forall i p, find_step i (ps_steps st) = Some p -> status p = completed ->
               settled st p).

(** The character [sep] does not occur in [s]. *)
Fixpoint no_char (sep : ascii) (s : string) : bool :=
  match s with
  | EmptyString => true
  | String c s' => (negb (Ascii.eqb c sep) && no_char sep s')%bool
  end.

(** A parameter value that [_resolve_parameters] passes on as it is. *)
Definition literal (v : Value) : bool :=
  match v with
  | VStr s =>
      (negb (PyStr.startswith "${" s && PyStr.endswith "}" s) &&
       negb (PyStr.contains "{{" s))%bool
  | _ => true
  end.

(** The tool of the step [p] succeeds on the parameters of [p], resolved in
    whatever context, in whatever world. *)
Definition step_succeeds {World : Type}
  (execute_tool : string -> PyObj -> World -> ToolOutcome * World)
  (py_str : Value -> string) (p : PlanStep) : Prop :=
  forall context w,
    outcome_ok
      (fst (execute_tool (tool p)
              (_resolve_parameters py_str (parameters p) context) w)) = true.

(** The dependencies of every step are steps of the plan, each named once. *)
Definition closed_deps (steps : list PlanStep) : Prop :=
  forall p, In p steps ->
    NoDup (dependencies p) /\ incl (dependencies p) (step_ids steps).

(** The paths of the placeholders [{{path}}] of a template, as
    [_resolve_template] finds them. *)
Definition placeholders (template : string) : list string :=
  PyStr.re_findall_aux re_template re_template_group template O.

(** ** A small world for examples

    A world that counts the calls made to it, and six tools: a calculation
    that succeeds, a file that cannot be read (the result [FileReadTool]
    gives for a missing file), an unreachable service, a tool called without
    a required argument, a service that is busy during the first three calls
    made to the world, and any other name, unknown to the registry. *)

Module Demo.

Definition World : Type := nat.

Definition execute_tool (t : string) (params : PyObj) (w : World)
  : ToolOutcome * World :=
  if String.eqb t "calculate" then
    (Returned [("success", VBool true); ("result", VInt 42);
               ("expression", VStr "6 * 7")], S w)
  else if String.eqb t "file_read" then
    (Returned [("success", VBool false);
               ("error", VStr "No such file or directory");
               ("file_path", VStr "missing.txt")], S w)
  else if String.eqb t "api_call" then
    (Returned [("success", VBool false); ("error", VStr "Connection refused");
               ("url", VStr "https://jsonplaceholder.typicode.com/posts/1")],
     S w)
  else if String.eqb t "file_write" then
    (Raised "execute() missing 1 required positional argument: 'content'", S w)
  else if String.eqb t "flaky" then
    (if Nat.ltb w 3
     then Returned [("success", VBool false); ("error", VStr "busy")]
     else Returned [("success", VBool true)],
     S w)
  else
    (Returned [("success", VBool false); ("error", VStr "Tool not found")], S w).

Definition py_str (v : Value) : string :=
  match v with
  | VNone => "None"
  | VBool true => "True"
  | VBool false => "False"
  | VInt n => PyStr.of_Z n
  | VStr s => s
  | VList _ => "[...]"
  | VDict _ => "{...}"
  end.

Definition heuristics : Heuristics :=
  {| _extract_file_path := fun _ => None;
     _extract_directory := fun _ => None;
     _extract_content_hint := fun _ => None;
     _extract_content_from_task := fun _ => None;
     _extract_url := fun _ => None;
     _extract_expression := fun _ => None |}.

Notation run := (execute_plan World execute_tool py_str).
Notation run_order := (run_steps World execute_tool py_str).

(** A step that reads a missing file, and asks for the context's
    [file_path] in a second parameter. *)
Definition read_missing : PlanStep :=
  new_step 0 "Read file: missing.txt" "file_read"
    [("file_path", VStr "missing.txt"); ("seen", VStr "${file_path}")] [].

Definition write_after_read : PlanStep :=
  new_step 1 "Write to file: out.txt" "file_write"
    [("file_path", VStr "out.txt"); ("content", VStr "${content}")] [0].

Definition calculation : PlanStep :=
  new_step 0 "Calculate: 6 * 7" "calculate" [("expression", VStr "6 * 7")] [].

(** A call of the service that is busy at first. *)
Definition flaky_call : PlanStep :=
  new_step 0 "Call the service" "flaky" [] [].

Definition missing_file_plan : list PlanStep := [read_missing].
Definition flaky_plan : list PlanStep := [flaky_call].
Definition gated_plan : list PlanStep := [read_missing; write_after_read].
Definition calculation_plan : list PlanStep := [calculation].

(** Steps 0 and 1 depend on each other; step 2 is free. *)
Definition cyclic_plan : list PlanStep :=
  [ new_step 0 "Calculate: 1 + 1" "calculate" [] [1];
    new_step 1 "Calculate: 2 + 2" "calculate" [] [0];
    new_step 2 "Calculate: 3 + 3" "calculate" [] [] ].

(** The chain 2, 1, 0, every dependency written twice. *)
Definition doubled_plan : list PlanStep :=
  [ new_step 0 "Calculate: 1 + 1" "calculate" [] [1; 1];
    new_step 1 "Calculate: 2 + 2" "calculate" [] [2; 2];
    new_step 2 "Calculate: 3 + 3" "calculate" [] [] ].

(** A calculation, and a second one on the result of the first. *)
Definition chain_plan : list PlanStep :=
  [ calculation;
    new_step 1 "Calculate: the result again" "calculate"
      [("expression", VStr "${step_0_result.result}")] [0] ].

(** Tasks for the planner. *)
Definition fetch_then_search : string := "fetch data then search for cats".
Definition greeting : string := "say hello".
Definition search_for_cats : string := "search for cats".
Definition calculate_product : string := "calculate 6 * 7".

(** Heuristics that find the expression of [calculate_product]. *)
Definition arithmetic : Heuristics :=
  {| _extract_file_path := fun _ => None;
     _extract_directory := fun _ => None;
     _extract_content_hint := fun _ => None;
     _extract_content_from_task := fun _ => None;
     _extract_url := fun _ => None;
     _extract_expression := fun _ => Some "6 * 7" |}.

(** The registry of the example world: a shell that echoes the command it is
    given, and tools of the file system and of the network that find
    nothing. *)
Definition type_error (callee : string) (kwargs : PyObj) : string :=
  callee ++ "() got unexpected arguments".

Definition attribute_error (v : Value) (attribute : string) : string :=
  "object has no attribute '" ++ attribute ++ "'".

Definition unavailable (kwargs : PyObj) (w : World) : ToolOutcome * World :=
  (Returned [("success", VBool false); ("error", VStr "unavailable")], S w).

Definition shell (command : string) (w : World) : Tools.Completed * World :=
  (Tools.CompletedProcess 0 command "", S w).

Notation registry :=
  (Tools.new_registry World py_str type_error attribute_error
     unavailable unavailable unavailable unavailable unavailable unavailable
     shell).
Notation registry_execute_tool :=
  (Tools.execute_tool World py_str type_error registry).

End Demo.

(* ================================================================= *)
(** * Properties *)
(* ================================================================= *)

(** ** Dictionaries *)

Module PyDictFacts.
Import PyDict.

Section Facts.
Context {K V : Type} `{EqKey K}.

Lemma keqb_refl (k : K) : keqb k k = true.
Proof. destruct (keqb_spec k k); congruence. Qed.

Lemma keqb_neq (k k' : K) : k <> k' -> keqb k k' = false.
Proof. intro; destruct (keqb_spec k k'); congruence. Qed.

Lemma get_set_eq (k : K) (v : V) (d : dict K V) : get k (set k v d) = Some v.
Proof.
  induction d as [|[k' v'] d IH]; simpl.
  - now rewrite keqb_refl.
  - destruct (keqb_spec k k') as [->|Hn]; simpl.
    + now rewrite keqb_refl.
    + now rewrite (keqb_neq _ _ Hn).
Qed.

Lemma get_set_neq (k k' : K) (v : V) (d : dict K V) :
  k <> k' -> get k' (set k v d) = get k' d.
Proof.
  intro Hn. induction d as [|[k0 v0] d IH]; simpl.
  - rewrite keqb_neq; auto.
  - destruct (keqb_spec k k0) as [->|Hn0]; simpl.
    + rewrite (keqb_neq k' k0); auto.
    + now rewrite IH.
Qed.

Lemma mem_In (k : K) (d : dict K V) : mem k d = true <-> In k (keys d).
Proof.
  unfold mem, keys. induction d as [|[k' v'] d IH]; simpl.
  - split; [discriminate | tauto].
  - destruct (keqb_spec k k') as [->|Hn].
    + split; auto.
    + rewrite IH. split; [auto | intros [E|E]; congruence].
Qed.

Lemma get_None_not_In (k : K) (d : dict K V) :
  get k d = None <-> ~ In k (keys d).
Proof.
  rewrite <- mem_In. unfold mem. destruct (get k d); split; intros; easy.
Qed.

Lemma keys_set_present (k : K) (v : V) (d : dict K V) :
  In k (keys d) -> keys (set k v d) = keys d.
Proof.
  unfold keys. induction d as [|[k' v'] d IH]; simpl; [tauto|].
  intros Hin. destruct (keqb_spec k k') as [->|Hn]; simpl; auto.
  f_equal. apply IH. destruct Hin; congruence.
Qed.

Lemma keys_set_absent (k : K) (v : V) (d : dict K V) :
  ~ In k (keys d) -> keys (set k v d) = (keys d ++ [k])%list.
Proof.
  unfold keys. induction d as [|[k' v'] d IH]; simpl; auto.
  intros Hin. destruct (keqb_spec k k') as [->|Hn]; simpl.
  - tauto.
  - f_equal. apply IH. tauto.
Qed.

Lemma mem_list_In (x : K) (l : list K) : mem_list x l = true <-> In x l.
Proof.
  unfold mem_list. rewrite existsb_exists. split.
  - intros [y [Hy E]]. destruct (keqb_spec x y); congruence.
  - intros Hx. exists x. split; auto. apply keqb_refl.
Qed.

Lemma mem_list_false (x : K) (l : list K) : mem_list x l = false <-> ~ In x l.
Proof.
  rewrite <- mem_list_In. destruct (mem_list x l); split; congruence.
Qed.

Lemma get_update (k : K) (d e : dict K V) :
  NoDup (keys e) ->
  get k (update d e) =
  match get k e with Some v => Some v | None => get k d end.
Proof.
  unfold update. revert d.
  induction e as [|[k' v'] e IH]; simpl; intros d Hnd; auto.
  inversion Hnd as [|? ? Hnot Hnd']; subst.
  rewrite IH by assumption.
  destruct (keqb_spec k k') as [->|Hn].
  - apply get_None_not_In in Hnot. unfold keys in Hnot. rewrite Hnot.
    apply get_set_eq.
  - destruct (get k e); auto. apply get_set_neq; congruence.
Qed.

End Facts.
End PyDictFacts.

(** ** Strings *)

Module PyStrFacts.
Import PyStr.

Lemma length_app (a b : string) :
  String.length (a ++ b) = (String.length a + String.length b)%nat.
Proof. induction a; simpl; auto. Qed.

Lemma substring_0_app (a b : string) :
  substring 0 (String.length a) (a ++ b) = a.
Proof. induction a; simpl; [destruct b; auto | now f_equal]. Qed.

Lemma substring_skip_app (a b : string) :
  substring (String.length a) (String.length b) (a ++ b) = b.
Proof.
  induction a; simpl; auto.
  pose proof (substring_0_app b "") as E. 
  replace (b ++ "") with b in E; auto.
  clear. induction b; simpl; congruence.
Qed.

Lemma endswith_app (a b : string) : endswith b (a ++ b) = true.
Proof.
  unfold endswith. rewrite length_app.
  replace (String.length a + String.length b - String.length b)%nat
    with (String.length a) by lia.
  rewrite substring_skip_app, String.eqb_refl.
  rewrite andb_true_r. apply Nat.leb_le. lia.
Qed.

Lemma last_char_inv (c : ascii) (s : string) :
  (1 <= String.length s)%nat ->
  substring (String.length s - 1) 1 s = String c "" ->
  exists x, s = x ++ String c "".
Proof.
  induction s as [|a s IH]; intros Hlen Hs; [simpl in Hlen; lia|].
  destruct s as [|b s].
  - simpl in Hs. exists "". simpl. congruence.
  - destruct IH as [x Hx].
    + simpl; lia.
    + replace (String.length (String a (String b s)) - 1)%nat
        with (S (String.length (String b s) - 1)) in Hs by (simpl; lia).
      exact Hs.
    + exists (String a x). simpl. now rewrite <- Hx.
Qed.

Lemma endswith_char_inv (c : ascii) (s : string) :
  endswith (String c "") s = true -> exists x, s = x ++ String c "".
Proof.
  unfold endswith. intros Hs. apply andb_true_iff in Hs as [Hl Hs].
  apply Nat.leb_le in Hl. apply String.eqb_eq in Hs.
  apply last_char_inv; auto.
Qed.

Lemma slice_reference (p : string) : slice_2_m1 ("${" ++ p ++ "}") = p.
Proof.
  unfold slice_2_m1. simpl.
  rewrite length_app. simpl.
  replace (String.length p + 1 - 1)%nat with (String.length p) by lia.
  apply substring_0_app.
Qed.

(** A string starts with "${" and ends with "}" exactly when it is "${",
    some text, "}". *)
Lemma reference_shape (s : string) :
  (startswith "${" s && endswith "}" s)%bool = true <->
  exists p, s = "${" ++ p ++ "}".
Proof.
  split.
  - intros Hs. apply andb_true_iff in Hs as [Hp He].
    apply endswith_char_inv in He as [x Hx].
    unfold startswith in Hp. apply String.prefix_correct in Hp.
    destruct s as [|a [|b s]]; simpl in Hp; try discriminate.
    injection Hp as -> -> _.
    destruct x as [|c [|c' x]]; simpl in Hx; try discriminate.
    inversion Hx. exists x. now subst.
  - intros [p ->]. apply andb_true_iff; split.
    + apply String.prefix_correct. simpl. now destruct (p ++ "}").
    + change ("${" ++ p ++ "}") with (("${" ++ p) ++ "}").
      apply endswith_app.
Qed.

End PyStrFacts.

(** ** Parameter resolution *)

Section Resolution.
Variable py_str : Value -> string.

Lemma split_char_aux_cons (sep : ascii) (s cur : string) :
  exists part rest, PyStr.split_char_aux sep s cur = part :: rest.
Proof.
  revert cur. induction s as [|c s IH]; intros cur; simpl; eauto.
  destruct (Ascii.eqb c sep); eauto.
Qed.

Lemma walk_path_None (parts : list string) : walk_path parts VNone = VNone.
Proof. destruct parts; reflexivity. Qed.

(** A path whose first segment is not a key of the context is absent. *)
Lemma get_context_value_absent (path : string) (context : PyObj) :
  PyDict.get (hd "" (PyStr.split_char "." path)) context = None ->
  _get_context_value path context = VNone.
Proof.
  unfold _get_context_value, PyStr.split_char.
  destruct (split_char_aux_cons "." path "") as (part & rest & ->).
  simpl. intros ->. apply walk_path_None.
Qed.

Lemma resolve_reference (p : string) (context : PyObj) :
  resolve_value py_str (VStr ("${" ++ p ++ "}")) context =
  _get_context_value p context.
Proof.
  unfold resolve_value.
  assert (E : (PyStr.startswith "${" ("${" ++ p ++ "}") &&
               PyStr.endswith "}" ("${" ++ p ++ "}"))%bool = true)
    by (apply PyStrFacts.reference_shape; eauto).
  rewrite E. now rewrite PyStrFacts.slice_reference.
Qed.

(** C10: a string parameter is a whole-value reference exactly when it starts
    with "${" and ends with "}", that is, when it is "${" ++ p ++ "}" for some
    text p; it is then resolved as the single lookup of the path p, whatever p
    contains, and is absent when the first segment of p is not a key of the
    context; any other string is a template or a literal.  So
    "${a} and ${b}" is the lookup of "a} and ${b", and "${a} then {{b}}" the
    lookup of "a} then {{b}". *)
Theorem whole_value_reference_is_one_lookup (s : string) (context : PyObj) :
  ((PyStr.startswith "${" s && PyStr.endswith "}" s)%bool = true <->
   exists p, s = "${" ++ p ++ "}") /\
  (forall p, s = "${" ++ p ++ "}" ->
     resolve_value py_str (VStr s) context = _get_context_value p context /\
     (PyDict.get (hd "" (PyStr.split_char "." p)) context = None ->
      resolve_value py_str (VStr s) context = VNone)) /\
  ((forall p, s <> "${" ++ p ++ "}") ->
     resolve_value py_str (VStr s) context =
     if PyStr.contains "{{" s then VStr (_resolve_template py_str s context)
     else VStr s) /\
  resolve_value py_str (VStr "${a} and ${b}") context =
    match PyDict.get "a} and ${b" context with Some v => v | None => VNone end /\
  resolve_value py_str (VStr "${a} then {{b}}") context =
    match PyDict.get "a} then {{b}" context with Some v => v | None => VNone end.
Proof.
  split; [apply PyStrFacts.reference_shape|].
  split; [|split; [|split]].
  - intros p ->. rewrite resolve_reference. split; auto.
    apply get_context_value_absent.
  - intros Hno. unfold resolve_value.
    destruct (PyStr.startswith "${" s && PyStr.endswith "}" s)%bool eqn:E; auto.
    apply PyStrFacts.reference_shape in E as [p ->]. now elim (Hno p).
  - exact (resolve_reference "a} and ${b" context).
  - exact (resolve_reference "a} then {{b}" context).
Qed.

End Resolution.

(** ** The planner *)

Section PlannerFacts.
Import Planner.
Variable h : Heuristics.

Lemma create_generic_plan_nonempty (task : string) (start_id : Z) :
  _create_generic_plan task start_id <> [].
Proof.
  unfold _create_generic_plan.
  destruct (PyStr.contains "file" (PyStr.lower task)); [discriminate|].
  destruct (existsb _ _); discriminate.
Qed.

(** Whenever [plan] returns, it returns at least one step. *)
Lemma plan_returns_nonempty (fuel : nat) (task : string) (context : PyObj)
  (steps : list PlanStep) :
  plan h fuel task context = Ok steps -> steps <> [].
Proof.
  destruct fuel as [|fuel]; simpl; [discriminate|].
  destruct (pattern_steps h task) as [steps0 next_id].
  destruct (if _is_multi_step_task task then _ else _) as [[|s l]| |];
    simpl; try discriminate.
  - intros E; injection E as <-. apply create_generic_plan_nonempty.
  - intros E; injection E as <-. discriminate.
Qed.

(** A task with none of the multi-step indicators is planned without
    recursion: one unit of depth is enough. *)
Lemma plan_single_step_total (fuel : nat) (task : string) (context : PyObj) :
  _is_multi_step_task task = false ->
  exists steps, plan h (S fuel) task context = Ok steps /\ steps <> [].
Proof.
  intros Hm. simpl. rewrite Hm.
  destruct (pattern_steps h task) as [[|s l] next_id]; simpl.
  - eexists; split; eauto. apply create_generic_plan_nonempty.
  - eexists; split; eauto. discriminate.
Qed.

Lemma pattern_steps_after_that : pattern_steps h "after  that" = ([], 0).
Proof. reflexivity. Qed.

(** C7: on the task "after  that" (two spaces) [plan] never returns: the
    task matches the multi-step indicator [after\s+that], the split on
    [then|and then|after that|next] leaves it whole, and [plan] is called
    again on the same task, at every depth. *)
Theorem plan_after_that_never_returns (fuel : nat) (context : PyObj) :
  plan h fuel "after  that" context = OutOfFuel.
Proof.
  revert context. induction fuel as [|fuel IH]; intros context; [reflexivity|].
  cbn [plan]. rewrite pattern_steps_after_that.
  change (_is_multi_step_task "after  that") with true. cbv iota.
  unfold _decompose_multi_step.
  change (PyStr.re_search re_numbered "after  that") with false. cbv iota.
  change (PyStr.re_split re_keywords "after  that") with ["after  that"].
  cbn [decompose_parts].
  change (PyStr.strip "after  that") with "after  that".
  now rewrite IH.
Qed.

End PlannerFacts.

(** ** Context extraction *)

Lemma extract_context_failed (r : PyObj) :
  succeeded r = false -> _extract_context r = [].
Proof. unfold _extract_context. now intros ->. Qed.

Lemma extract_context_copies (r : PyObj) (f k : string) (v : Value) :
  succeeded r = true -> In (f, k) well_known -> PyDict.get f r = Some v ->
  PyDict.get k (_extract_context r) = Some v.
Proof.
  unfold _extract_context. intros -> Hin Hget.
  unfold well_known in *. cbn [fold_left fst snd].
  destruct (PyDict.get "content" r) eqn:E1,
           (PyDict.get "file_path" r) eqn:E2,
           (PyDict.get "response" r) eqn:E3,
           (PyDict.get "results" r) eqn:E4,
           (PyDict.get "result" r) eqn:E5;
    simpl in Hin;
    repeat (destruct Hin as [Hin|Hin];
            [injection Hin as <- <-; try congruence;
             (replace v with v0 by congruence) ||
             (replace v with v1 by congruence) ||
             (replace v with v2 by congruence) ||
             (replace v with v3 by congruence) ||
             (replace v with v4 by congruence) || idtac;
             reflexivity|]);
    try contradiction.
Qed.

Lemma extract_context_keys_NoDup (r : PyObj) :
  NoDup (PyDict.keys (_extract_context r)).
Proof.
  unfold _extract_context. destruct (succeeded r); [|constructor].
  unfold well_known. cbn [fold_left fst snd].
  destruct (PyDict.get "content" r), (PyDict.get "file_path" r),
           (PyDict.get "response" r), (PyDict.get "results" r),
           (PyDict.get "result" r);
    cbn; repeat constructor; simpl; try tauto;
    intros H; repeat (destruct H as [H|H]; try discriminate H); auto.
Qed.

(** ** The executor: one step *)

Section ExecutorFacts.

Variable World : Type.
Variable execute_tool : string -> PyObj -> World -> ToolOutcome * World.
Variable py_str : Value -> string.

Local Notation Exec := (Executor World).
Local Notation exec_step := (execute_step World execute_tool py_str).
Local Notation retry := (retry_loop World execute_tool py_str).
Local Notation step1 := (run_step World execute_tool py_str).
Local Notation steps_run := (run_steps World execute_tool py_str).
Local Notation exec_plan := (execute_plan World execute_tool py_str).

(** *** One attempt *)

Lemma succeeded_outcome_result (id : Z) (out : ToolOutcome) :
  succeeded (outcome_result id out) = outcome_ok out.
Proof. destruct out; reflexivity. Qed.

Lemma execute_step_spec (ex : Exec) (step : PlanStep) (context : PyObj) :
  let resolved := _resolve_parameters py_str (parameters step) context in
  let out := fst (execute_tool (tool step) resolved (world ex)) in
  let a : Attempt := (resolved, out) in
  exec_step ex step context =
  (outcome_result (step_id step) out,
   set_result (outcome_result (step_id step) out)
              (set_status (outcome_status out) step),
   mkExecutor
     (execution_history ex ++ [attempt_record step a])
     (snd (execute_tool (tool step) resolved (world ex)))
     (trace ex ++ attempt_events step a)).
Proof.
  unfold execute_step. cbn [parameters set_status tool].
  destruct (execute_tool _ _ _) as [[r|e] w]; cbn; reflexivity.
Qed.

(** *** The retry loop *)

Lemma static_set_status (s : Status) (p : PlanStep) :
  static (set_status s p) = static p.
Proof. reflexivity. Qed.

Lemma static_set_result (r : PyObj) (p : PlanStep) :
  static (set_result r p) = static p.
Proof. reflexivity. Qed.

Lemma static_fields (p q : PlanStep) :
  static p = static q ->
  step_id p = step_id q /\ tool p = tool q /\ parameters p = parameters q /\
  dependencies p = dependencies q.
Proof. unfold static. intros E. injection E as -> _ -> -> ->. auto. Qed.

Lemma attempt_record_static (p q : PlanStep) :
  static p = static q -> attempt_record p = attempt_record q.
Proof.
  intros E. apply static_fields in E as (E1 & E2 & E3 & _).
  unfold attempt_record. now rewrite E1, E2, E3.
Qed.

Lemma attempt_events_static (p q : PlanStep) :
  static p = static q -> attempt_events p = attempt_events q.
Proof.
  intros E. apply static_fields in E as (E1 & E2 & _).
  unfold attempt_events. now rewrite E1, E2.
Qed.

Lemma last_outcome_cons (a b : Attempt) (l : list Attempt) :
  last_outcome (a :: b :: l) = last_outcome (b :: l).
Proof. reflexivity. Qed.

Ltac no_attempt :=
  split; [reflexivity|];
  split; [simpl; now rewrite app_nil_r|];
  split; [simpl; now rewrite app_nil_r|];
  split; [reflexivity|];
  split; [congruence|];
  split; [auto|];
  split; [constructor|];
  split; [simpl; lia|];
  split; [reflexivity|constructor].

(** What a run of the retry loop does, as the list [atts] of its attempts:
    all but the last failed, there are at most [max_retries + 1 -
    retry_count] of them and exactly as many when the last failed too, and
    the context comes back as it was given. *)
Lemma retry_loop_spec (fuel : nat) (max_retries : Z) :
  forall (retry_count : Z) (step : PlanStep) (res : option PyObj)
         (context : PyObj) (ex : Exec),
  (Z.to_nat (max_retries + 1 - retry_count) <= fuel)%nat ->
  exists (atts : list Attempt) (step' : PlanStep) (ex' : Exec),
    retry fuel max_retries retry_count step res context ex =
      Ok (match atts with
          | [] => res
          | _ => Some (outcome_result (step_id step) (last_outcome atts))
          end, step', context, ex') /\
    execution_history ex' =
      (execution_history ex ++ map (attempt_record step) atts)%list /\
    trace ex' = (trace ex ++ flat_map (attempt_events step) atts)%list /\
    static step' = static step /\
    (atts <> [] ->
       status step' = outcome_status (last_outcome atts) /\
       result step' =
         Some (outcome_result (step_id step) (last_outcome atts))) /\
    (atts = [] -> step' = step /\ ex' = ex) /\
    all_failed (removelast atts) /\
    (List.length atts <= Z.to_nat (max_retries + 1 - retry_count))%nat /\
    (outcome_ok (last_outcome atts) = false ->
       List.length atts = Z.to_nat (max_retries + 1 - retry_count)) /\
    Forall (fun a : Attempt =>
              exists w, snd a = fst (execute_tool (tool step) (fst a) w)) atts.
Proof.
  induction fuel as [|fuel IH]; intros rc step res context ex Hfuel.
  - (* no attempt is left *)
    assert (Hrc : (rc <=? max_retries) = false) by (apply Z.leb_gt; lia).
    exists [], step, ex. cbn [retry_loop]. rewrite Hrc.
    replace (Z.to_nat (max_retries + 1 - rc)) with 0%nat by lia.
    no_attempt.
  - destruct (rc <=? max_retries) eqn:Hrc.
    2:{ apply Z.leb_gt in Hrc.
        exists [], step, ex. cbn [retry_loop].
        replace (rc <=? max_retries) with false by (symmetry; apply Z.leb_gt; lia).
        replace (Z.to_nat (max_retries + 1 - rc)) with 0%nat by lia.
        no_attempt. }
    apply Z.leb_le in Hrc.
    cbn [retry_loop].
    replace (rc <=? max_retries) with true by (symmetry; apply Z.leb_le; lia).
    rewrite execute_step_spec.
    set (resolved := _resolve_parameters py_str (parameters step) context).
    set (out := fst (execute_tool (tool step) resolved (world ex))).
    set (a := (resolved, out) : Attempt).
    set (step1 := set_result _ _).
    set (ex1 := mkExecutor _ _ _).
    cbv beta iota zeta.
    rewrite succeeded_outcome_result.
    assert (Hn : Z.to_nat (max_retries + 1 - rc) =
                 S (Z.to_nat (max_retries + 1 - (rc + 1)))) by lia.
    destruct (outcome_ok out) eqn:Hok.
    + (* the attempt succeeded: the loop stops *)
      exists [a], step1, ex1. rewrite Hn.
      split; [reflexivity|].
      split; [reflexivity|].
      split; [reflexivity|].
      split; [reflexivity|].
      split; [intros _; split; reflexivity|].
      split; [intros E; discriminate E|].
      split; [constructor|].
      split; [simpl; lia|].
      split.
      * intros Hl. change (last_outcome [a]) with out in Hl. congruence.
      * constructor; [|constructor]. exists (world ex). reflexivity.
    + (* the attempt failed: the context is left as it was *)
      assert (Hctx : (if rc + 1 <=? max_retries
                      then PyDict.update context
                             (_extract_context (outcome_result (step_id step) out))
                      else context) = context).
      { destruct (rc + 1 <=? max_retries); auto.
        rewrite extract_context_failed; auto.
        now rewrite succeeded_outcome_result. }
      rewrite Hctx.
      destruct (IH (rc + 1) step1 (Some (outcome_result (step_id step) out))
                   context ex1) as
        (atts & step' & ex' & Hrun & Hh & Ht & Hs & Hst & Hnil & Hfail & Hle
         & Hall & Htool); [lia|].
      assert (Hs1 : static step1 = static step) by reflexivity.
      rewrite (attempt_record_static _ _ Hs1) in Hh.
      rewrite (attempt_events_static _ _ Hs1) in Ht.
      destruct (static_fields _ _ Hs1) as (Hid & Htl & _).
      rewrite Hid in Hrun, Hst. rewrite Htl in Htool.
      exists (a :: atts), step', ex'. rewrite Hn.
      split; [|split; [|split; [|split; [|split; [|split; [|split;
        [|split; [|split]]]]]]]].
      * rewrite Hrun. destruct atts as [|b atts]; auto.
      * rewrite Hh. unfold ex1; simpl. now rewrite <- app_assoc.
      * rewrite Ht. unfold ex1; simpl. now rewrite <- app_assoc.
      * congruence.
      * intros _. destruct atts as [|b atts].
        -- destruct (Hnil eq_refl) as [-> _]. unfold last_outcome; simpl.
           fold out. split; reflexivity.
        -- rewrite last_outcome_cons. apply Hst. discriminate.
      * intros E; discriminate E.
      * destruct atts as [|b atts]; [constructor|].
        change (removelast (a :: b :: atts)) with (a :: removelast (b :: atts)).
        constructor; auto.
      * simpl. lia.
      * destruct atts as [|b atts].
        -- intros _. simpl. specialize (Hall eq_refl). simpl in Hall. lia.
        -- rewrite last_outcome_cons. intros Hl. simpl.
           rewrite <- (Hall Hl). reflexivity.
      * constructor; auto. exists (world ex). reflexivity.
Qed.

(** *** Steps as shared objects *)

Lemma find_step_Some (id : Z) (steps : list PlanStep) (p : PlanStep) :
  find_step id steps = Some p -> In p steps /\ step_id p = id.
Proof.
  unfold find_step. intros E. apply find_some in E as [Hin E].
  apply Z.eqb_eq in E. auto.
Qed.

Lemma find_step_In (id : Z) (steps : list PlanStep) :
  In id (step_ids steps) -> exists p, find_step id steps = Some p.
Proof.
  unfold find_step, step_ids. induction steps as [|s l IH]; simpl; [tauto|].
  intros [E|Hin].
  - subst. rewrite Z.eqb_refl. eauto.
  - destruct (step_id s =? id); eauto.
Qed.

Lemma find_step_NoDup (steps : list PlanStep) (p : PlanStep) :
  NoDup (step_ids steps) -> In p steps -> find_step (step_id p) steps = Some p.
Proof.
  unfold find_step, step_ids. induction steps as [|s l IH]; simpl; [tauto|].
  intros Hnd [E|Hin]; inversion Hnd as [|? ? Hnot Hnd']; subst.
  - now rewrite Z.eqb_refl.
  - destruct (step_id s =? step_id p) eqn:E; auto.
    apply Z.eqb_eq in E. elim Hnot. rewrite E. now apply in_map.
Qed.

Lemma find_store_same (p q : PlanStep) (steps : list PlanStep) :
  find_step (step_id p) steps = Some q ->
  find_step (step_id p) (store_step p steps) = Some p.
Proof.
  unfold find_step. induction steps as [|s l IH]; simpl; [discriminate|].
  destruct (step_id s =? step_id p) eqn:E; simpl.
  - now rewrite Z.eqb_refl.
  - rewrite E. auto.
Qed.

Lemma find_store_other (id : Z) (p : PlanStep) (steps : list PlanStep) :
  id <> step_id p ->
  find_step id (store_step p steps) = find_step id steps.
Proof.
  unfold find_step. intros Hn. induction steps as [|s l IH]; simpl; auto.
  destruct (step_id s =? step_id p) eqn:E; simpl.
  - apply Z.eqb_eq in E.
    replace (step_id p =? id) with false by (symmetry; apply Z.eqb_neq; lia).
    replace (step_id s =? id) with false by (symmetry; apply Z.eqb_neq; lia).
    reflexivity.
  - now rewrite IH.
Qed.

Lemma static_store (p q : PlanStep) (steps : list PlanStep) :
  find_step (step_id p) steps = Some q -> static p = static q ->
  map static (store_step p steps) = map static steps.
Proof.
  unfold find_step. intros Hf Hs.
  induction steps as [|s l IH]; simpl in *; auto.
  destruct (step_id s =? step_id p) eqn:E; simpl.
  - injection Hf as ->. now rewrite Hs.
  - now rewrite IH.
Qed.

Lemma step_ids_static (a b : list PlanStep) :
  map static a = map static b -> step_ids a = step_ids b.
Proof.
  intros E. unfold step_ids.
  assert (H : forall l, map step_id l =
                        map (fun t => fst (fst (fst (fst t)))) (map static l)).
  { intros l. rewrite map_map. reflexivity. }
  now rewrite (H a), (H b), E.
Qed.

(** *** One turn of the [for] loop *)

Lemma run_step_not_found (max_retries : Z) (st : PlanState World) (id : Z) :
  find_step id (ps_steps st) = None ->
  step1 max_retries st id = Raise StopIteration.
Proof. unfold run_step. now intros ->. Qed.

(** A step whose dependencies are not satisfied is failed on the spot. *)
Lemma run_step_gated (max_retries : Z) (st : PlanState World) (id : Z)
  (step : PlanStep) :
  find_step id (ps_steps st) = Some step ->
  _dependencies_satisfied step (ps_steps st) = false ->
  step1 max_retries st id = Ok (after_gate st step).
Proof.
  intros Hf Hd. unfold run_step. rewrite Hf, Hd. cbn [negb].
  apply find_step_Some in Hf as [_ <-]. reflexivity.
Qed.

(** Otherwise the step is attempted; without a first attempt (a negative
    [max_retries]) the result is [None] and reading it raises. *)
Lemma run_step_attempted (max_retries : Z) (st : PlanState World) (id : Z)
  (step : PlanStep) :
  find_step id (ps_steps st) = Some step ->
  _dependencies_satisfied step (ps_steps st) = true ->
  exists (atts : list Attempt) (step' : PlanStep) (ex' : Exec),
    step1 max_retries st id =
      match atts with
      | [] => Raise AttributeError
      | _ => Ok (after_attempts st step' atts ex')
      end /\
    (atts = [] <-> max_retries < 0) /\
    execution_history ex' =
      (execution_history (ps_exec st) ++ map (attempt_record step) atts)%list /\
    trace ex' =
      (trace (ps_exec st) ++ flat_map (attempt_events step) atts)%list /\
    static step' = static step /\
    (atts <> [] -> status step' = outcome_status (last_outcome atts)) /\
    all_failed (removelast atts) /\
    (List.length atts <= Z.to_nat (max_retries + 1))%nat /\
    (outcome_ok (last_outcome atts) = false ->
       List.length atts = Z.to_nat (max_retries + 1)) /\
    Forall (fun a : Attempt =>
              exists w, snd a = fst (execute_tool (tool step) (fst a) w)) atts.
Proof.
  intros Hf Hd. unfold run_step. rewrite Hf, Hd. cbn [negb].
  destruct (retry_loop_spec (Z.to_nat (max_retries + 1)) max_retries 0 step
              None (ps_context st) (ps_exec st))
    as (atts & step' & ex' & Hrun & Hh & Ht & Hs & Hst & Hnil & Hfail & Hle
        & Hall & Htool); [lia|].
  replace (max_retries + 1 - 0) with (max_retries + 1) in * by lia.
  exists atts, step', ex'. rewrite Hrun. cbn [bind].
  apply find_step_Some in Hf as [_ Hid].
  destruct (static_fields _ _ Hs) as (Hid' & _).
  split; [|split; [|repeat split; auto]].
  - destruct atts as [|a atts]; [reflexivity|].
    unfold after_attempts. rewrite Hid', Hid. reflexivity.
  - split.
    + intros ->. specialize (Hall eq_refl). simpl in Hall. lia.
    + intros Hneg. destruct atts as [|a atts]; auto. simpl in Hle. lia.
  - intros Hne. now apply Hst.
Qed.

Lemma invocations_attempt_events (step : PlanStep) (atts : list Attempt) :
  invocations (flat_map (attempt_events step) atts) =
  map (fun a : Attempt => EvInvoke (step_id step) (tool step) (fst a) (snd a))
      atts.
Proof. induction atts as [|a l IH]; simpl; now rewrite ?IH. Qed.

Lemma attempt_events_ids (step : PlanStep) (atts : list Attempt) :
  Forall (fun e => event_id e = step_id step)
         (flat_map (attempt_events step) atts).
Proof. induction atts as [|a l IH]; simpl; repeat constructor; auto. Qed.

(** What a turn that does not raise changes: one step, one entry of the
    results, and it adds to the history one record for each attempt it made,
    to the trace events of that step only. *)
Lemma run_step_effect (max_retries : Z) (st st' : PlanState World) (id : Z) :
  step1 max_retries st id = Ok st' ->
  exists (step step' : PlanStep) (atts : list Attempt) (evs : list Event)
         (r : PyObj),
    find_step id (ps_steps st) = Some step /\
    ps_steps st' = store_step step' (ps_steps st) /\
    static step' = static step /\
    execution_history (ps_exec st') =
      (execution_history (ps_exec st) ++ map (attempt_record step) atts)%list /\
    trace (ps_exec st') = (trace (ps_exec st) ++ evs)%list /\
    Forall (fun e => event_id e = id) evs /\
    invocations evs =
      map (fun a : Attempt => EvInvoke id (tool step) (fst a) (snd a)) atts /\
    ps_results st' = PyDict.set id r (ps_results st).
Proof.
  intros Hrun.
  destruct (find_step id (ps_steps st)) as [step|] eqn:Hf.
  2:{ rewrite run_step_not_found in Hrun; auto. discriminate. }
  pose proof (find_step_Some _ _ _ Hf) as [_ Hid].
  destruct (_dependencies_satisfied step (ps_steps st)) eqn:Hd.
  - destruct (run_step_attempted max_retries st id step Hf Hd)
      as (atts & step' & ex' & Hr & _ & Hh & Ht & Hs & _).
    rewrite Hr in Hrun. destruct atts as [|a atts]; [discriminate|].
    injection Hrun as <-.
    destruct (static_fields _ _ Hs) as (Hid' & _).
    exists step, step', (a :: atts), (flat_map (attempt_events step) (a :: atts)).
    exists (outcome_result id (last_outcome (a :: atts))).
    split; [reflexivity|]. split; [reflexivity|]. split; [assumption|].
    split; [assumption|]. split; [assumption|].
    split; [rewrite <- Hid; apply attempt_events_ids|].
    split; [rewrite <- Hid; apply invocations_attempt_events|].
    unfold after_attempts. cbn [ps_results]. rewrite Hid', Hid. reflexivity.
  - rewrite (run_step_gated max_retries st id step Hf Hd) in Hrun.
    injection Hrun as <-.
    exists step, (set_status failed step), [], [EvStatus id failed].
    exists dependencies_error. unfold after_gate. cbn. rewrite Hid.
    split; [reflexivity|]. split; [reflexivity|]. split; [reflexivity|].
    split; [now rewrite app_nil_r|]. split; [reflexivity|].
    split; [repeat constructor|]. split; reflexivity.
Qed.

Lemma records_of_app (id : Z) (a b : list ExecRecord) :
  records_of id (a ++ b) = (records_of id a ++ records_of id b)%list.
Proof. apply filter_app. Qed.

Lemma statuses_of_app (id : Z) (a b : list Event) :
  statuses_of id (a ++ b) = (statuses_of id a ++ statuses_of id b)%list.
Proof. apply flat_map_app. Qed.

Lemma invocations_of_app (id : Z) (a b : list Event) :
  invocations_of id (a ++ b) = (invocations_of id a ++ invocations_of id b)%list.
Proof. apply filter_app. Qed.

Lemma invocations_app (a b : list Event) :
  invocations (a ++ b) = (invocations a ++ invocations b)%list.
Proof. apply filter_app. Qed.

Lemma records_of_other (id : Z) (step : PlanStep) (atts : list Attempt) :
  step_id step <> id -> records_of id (map (attempt_record step) atts) = [].
Proof.
  intros Hn. induction atts as [|a l IH]; simpl; auto.
  replace (step_id step =? id) with false by (symmetry; apply Z.eqb_neq; lia).
  exact IH.
Qed.

Lemma records_of_same (step : PlanStep) (atts : list Attempt) :
  records_of (step_id step) (map (attempt_record step) atts) =
  map (attempt_record step) atts.
Proof.
  induction atts as [|a l IH]; simpl; auto.
  rewrite Z.eqb_refl. now rewrite IH.
Qed.

Lemma statuses_of_other (id id' : Z) (evs : list Event) :
  id' <> id -> Forall (fun e => event_id e = id') evs -> statuses_of id evs = [].
Proof.
  intros Hn Hall. induction Hall as [|e l He _ IH]; simpl; auto.
  rewrite IH. destruct e as [i s|i t p o]; simpl in *; auto.
  replace (i =? id) with false by (symmetry; apply Z.eqb_neq; lia).
  reflexivity.
Qed.

Lemma invocations_of_other (id id' : Z) (evs : list Event) :
  id' <> id -> Forall (fun e => event_id e = id') evs ->
  invocations_of id evs = [].
Proof.
  intros Hn Hall. induction Hall as [|e l He _ IH]; simpl; auto.
  rewrite IH. destruct e as [i s|i t p o]; simpl in *; auto.
  replace (i =? id) with false by (symmetry; apply Z.eqb_neq; lia).
  reflexivity.
Qed.

(** A turn for step [id] leaves everything about another step [other] as it
    was. *)
Lemma run_step_frame (max_retries : Z) (st st' : PlanState World)
  (id other : Z) :
  step1 max_retries st id = Ok st' -> other <> id ->
  find_step other (ps_steps st') = find_step other (ps_steps st) /\
  records_of other (execution_history (ps_exec st')) =
    records_of other (execution_history (ps_exec st)) /\
  statuses_of other (trace (ps_exec st')) =
    statuses_of other (trace (ps_exec st)) /\
  invocations_of other (trace (ps_exec st')) =
    invocations_of other (trace (ps_exec st)) /\
  PyDict.get other (ps_results st') = PyDict.get other (ps_results st).
Proof.
  intros Hrun Hn.
  destruct (run_step_effect _ _ _ _ Hrun)
    as (step & step' & atts & evs & r & Hf & Hsteps & Hs & Hh & Ht & Hev & _ & Hres).
  pose proof (find_step_Some _ _ _ Hf) as [_ Hid].
  destruct (static_fields _ _ Hs) as (Hid' & _).
  rewrite Hsteps, Hh, Ht, Hres.
  rewrite records_of_app, statuses_of_app, invocations_of_app.
  assert (Hn' : id <> other) by lia.
  rewrite records_of_other by lia.
  rewrite (statuses_of_other other id evs Hn' Hev).
  rewrite (invocations_of_other other id evs Hn' Hev).
  rewrite !app_nil_r.
  repeat split.
  - apply find_store_other. lia.
  - apply PyDictFacts.get_set_neq. lia.
Qed.

(** *** The whole [for] loop *)

Lemma run_steps_app (max_retries : Z) (l1 l2 : list Z) (st : PlanState World) :
  steps_run max_retries (l1 ++ l2) st =
  (st1 <- steps_run max_retries l1 st ;; steps_run max_retries l2 st1).
Proof.
  revert st. induction l1 as [|id l1 IH]; intros st; simpl; auto.
  destruct (step1 max_retries st id); simpl; auto.
Qed.

Lemma run_steps_frame (max_retries : Z) (order : list Z) :
  forall (st st' : PlanState World) (other : Z),
  steps_run max_retries order st = Ok st' -> ~ In other order ->
  find_step other (ps_steps st') = find_step other (ps_steps st) /\
  records_of other (execution_history (ps_exec st')) =
    records_of other (execution_history (ps_exec st)) /\
  statuses_of other (trace (ps_exec st')) =
    statuses_of other (trace (ps_exec st)) /\
  invocations_of other (trace (ps_exec st')) =
    invocations_of other (trace (ps_exec st)) /\
  PyDict.get other (ps_results st') = PyDict.get other (ps_results st).
Proof.
  induction order as [|id order IH]; intros st st' other Hrun Hnot; simpl in *.
  - injection Hrun as <-. auto.
  - destruct (step1 max_retries st id) as [st1| |] eqn:H1; try discriminate.
    simpl in Hrun.
    destruct (run_step_frame _ _ _ _ other H1) as (F1 & F2 & F3 & F4 & F5);
      [intuition|].
    destruct (IH _ _ other Hrun) as (G1 & G2 & G3 & G4 & G5); [intuition|].
    repeat split; congruence.
Qed.

Lemma run_step_static (max_retries : Z) (st st' : PlanState World) (id : Z) :
  step1 max_retries st id = Ok st' ->
  map static (ps_steps st') = map static (ps_steps st).
Proof.
  intros Hrun.
  destruct (run_step_effect _ _ _ _ Hrun)
    as (step & step' & atts & evs & r & Hf & Hsteps & Hs & _).
  pose proof (find_step_Some _ _ _ Hf) as [_ Hid].
  destruct (static_fields _ _ Hs) as (Hid' & _).
  rewrite Hsteps. apply static_store with (q := step); auto.
  now rewrite Hid', Hid.
Qed.

Lemma run_steps_static (max_retries : Z) (order : list Z) :
  forall (st st' : PlanState World),
  steps_run max_retries order st = Ok st' ->
  map static (ps_steps st') = map static (ps_steps st).
Proof.
  induction order as [|id order IH]; intros st st' Hrun; simpl in *.
  - now injection Hrun as <-.
  - destruct (step1 max_retries st id) as [st1| |] eqn:H1; try discriminate.
    simpl in Hrun. rewrite (IH _ _ Hrun). eapply run_step_static; eauto.
Qed.

(** With a non-negative [max_retries], a turn for a step of the plan
    returns. *)
Lemma run_step_total (max_retries : Z) (st : PlanState World) (id : Z) :
  0 <= max_retries -> In id (step_ids (ps_steps st)) ->
  exists st', step1 max_retries st id = Ok st'.
Proof.
  intros Hmr Hin. apply find_step_In in Hin as [step Hf].
  destruct (_dependencies_satisfied step (ps_steps st)) eqn:Hd.
  - destruct (run_step_attempted max_retries st id step Hf Hd)
      as (atts & step' & ex' & Hr & Hnil & _).
    rewrite Hr. destruct atts as [|a atts]; eauto.
    destruct Hnil as [Hnil _]. specialize (Hnil eq_refl). lia.
  - rewrite (run_step_gated max_retries st id step Hf Hd). eauto.
Qed.

Lemma run_steps_total (max_retries : Z) (order : list Z) :
  forall st : PlanState World,
  0 <= max_retries -> incl order (step_ids (ps_steps st)) ->
  exists st', steps_run max_retries order st = Ok st'.
Proof.
  induction order as [|id order IH]; intros st Hmr Hincl; simpl; eauto.
  destruct (run_step_total max_retries st id Hmr) as [st1 H1].
  { apply Hincl. now left. }
  rewrite H1. simpl. apply IH; auto.
  rewrite (step_ids_static _ _ (run_step_static _ _ _ _ H1)).
  intros x Hx. apply Hincl. now right.
Qed.

End ExecutorFacts.

(** ** The execution order *)

Section Ordering.
Import PyDict PyDictFacts.

Lemma set_absent {V : Type} (k : Z) (v : V) (d : dict Z V) :
  ~ In k (keys d) -> set k v d = (d ++ [(k, v)])%list.
Proof.
  unfold keys. induction d as [|[k' v'] d IH]; simpl; auto.
  intros Hnot. destruct (Z.eqb_spec k k') as [->|Hn]; [tauto|].
  f_equal. apply IH. tauto.
Qed.

Lemma build_graph_acc (steps : list PlanStep) :
  forall acc : dict Z (list Z),
  NoDup (keys acc ++ step_ids steps) ->
  fold_left (fun g s => set (step_id s) (dependencies s) g) steps acc =
  (acc ++ map (fun s => (step_id s, dependencies s)) steps)%list.
Proof.
  induction steps as [|s steps IH]; intros acc Hnd; simpl.
  - now rewrite app_nil_r.
  - rewrite set_absent.
    + rewrite IH.
      * now rewrite <- app_assoc.
      * unfold keys in *. rewrite map_app. simpl. rewrite <- app_assoc. exact Hnd.
    + simpl in Hnd. apply NoDup_remove_2 in Hnd. intros Hin. apply Hnd.
      apply in_or_app. now left.
Qed.

(** With unique identifiers the graph lists the steps in their order. *)
Lemma build_graph_unique (steps : list PlanStep) :
  NoDup (step_ids steps) ->
  build_graph steps = map (fun s => (step_id s, dependencies s)) steps.
Proof. intros Hnd. unfold build_graph. now rewrite build_graph_acc. Qed.

Lemma keys_build_graph (steps : list PlanStep) :
  NoDup (step_ids steps) -> keys (build_graph steps) = step_ids steps.
Proof.
  intros Hnd. rewrite build_graph_unique by assumption.
  unfold keys, step_ids. now rewrite map_map.
Qed.

Lemma keys_bump (k delta : Z) (d : dict Z Z) : keys (bump k delta d) = keys d.
Proof.
  unfold bump. destruct (get k d) eqn:E; auto.
  apply keys_set_present. apply mem_In. unfold mem. now rewrite E.
Qed.

Lemma get_bump_same (k delta : Z) (d : dict Z Z) :
  get k (bump k delta d) = option_map (fun n => n + delta) (get k d).
Proof.
  unfold bump. destruct (get k d) eqn:E; simpl; [apply get_set_eq | exact E].
Qed.

Lemma get_bump_other (k k' delta : Z) (d : dict Z Z) :
  k <> k' -> get k' (bump k delta d) = get k' d.
Proof.
  intros Hn. unfold bump. destruct (get k d); auto. now apply get_set_neq.
Qed.

Lemma keys_zeroed {V : Type} (g : dict Z V) :
  forall acc : dict Z Z,
  NoDup (keys acc ++ keys g) ->
  keys (fold_left (fun d kv => set (fst kv) 0 d) g acc) = (keys acc ++ keys g)%list.
Proof.
  induction g as [|[k v] g IH]; intros acc Hnd; simpl.
  - now rewrite app_nil_r.
  - rewrite IH.
    + rewrite keys_set_absent.
      * now rewrite <- app_assoc.
      * apply NoDup_remove_2 in Hnd. intros Hin. apply Hnd.
        apply in_or_app. now left.
    + rewrite keys_set_absent.
      * rewrite <- app_assoc. exact Hnd.
      * apply NoDup_remove_2 in Hnd. intros Hin. apply Hnd.
        apply in_or_app. now left.
Qed.

Lemma keys_count_deps (g : dict Z (list Z)) :
  forall d : dict Z Z,
  keys (fold_left
          (fun in_degree (kv : Z * list Z) =>
             fold_left
               (fun in_degree dep =>
                  if mem dep in_degree then bump (fst kv) 1 in_degree
                  else in_degree)
               (snd kv) in_degree)
          g d) = keys d.
Proof.
  induction g as [|[k deps] g IH]; intros d; simpl; auto.
  rewrite IH. clear IH. revert d.
  induction deps as [|dep deps IHd]; intros d; simpl; auto.
  rewrite IHd. destruct (mem dep d); auto. apply keys_bump.
Qed.

Lemma keys_init_in_degree (g : dict Z (list Z)) :
  NoDup (keys g) -> keys (init_in_degree g) = keys g.
Proof.
  intros Hnd. unfold init_in_degree.
  rewrite keys_count_deps. now rewrite keys_zeroed.
Qed.

(** *** The queue holds no identifier twice, and the loop ends *)

Lemma get_of_filter_zero (d : dict Z Z) (x : Z) :
  NoDup (keys d) ->
  In x (map fst (filter (fun kv : Z * Z => snd kv =? 0) d)) ->
  get x d = Some 0.
Proof.
  unfold keys. induction d as [|[k v] d IH]; simpl; [tauto|].
  intros Hnd Hin. inversion Hnd as [|? ? Hnot Hnd']; subst.
  destruct (Z.eqb_spec x k) as [->|Hn].
  - destruct (Z.eqb_spec v 0) as [->|Hv]; auto.
    elim Hnot. apply in_map_iff in Hin as [[k' v'] [E Hin]].
    apply filter_In in Hin as [Hin _]. simpl in E. subst.
    apply in_map_iff. exists (k, v'). auto.
  - apply IH; auto. destruct (v =? 0); auto.
    simpl in Hin. destruct Hin; [congruence|auto].
Qed.

Lemma NoDup_map_fst_filter {V : Type} (f : Z * V -> bool) (d : dict Z V) :
  NoDup (keys d) -> NoDup (map fst (filter f d)).
Proof.
  unfold keys. induction d as [|[k v] d IH]; simpl; intros Hnd; [constructor|].
  inversion Hnd as [|? ? Hnot Hnd']; subst.
  destruct (f (k, v)); simpl; auto.
  constructor; auto. intros Hin. apply Hnot.
  apply in_map_iff in Hin as [[k' v'] [E Hin]]. apply filter_In in Hin as [Hin _].
  simpl in E. subst. apply in_map_iff. exists (k, v'). auto.
Qed.

Lemma kahn_inv_init (d : dict Z Z) :
  NoDup (keys d) ->
  kahn_inv (keys d) d (map fst (filter (fun kv : Z * Z => snd kv =? 0) d)) [].
Proof.
  intros Hnd. unfold kahn_inv. simpl.
  split; [reflexivity|]. split; [now apply NoDup_map_fst_filter|]. split.
  - intros x Hx. apply in_map_iff in Hx as [[k v] [E Hin]].
    apply filter_In in Hin as [Hin _]. simpl in E. subst.
    unfold keys. apply in_map_iff. exists (x, v). auto.
  - intros x Hx. exists 0. split; [now apply get_of_filter_zero | lia].
Qed.

(** One pass of [relax] keeps the invariant, for the order the popped
    identifier has joined. *)
Lemma relax_inv (ks : list Z) (s : Z) (order : list Z)
  (graph : dict Z (list Z)) :
  incl (keys graph) ks ->
  forall (deg : dict Z Z) (queue : list Z),
  kahn_inv ks deg queue order ->
  kahn_inv ks (fst (relax s graph (deg, queue)))
              (snd (relax s graph (deg, queue))) order.
Proof.
  unfold relax. induction graph as [|[other deps] graph IH];
    intros Hks deg queue Hinv; simpl; auto.
  assert (Hks' : incl (keys graph) ks).
  { intros x Hx. apply Hks. now right. }
  assert (Hother : In other ks) by (apply Hks; now left).
  destruct (mem_list s deps); [|now apply IH].
  destruct Hinv as (Hkeys & Hnd & Hincl & Hdeg).
  assert (Hvals : forall x, In x (order ++ queue) ->
            exists n, get x (bump other (-1) deg) = Some n /\ n <= 0).
  { intros x Hx. destruct (Hdeg x Hx) as (n & Hn & Hle).
    destruct (Z.eq_dec other x) as [->|Hne].
    - exists (n + -1). rewrite get_bump_same, Hn. simpl. split; auto. lia.
    - exists n. rewrite get_bump_other; auto. }
  assert (Hkeep : kahn_inv ks (bump other (-1) deg) queue order).
  { unfold kahn_inv. rewrite keys_bump. auto. }
  assert (Hpush : get other (bump other (-1) deg) = Some 0 ->
            kahn_inv ks (bump other (-1) deg) (queue ++ [other]) order).
  { intros Hzero. unfold kahn_inv. rewrite keys_bump.
    assert (Hnew : ~ In other (order ++ queue)).
    { intros Hin. destruct (Hdeg other Hin) as (n & Hn & Hle).
      rewrite get_bump_same, Hn in Hzero. simpl in Hzero.
      injection Hzero as Hp. lia. }
    rewrite app_assoc.
    split; [assumption|]. split; [|split].
    - apply Permutation_NoDup with (l := other :: (order ++ queue)).
      + apply Permutation_cons_append.
      + constructor; auto.
    - intros x Hx. apply in_app_or in Hx as [Hx|[<-|[]]]; auto.
    - intros x Hx. apply in_app_or in Hx as [Hx|[<-|[]]]; auto.
      exists 0. split; [assumption|lia]. }
  destruct (get other (bump other (-1) deg)) as [[|n|n]|] eqn:E;
    apply IH; auto.
Qed.

Lemma relax_inv_pop (ks : list Z) (s : Z) (order queue : list Z)
  (graph : dict Z (list Z)) (deg : dict Z Z) :
  incl (keys graph) ks ->
  kahn_inv ks deg (s :: queue) order ->
  kahn_inv ks (fst (relax s graph (deg, queue)))
              (snd (relax s graph (deg, queue))) (order ++ [s]).
Proof.
  intros Hks (Hkeys & Hnd & Hincl & Hdeg). apply relax_inv; auto.
  unfold kahn_inv. rewrite <- app_assoc. simpl. auto.
Qed.

(** The loop returns, with an order that holds no identifier twice. *)
Lemma kahn_loop_returns (graph : dict Z (list Z)) (ks : list Z) (fuel : nat) :
  incl (keys graph) ks ->
  forall (deg : dict Z Z) (queue order : list Z),
  kahn_inv ks deg queue order ->
  (List.length order + fuel = List.length ks)%nat ->
  exists order' deg',
    kahn_loop fuel graph deg queue order = Ok order' /\
    kahn_inv ks deg' [] order' /\
    exists tail, order' = (order ++ tail)%list.
Proof.
  intros Hks. induction fuel as [|fuel IH]; intros deg queue order Hinv Hlen.
  - destruct queue as [|s queue].
    + exists order, deg. simpl. split; [reflexivity|]. split; [assumption|].
      exists []. now rewrite app_nil_r.
    + exfalso. destruct Hinv as (_ & Hnd & Hincl & _).
      pose proof (NoDup_incl_length Hnd Hincl) as Hl.
      rewrite length_app in Hl. simpl in Hl. lia.
  - destruct queue as [|s queue].
    + exists order, deg. simpl. split; [reflexivity|]. split; [assumption|].
      exists []. now rewrite app_nil_r.
    + cbn [kahn_loop].
      pose proof (relax_inv_pop ks s order queue graph deg Hks Hinv) as Hinv'.
      destruct (relax s graph (deg, queue)) as [deg1 queue1]. simpl in Hinv'.
      destruct (IH deg1 queue1 (order ++ [s])%list Hinv')
        as (order' & deg' & Hrun & Hfin & tail & Htail).
      { rewrite length_app. simpl. lia. }
      exists order', deg'. split; [assumption|]. split; [assumption|].
      exists (s :: tail). rewrite Htail. now rewrite <- app_assoc.
Qed.

End Ordering.

Section OrderingResult.
Import PyDict PyDictFacts.

Lemma NoDup_app_disjoint {A : Type} (l1 l2 : list A) :
  NoDup l1 -> NoDup l2 -> (forall x, In x l1 -> ~ In x l2) -> NoDup (l1 ++ l2).
Proof.
  induction l1 as [|a l1 IH]; simpl; intros H1 H2 Hd; auto.
  inversion H1; subst. constructor.
  - intros Hin. apply in_app_or in Hin as [Hin|Hin]; [auto|].
    apply (Hd a); auto.
  - apply IH; auto.
Qed.

(** The identifiers the queue did not reach, added after those it reached,
    make the order a rearrangement of the plan's identifiers. *)
Lemma order_with_remaining (kahn ids : list Z) :
  NoDup kahn -> incl kahn ids -> NoDup ids ->
  let order := (kahn ++ filter (fun id => negb (mem_list id kahn)) ids)%list in
  NoDup order /\ Permutation order ids.
Proof.
  intros Hk Hincl Hids order.
  assert (Hnd : NoDup order).
  { apply NoDup_app_disjoint; auto.
    - now apply NoDup_filter.
    - intros x Hx Hf. apply filter_In in Hf as [_ Hf].
      apply negb_true_iff, mem_list_false in Hf. auto. }
  split; auto. apply NoDup_Permutation; auto.
  intros x. unfold order. rewrite in_app_iff, filter_In. split.
  - intros [Hx|[Hx _]]; auto.
  - intros Hx. destruct (mem_list x kahn) eqn:E.
    + left. now apply mem_list_In.
    + right. split; auto.
Qed.

(** For a plan with unique identifiers [_resolve_dependencies] returns: the
    identifiers the queue reached, without repetition, then the others in the
    order of the plan. *)
Lemma resolve_dependencies_returns (steps : list PlanStep) :
  NoDup (step_ids steps) ->
  exists kahn,
    kahn_order steps = Ok kahn /\
    NoDup kahn /\ incl kahn (step_ids steps) /\
    _resolve_dependencies steps =
      Ok (kahn ++ filter (fun id => negb (mem_list id kahn)) (step_ids steps))%list.
Proof.
  intros Hnd. unfold _resolve_dependencies, kahn_order.
  pose proof (keys_build_graph steps Hnd) as Hkeys.
  set (graph := build_graph steps) in *.
  assert (Hg : NoDup (keys graph)) by now rewrite Hkeys.
  pose proof (keys_init_in_degree graph Hg) as Hdeg.
  assert (Hd : NoDup (keys (init_in_degree graph))) by now rewrite Hdeg.
  pose proof (kahn_inv_init _ Hd) as Hinit. rewrite Hdeg in Hinit.
  destruct (kahn_loop_returns graph (keys graph) (List.length graph)
              (incl_refl _) _ _ _ Hinit)
    as (kahn & deg' & Hrun & (_ & Hk & Hincl & _) & _).
  { unfold keys. simpl. now rewrite length_map. }
  rewrite app_nil_r in Hk, Hincl. rewrite Hkeys in Hincl.
  exists kahn. rewrite Hrun. simpl. auto.
Qed.

End OrderingResult.

(** ** The executor: a whole plan *)

Section PlanFacts.
Import PyDict PyDictFacts.

Variable World : Type.
Variable execute_tool : string -> PyObj -> World -> ToolOutcome * World.
Variable py_str : Value -> string.

Local Notation Exec := (Executor World).
Local Notation step1 := (run_step World execute_tool py_str).
Local Notation steps_run := (run_steps World execute_tool py_str).
Local Notation exec_plan := (execute_plan World execute_tool py_str).

Lemma outcome_status_terminal (out : ToolOutcome) : terminal (outcome_status out).
Proof. unfold terminal, outcome_status. destruct (outcome_ok out); auto. Qed.

(** After its turn a step is completed or failed. *)
Lemma run_step_terminal (max_retries : Z) (st st' : PlanState World) (id : Z) :
  step1 max_retries st id = Ok st' ->
  exists p, find_step id (ps_steps st') = Some p /\ terminal (status p).
Proof.
  intros Hrun.
  destruct (find_step id (ps_steps st)) as [step|] eqn:Hf.
  2:{ rewrite run_step_not_found in Hrun; auto. discriminate. }
  pose proof (find_step_Some _ _ _ Hf) as [_ Hid].
  destruct (_dependencies_satisfied step (ps_steps st)) eqn:Hd.
  - destruct (run_step_attempted World execute_tool py_str max_retries st id
                step Hf Hd)
      as (atts & step' & ex' & Hr & _ & _ & _ & Hs & Hst & _).
    rewrite Hr in Hrun. destruct atts as [|a atts]; [discriminate|].
    injection Hrun as <-.
    destruct (static_fields _ _ Hs) as (Hid' & _).
    exists step'. unfold after_attempts. cbn [ps_steps]. split.
    + rewrite <- Hid, <- Hid'. apply find_store_same with (q := step).
      now rewrite Hid', Hid.
    + rewrite Hst by discriminate. apply outcome_status_terminal.
  - rewrite (run_step_gated World execute_tool py_str max_retries st id step
               Hf Hd) in Hrun.
    injection Hrun as <-. exists (set_status failed step).
    unfold after_gate. cbn [ps_steps]. split.
    + rewrite <- Hid.
      apply (find_store_same (set_status failed step) step). simpl.
      now rewrite Hid.
    + right. reflexivity.
Qed.

Lemma run_steps_terminal (max_retries : Z) (order : list Z) :
  forall st st' : PlanState World,
  NoDup order -> steps_run max_retries order st = Ok st' ->
  forall id, In id order ->
  exists p, find_step id (ps_steps st') = Some p /\ terminal (status p).
Proof.
  induction order as [|x order IH]; intros st st' Hnd Hrun id Hin;
    [contradiction|].
  simpl in Hrun.
  destruct (step1 max_retries st x) as [st1| |] eqn:H1; try discriminate.
  simpl in Hrun. inversion Hnd as [|? ? Hnot Hnd']; subst.
  destruct (Z.eq_dec x id) as [->|Hne].
  - destruct (run_step_terminal _ _ _ _ H1) as (p & Hp & Ht).
    destruct (run_steps_frame World execute_tool py_str _ _ _ _ id Hrun Hnot)
      as (F & _).
    exists p. now rewrite F.
  - apply (IH st1 st'); auto. destruct Hin; [congruence|auto].
Qed.

(** The results are filled in the order of execution. *)
Lemma run_steps_results_keys (max_retries : Z) (order : list Z) :
  forall st st' : PlanState World,
  NoDup (keys (ps_results st) ++ order) ->
  steps_run max_retries order st = Ok st' ->
  keys (ps_results st') = (keys (ps_results st) ++ order)%list.
Proof.
  induction order as [|x order IH]; intros st st' Hnd Hrun; simpl in Hrun.
  - injection Hrun as <-. now rewrite app_nil_r.
  - destruct (step1 max_retries st x) as [st1| |] eqn:H1; try discriminate.
    simpl in Hrun.
    destruct (run_step_effect World execute_tool py_str _ _ _ _ H1)
      as (step & step' & atts & evs & r & _ & _ & _ & _ & _ & _ & _ & Hres).
    assert (Hk : keys (ps_results st1) = (keys (ps_results st) ++ [x])%list).
    { rewrite Hres. apply keys_set_absent.
      apply NoDup_remove_2 in Hnd. intros Hin. apply Hnd.
      apply in_or_app. now left. }
    rewrite (IH st1 st'); auto.
    + rewrite Hk. now rewrite <- app_assoc.
    + rewrite Hk. rewrite <- app_assoc. exact Hnd.
Qed.

Lemma count_pending_zero (steps : list PlanStep) :
  Forall (fun p => terminal (status p)) steps ->
  count_status pending steps = 0%nat /\
  (count_status completed steps + count_status failed steps)%nat =
    List.length steps.
Proof.
  unfold count_status. induction 1 as [|p l [Hp|Hp] _ [IH1 IH2]]; simpl; auto;
    rewrite Hp; simpl; split; auto; lia.
Qed.

(** C4: for a plan with unique step identifiers, cyclic or not,
    [execute_plan] returns (for a non-negative [max_retries]).  The order it
    computes returns too: the identifiers that reached in-degree zero, then
    the others in the order of the plan; it holds every identifier of the plan
    exactly once.  The loop takes one turn for each entry of that order: the
    results are filled in that order, one per step, and no step is left
    pending. *)
Theorem execute_plan_attempts_every_step_once
  (ex : Exec) (steps : list PlanStep) (max_retries : Z) :
  NoDup (step_ids steps) -> 0 <= max_retries ->
  exists kahn order summary ex',
    kahn_order steps = Ok kahn /\
    _resolve_dependencies steps = Ok order /\
    order =
      (kahn ++ filter (fun id => negb (mem_list id kahn)) (step_ids steps))%list /\
    NoDup order /\ Permutation order (step_ids steps) /\
    exec_plan ex steps max_retries = Ok (summary, ex') /\
    keys (sum_results summary) = order /\
    sum_total_steps summary = List.length steps /\
    sum_pending summary = 0%nat /\
    (sum_completed summary + sum_failed summary)%nat = List.length steps.
Proof.
  intros Hnd Hmr.
  destruct (resolve_dependencies_returns steps Hnd)
    as (kahn & Hk & Hkn & Hki & Hres).
  destruct (order_with_remaining kahn (step_ids steps) Hkn Hki Hnd)
    as (Hond & Hperm).
  set (order := (kahn ++ _)%list) in *.
  set (st0 := mkPlanState steps [] [] ex).
  destruct (run_steps_total World execute_tool py_str max_retries order st0 Hmr)
    as [st' Hrun].
  { intros x Hx. apply (Permutation_in _ Hperm Hx). }
  exists kahn, order, (_generate_summary World (ps_exec st') (ps_steps st')
                         (ps_results st')), (ps_exec st').
  assert (Hstatic := run_steps_static World execute_tool py_str _ _ _ _ Hrun).
  assert (Hids : step_ids (ps_steps st') = step_ids steps)
    by apply (step_ids_static _ _ Hstatic).
  assert (Hterm : Forall (fun p => terminal (status p)) (ps_steps st')).
  { apply Forall_forall. intros p Hp.
    assert (Hin : In (step_id p) order).
    { apply (Permutation_in _ (Permutation_sym Hperm)).
      rewrite <- Hids. unfold step_ids. now apply in_map. }
    destruct (run_steps_terminal _ _ _ _ Hond Hrun _ Hin) as (q & Hq & Ht).
    rewrite find_step_NoDup in Hq; [|now rewrite Hids|assumption].
    now injection Hq as <-. }
  destruct (count_pending_zero _ Hterm) as [Hp0 Hsum].
  assert (Hlen : List.length (ps_steps st') = List.length steps).
  { unfold step_ids in Hids.
    rewrite <- (length_map step_id (ps_steps st')), Hids. apply length_map. }
  rewrite Hlen in Hsum.
  split; [assumption|]. split; [assumption|]. split; [reflexivity|].
  split; [assumption|]. split; [assumption|]. split.
  { unfold execute_plan. rewrite Hres. cbn [bind]. fold order. fold st0.
    rewrite Hrun. reflexivity. }
  cbn [_generate_summary sum_results sum_total_steps sum_pending sum_completed
       sum_failed].
  split; [|split; [|split; assumption]].
  - apply (run_steps_results_keys max_retries order st0 st'); auto.
  - assumption.
Qed.

(** *** A step within the run of a plan *)

Lemma run_steps_at (max_retries : Z) (pre post : list Z) (id : Z)
  (st st' : PlanState World) :
  steps_run max_retries (pre ++ id :: post) st = Ok st' ->
  exists st1 st2,
    steps_run max_retries pre st = Ok st1 /\
    step1 max_retries st1 id = Ok st2 /\
    steps_run max_retries post st2 = Ok st'.
Proof.
  rewrite (run_steps_app World execute_tool py_str).
  destruct (steps_run max_retries pre st) as [st1| |]; simpl; try discriminate.
  destruct (step1 max_retries st1 id) as [st2| |] eqn:H2; simpl;
    try discriminate.
  intros H3. exists st1, st2. auto.
Qed.

Lemma execute_plan_inv (ex ex' : Exec) (steps : list PlanStep)
  (max_retries : Z) (summary : Summary) :
  exec_plan ex steps max_retries = Ok (summary, ex') ->
  exists order st',
    _resolve_dependencies steps = Ok order /\
    steps_run max_retries order (mkPlanState steps [] [] ex) = Ok st' /\
    summary = _generate_summary World (ps_exec st') (ps_steps st')
                                (ps_results st') /\
    ex' = ps_exec st'.
Proof.
  unfold execute_plan.
  destruct (_resolve_dependencies steps) as [order| |]; simpl; try discriminate.
  destruct (steps_run max_retries order _) as [st'| |] eqn:Hrun; simpl;
    try discriminate.
  intros E. injection E as <- <-. exists order, st'. auto.
Qed.

Lemma resolve_dependencies_NoDup (steps : list PlanStep) (order : list Z) :
  NoDup (step_ids steps) -> _resolve_dependencies steps = Ok order ->
  NoDup order /\ Permutation order (step_ids steps).
Proof.
  intros Hnd Hres.
  destruct (resolve_dependencies_returns steps Hnd)
    as (kahn & Hk & Hkn & Hki & Hres').
  rewrite Hres' in Hres. injection Hres as <-.
  now apply order_with_remaining.
Qed.

(** The run of a plan seen from one of its steps: the turns before it, its
    own turn, the turns after it; the others leave it alone. *)
Lemma execute_plan_at (ex ex' : Exec) (steps : list PlanStep)
  (max_retries : Z) (summary : Summary) (id : Z) (st : PlanState World) :
  NoDup (step_ids steps) ->
  exec_plan ex steps max_retries = Ok (summary, ex') ->
  reached execute_tool py_str ex steps max_retries id st ->
  exists pre post st2 st',
    ~ In id pre /\ ~ In id post /\
    steps_run max_retries pre (mkPlanState steps [] [] ex) = Ok st /\
    step1 max_retries st id = Ok st2 /\
    steps_run max_retries post st2 = Ok st' /\
    summary = _generate_summary World (ps_exec st') (ps_steps st')
                                (ps_results st') /\
    ex' = ps_exec st'.
Proof.
  intros Hnd Hexec (order & pre & post & Hres & -> & Hpre).
  destruct (execute_plan_inv _ _ _ _ _ Hexec)
    as (order' & st' & Hres' & Hrun & Hsum & Hex).
  rewrite Hres in Hres'. injection Hres' as <-.
  destruct (resolve_dependencies_NoDup _ _ Hnd Hres) as [Hond _].
  destruct (run_steps_at _ _ _ _ _ _ Hrun) as (st1 & st2 & H1 & H2 & H3).
  rewrite Hpre in H1. injection H1 as <-.
  exists pre, post, st2, st'.
  pose proof (NoDup_remove_2 _ _ _ Hond) as Hnot.
  repeat split; auto; intros Hin; apply Hnot; apply in_or_app; auto.
Qed.

Lemma last_In {A : Type} (l : list A) (d : A) : l <> [] -> In (last l d) l.
Proof.
  induction l as [|a [|b l] IH]; intros Hne; [congruence|now left|].
  right. apply IH. discriminate.
Qed.

Lemma invocations_of_attempt_events (step : PlanStep) (atts : list Attempt) :
  invocations_of (step_id step) (flat_map (attempt_events step) atts) =
  map (fun a : Attempt => EvInvoke (step_id step) (tool step) (fst a) (snd a))
      atts.
Proof.
  induction atts as [|a l IH]; simpl; auto.
  rewrite Z.eqb_refl. now rewrite IH.
Qed.

(** C1: a step that is reached with its dependencies satisfied is attempted
    at least once and at most [1 + max_retries] times: the run adds that many
    history records and tool calls for it, each attempt a call of the step's
    tool.  Every attempt but the last failed, so no attempt follows a
    successful one.  When the last attempt failed too, that is, when the
    tool failed on every attempt of the run, the attempts are exactly
    [1 + max_retries]; the retries stop short of that only on a success.  In
    particular the attempts are exactly [1 + max_retries] for a tool that
    never succeeds. *)
Theorem retry_bound
  (ex ex' : Exec) (steps : list PlanStep) (max_retries : Z)
  (summary : Summary) (id : Z) (st : PlanState World) (step : PlanStep) :
  NoDup (step_ids steps) ->
  exec_plan ex steps max_retries = Ok (summary, ex') ->
  reached execute_tool py_str ex steps max_retries id st ->
  find_step id (ps_steps st) = Some step ->
  _dependencies_satisfied step (ps_steps st) = true ->
  exists atts : list Attempt,
    records_of id (sum_execution_history summary) =
      (records_of id (execution_history ex) ++ map (attempt_record step) atts)%list /\
    invocations_of id (trace ex') =
      (invocations_of id (trace ex) ++
       map (fun a : Attempt => EvInvoke id (tool step) (fst a) (snd a)) atts)%list /\
    1 <= Z.of_nat (List.length atts) <= 1 + max_retries /\
    all_failed (removelast atts) /\
    Forall (fun a : Attempt =>
              exists w, snd a = fst (execute_tool (tool step) (fst a) w)) atts /\
    (outcome_ok (last_outcome atts) = false ->
     Z.of_nat (List.length atts) = 1 + max_retries) /\
    (all_failed atts -> Z.of_nat (List.length atts) = 1 + max_retries) /\
    (Z.of_nat (List.length atts) < 1 + max_retries ->
     outcome_ok (last_outcome atts) = true) /\
    (always_fails execute_tool (tool step) ->
     Z.of_nat (List.length atts) = 1 + max_retries).
Proof.
  intros Hnd Hexec Hreach Hf Hd.
  destruct (execute_plan_at _ _ _ _ _ _ _ Hnd Hexec Hreach)
    as (pre & post & st2 & st' & Hpre & Hpost & Hrun1 & Hrun2 & Hrun3 & -> & ->).
  destruct (run_steps_frame World execute_tool py_str _ _ _ _ id Hrun1 Hpre)
    as (_ & F2 & _ & F4 & _).
  destruct (run_steps_frame World execute_tool py_str _ _ _ _ id Hrun3 Hpost)
    as (_ & G2 & _ & G4 & _).
  cbn [ps_exec execution_history trace] in F2, F4.
  destruct (run_step_attempted World execute_tool py_str max_retries st id
              step Hf Hd)
    as (atts & step' & ex2 & Hr & Hnil & Hh & Ht & Hs & Hst & Hfail & Hle
        & Hall & Htool).
  rewrite Hr in Hrun2. destruct atts as [|a atts]; [discriminate|].
  injection Hrun2 as <-.
  unfold after_attempts in G2, G4. cbn [ps_exec] in G2, G4.
  pose proof (find_step_Some _ _ _ Hf) as [_ Hid].
  assert (Hmr : 0 <= max_retries).
  { destruct (Z_lt_le_dec max_retries 0) as [Hneg|]; auto.
    apply Hnil in Hneg. discriminate. }
  assert (Hin : In (last (a :: atts) ([], Raised "")) (a :: atts))
    by (apply last_In; discriminate).
  assert (Hexact : outcome_ok (last_outcome (a :: atts)) = false ->
                   Z.of_nat (List.length (a :: atts)) = 1 + max_retries).
  { intros Hlast. rewrite (Hall Hlast). lia. }
  exists (a :: atts). cbn [_generate_summary sum_execution_history].
  split; [|split; [|split; [|split; [|split; [|split; [|split; [|split]]]]]]].
  - rewrite G2, Hh, records_of_app, F2. f_equal.
    rewrite <- Hid. apply records_of_same.
  - rewrite G4, Ht, invocations_of_app, F4. f_equal.
    rewrite <- Hid. apply invocations_of_attempt_events.
  - simpl List.length in *. lia.
  - assumption.
  - assumption.
  - exact Hexact.
  - intros Hfailed. apply Hexact. unfold all_failed in Hfailed.
    rewrite Forall_forall in Hfailed. unfold last_outcome.
    now apply Hfailed.
  - intros Hshort.
    destruct (outcome_ok (last_outcome (a :: atts))) eqn:Hlast; auto.
    specialize (Hexact eq_refl). lia.
  - intros Hfails. apply Hexact. unfold last_outcome.
    rewrite Forall_forall in Htool.
    destruct (Htool _ Hin) as [w ->]. apply Hfails.
Qed.

Lemma dependencies_unsatisfied (step : PlanStep) (steps : list PlanStep) (d : Z) :
  In d (dependencies step) ->
  (find_step d steps = None \/
   exists q, find_step d steps = Some q /\ status q <> completed) ->
  _dependencies_satisfied step steps = false.
Proof.
  intros Hin Hbad. unfold _dependencies_satisfied.
  destruct (dependencies step) as [|d0 deps] eqn:E; [contradiction|].
  rewrite <- E in *. clear E.
  destruct (forallb _ (dependencies step)) eqn:Hall; auto.
  rewrite forallb_forall in Hall. specialize (Hall d Hin).
  destruct Hbad as [Hnone|(q & Hq & Hst)].
  - now rewrite Hnone in Hall.
  - rewrite Hq in Hall. destruct (status q); simpl in Hall; congruence.
Qed.

(** C2: a step that is reached while one of its dependencies names no step
    of the plan, or names a step that is not completed, ends the run failed,
    with the unsatisfied-dependency result, and the run adds no history
    record and no tool call for it. *)
Theorem dependency_gate
  (ex ex' : Exec) (steps : list PlanStep) (max_retries : Z)
  (summary : Summary) (id : Z) (st : PlanState World) (step : PlanStep) (d : Z) :
  NoDup (step_ids steps) ->
  exec_plan ex steps max_retries = Ok (summary, ex') ->
  reached execute_tool py_str ex steps max_retries id st ->
  find_step id (ps_steps st) = Some step ->
  In d (dependencies step) ->
  (~ In d (step_ids steps) \/
   exists q, find_step d (ps_steps st) = Some q /\ status q <> completed) ->
  (exists p, find_step id (sum_steps summary) = Some p /\ status p = failed /\
             static p = static step) /\
  get id (sum_results summary) = Some dependencies_error /\
  records_of id (sum_execution_history summary) =
    records_of id (execution_history ex) /\
  invocations_of id (trace ex') = invocations_of id (trace ex).
Proof.
  intros Hnd Hexec Hreach Hf Hin Hbad.
  destruct (execute_plan_at _ _ _ _ _ _ _ Hnd Hexec Hreach)
    as (pre & post & st2 & st' & Hpre & Hpost & Hrun1 & Hrun2 & Hrun3 & -> & ->).
  destruct (run_steps_frame World execute_tool py_str _ _ _ _ id Hrun1 Hpre)
    as (_ & F2 & _ & F4 & _).
  destruct (run_steps_frame World execute_tool py_str _ _ _ _ id Hrun3 Hpost)
    as (G1 & G2 & _ & G4 & G5).
  cbn [ps_exec execution_history trace] in F2, F4.
  assert (Hd : _dependencies_satisfied step (ps_steps st) = false).
  { apply dependencies_unsatisfied with (d := d); auto.
    destruct Hbad as [Hnot|Hq]; auto. left.
    destruct (find_step d (ps_steps st)) as [q|] eqn:E; auto.
    elim Hnot. apply find_step_Some in E as [Hq <-].
    pose proof (step_ids_static _ _
                  (run_steps_static World execute_tool py_str _ _ _ _ Hrun1))
      as Hids.
    cbn [ps_steps] in Hids. rewrite <- Hids.
    unfold step_ids. now apply in_map. }
  rewrite (run_step_gated World execute_tool py_str max_retries st id step Hf Hd)
    in Hrun2.
  injection Hrun2 as <-.
  pose proof (find_step_Some _ _ _ Hf) as [_ Hid].
  unfold after_gate in G1, G2, G4, G5.
  cbn [ps_steps ps_exec ps_results execution_history trace] in G1, G2, G4, G5.
  cbn [_generate_summary sum_steps sum_results sum_execution_history].
  split; [|split; [|split]].
  - exists (set_status failed step). rewrite G1. split; [|split; reflexivity].
    rewrite <- Hid.
    apply (find_store_same (set_status failed step) step). simpl.
    now rewrite Hid.
  - rewrite G5, Hid. apply get_set_eq.
  - now rewrite G2, F2.
  - rewrite G4, invocations_of_app, F4. simpl. now rewrite app_nil_r.
Qed.

(** *** Status transitions *)

Lemma statuses_of_attempt_events (step : PlanStep) (atts : list Attempt) :
  statuses_of (step_id step) (flat_map (attempt_events step) atts) =
  flat_map (fun a : Attempt => [in_progress; outcome_status (snd a)]) atts.
Proof.
  induction atts as [|a l IH]; simpl; auto.
  rewrite Z.eqb_refl. simpl. now rewrite IH.
Qed.

Lemma chain_attempts (atts : list Attempt) :
  all_failed (removelast atts) ->
  forall s0, s0 = pending \/ s0 = failed ->
  chain pass_transition
    (s0 :: flat_map (fun a : Attempt => [in_progress; outcome_status (snd a)])
                    atts) = true.
Proof.
  induction atts as [|a atts IH]; intros Hfail s0 Hs0; [reflexivity|].
  cbn [flat_map app chain].
  assert (H1 : pass_transition s0 in_progress = true)
    by (destruct Hs0; subst; reflexivity).
  rewrite H1. cbn [andb].
  destruct atts as [|b atts].
  - simpl. unfold outcome_status. destruct (outcome_ok (snd a)); reflexivity.
  - change (removelast (a :: b :: atts)) with (a :: removelast (b :: atts))
      in Hfail.
    inversion Hfail as [|? ? Ha Hrest]; subst.
    specialize (IH Hrest failed (or_intror eq_refl)).
    assert (Hsa : outcome_status (snd a) = failed)
      by (unfold outcome_status; now rewrite Ha).
    rewrite Hsa. cbn [flat_map app] in *. simpl pass_transition. cbn [andb].
    exact IH.
Qed.

Lemma last_attempt_status (atts : list Attempt) (d : Status) :
  atts <> [] ->
  last (flat_map (fun a : Attempt => [in_progress; outcome_status (snd a)]) atts)
       d = outcome_status (last_outcome atts).
Proof.
  induction atts as [|a [|b atts] IH]; intros Hne; [congruence|reflexivity|].
  rewrite last_outcome_cons. rewrite <- IH by discriminate. reflexivity.
Qed.

(** The statuses a turn assigns to its step: [failed] alone when the step's
    dependencies are not satisfied, otherwise [in_progress] and the attempt's
    status for each attempt; the step is left with the last of them. *)
Lemma run_step_statuses (max_retries : Z) (st st' : PlanState World) (id : Z)
  (step : PlanStep) :
  step1 max_retries st id = Ok st' ->
  find_step id (ps_steps st) = Some step ->
  exists (S : list Status) (p : PlanStep),
    statuses_of id (trace (ps_exec st')) =
      (statuses_of id (trace (ps_exec st)) ++ S)%list /\
    chain pass_transition (pending :: S) = true /\
    find_step id (ps_steps st') = Some p /\
    static p = static step /\
    status p = last S pending.
Proof.
  intros Hrun Hf.
  pose proof (find_step_Some _ _ _ Hf) as [_ Hid].
  destruct (_dependencies_satisfied step (ps_steps st)) eqn:Hd.
  - destruct (run_step_attempted World execute_tool py_str max_retries st id
                step Hf Hd)
      as (atts & step' & ex' & Hr & _ & _ & Ht & Hs & Hst & Hfail & _).
    rewrite Hr in Hrun. destruct atts as [|a atts]; [discriminate|].
    injection Hrun as <-.
    destruct (static_fields _ _ Hs) as (Hid' & _).
    exists (flat_map (fun a : Attempt => [in_progress; outcome_status (snd a)])
                     (a :: atts)), step'.
    unfold after_attempts. cbn [ps_exec ps_steps].
    split; [|split; [|split; [|split]]].
    + rewrite Ht, statuses_of_app. f_equal.
      rewrite <- Hid. apply statuses_of_attempt_events.
    + apply chain_attempts; auto.
    + rewrite <- Hid, <- Hid'. apply find_store_same with (q := step).
      now rewrite Hid', Hid.
    + assumption.
    + rewrite Hst by discriminate. symmetry. apply last_attempt_status.
      discriminate.
  - rewrite (run_step_gated World execute_tool py_str max_retries st id step
               Hf Hd) in Hrun.
    injection Hrun as <-.
    exists [failed], (set_status failed step).
    unfold after_gate. cbn [ps_exec ps_steps trace].
    split; [|split; [|split; [|split]]].
    + rewrite statuses_of_app. f_equal. simpl. rewrite Hid, Z.eqb_refl.
      reflexivity.
    + reflexivity.
    + rewrite <- Hid.
      apply (find_store_same (set_status failed step) step). simpl.
      now rewrite Hid.
    + reflexivity.
    + reflexivity.
Qed.

Lemma run_step_trace (max_retries : Z) (st st' : PlanState World) (id : Z) :
  step1 max_retries st id = Ok st' ->
  exists tr, trace (ps_exec st') = (trace (ps_exec st) ++ tr)%list.
Proof.
  intros Hrun.
  destruct (run_step_effect World execute_tool py_str _ _ _ _ Hrun)
    as (step & step' & atts & evs & r & _ & _ & _ & _ & Ht & _).
  eauto.
Qed.

Lemma run_steps_trace (max_retries : Z) (order : list Z) :
  forall st st' : PlanState World,
  steps_run max_retries order st = Ok st' ->
  exists tr, trace (ps_exec st') = (trace (ps_exec st) ++ tr)%list.
Proof.
  induction order as [|x order IH]; intros st st' Hrun; simpl in Hrun.
  - injection Hrun as <-. exists []. now rewrite app_nil_r.
  - destruct (step1 max_retries st x) as [st1| |] eqn:H1; try discriminate.
    simpl in Hrun.
    destruct (run_step_trace _ _ _ _ H1) as [tr1 E1].
    destruct (IH _ _ Hrun) as [tr2 E2].
    exists (tr1 ++ tr2)%list. rewrite E2, E1. now rewrite app_assoc.
Qed.

Lemma statuses_of_none (id : Z) (evs : list Event) :
  Forall (fun e => event_id e <> id) evs -> statuses_of id evs = [].
Proof.
  induction 1 as [|e l He _ IH]; simpl; auto.
  rewrite IH. destruct e as [i s|i t p o]; simpl in *; auto.
  replace (i =? id) with false by (symmetry; apply Z.eqb_neq; lia).
  reflexivity.
Qed.

(** The events of a run of the loop are events of the steps of its order. *)
Lemma run_steps_events (max_retries : Z) (order : list Z) :
  forall st st' : PlanState World,
  steps_run max_retries order st = Ok st' ->
  exists tr,
    trace (ps_exec st') = (trace (ps_exec st) ++ tr)%list /\
    Forall (fun e => In (event_id e) order) tr.
Proof.
  induction order as [|x order IH]; intros st st' Hrun; simpl in Hrun.
  - injection Hrun as <-. exists []. rewrite app_nil_r. split; auto.
  - destruct (step1 max_retries st x) as [st1| |] eqn:H1; try discriminate.
    simpl in Hrun.
    destruct (run_step_effect World execute_tool py_str _ _ _ _ H1)
      as (step & step' & atts & evs & r & _ & _ & _ & _ & Ht & Hev & _).
    destruct (IH _ _ Hrun) as (tr2 & E2 & Hall2).
    exists (evs ++ tr2)%list. split.
    + rewrite E2, Ht. now rewrite app_assoc.
    + apply Forall_app. split.
      * eapply Forall_impl; [|exact Hev]. intros e <-. now left.
      * eapply Forall_impl; [|exact Hall2]. intros e He. now right.
Qed.

(** The events of a turn: the one assignment of [failed] for a step whose
    dependencies are not satisfied, the events of its attempts otherwise. *)
Lemma run_step_own_events (max_retries : Z) (st st' : PlanState World)
  (id : Z) (step : PlanStep) :
  step1 max_retries st id = Ok st' ->
  find_step id (ps_steps st) = Some step ->
  exists own,
    trace (ps_exec st') = (trace (ps_exec st) ++ own)%list /\
    ((own = [EvStatus id failed] /\ statuses_of id own = [failed]) \/
     (exists atts : list Attempt,
        own = flat_map (attempt_events step) atts /\
        statuses_of id own = attempt_statuses atts /\
        1 <= Z.of_nat (List.length atts) <= 1 + max_retries /\
        all_failed (removelast atts))).
Proof.
  intros Hrun Hf.
  pose proof (find_step_Some _ _ _ Hf) as [_ Hid].
  destruct (_dependencies_satisfied step (ps_steps st)) eqn:Hd.
  - destruct (run_step_attempted World execute_tool py_str max_retries st id
                step Hf Hd)
      as (atts & step' & ex' & Hr & _ & _ & Ht & _ & _ & Hfail & Hle & _).
    rewrite Hr in Hrun. destruct atts as [|a atts]; [discriminate|].
    injection Hrun as <-. unfold after_attempts. cbn [ps_exec].
    exists (flat_map (attempt_events step) (a :: atts)).
    split; [exact Ht|]. right. exists (a :: atts).
    split; [reflexivity|]. split; [|split; [|exact Hfail]].
    + rewrite <- Hid. apply statuses_of_attempt_events.
    + simpl List.length in *. lia.
  - rewrite (run_step_gated World execute_tool py_str max_retries st id step
               Hf Hd) in Hrun.
    injection Hrun as <-. unfold after_gate. cbn [ps_exec trace].
    exists [EvStatus id failed]. rewrite Hid. split; [reflexivity|]. left.
    split; [reflexivity|]. simpl. now rewrite Z.eqb_refl.
Qed.

(** C8, as the code has it: in one [execute_plan] call on a plan with unique
    identifiers, the statuses assigned to a step, from the status it starts
    with -- [pending], for the steps of a fresh plan -- follow only the
    transitions pending -> in_progress, in_progress -> completed,
    in_progress -> failed, and the two the specification leaves out:
    pending -> failed, when the step's dependencies are not satisfied, and
    failed -> in_progress, when the step is retried.  No transition leaves
    [completed].  The step ends the call with the last status assigned.
    The statuses of a step are all assigned in its own turn of the loop:
    a step whose dependencies are not satisfied is assigned [failed] once
    and is never in progress; any other step is in progress and then
    completed or failed once for each of its attempts, of which there are
    at most [1 + max_retries] and of which only the last can succeed, so
    that [failed] is left only by a retry within the turn, and nothing is
    assigned to the step once its turn is over. *)
Theorem status_transitions_in_pass
  (ex ex' : Exec) (steps : list PlanStep) (max_retries : Z) (summary : Summary) :
  NoDup (step_ids steps) ->
  Forall (fun p => status p = pending) steps ->
  exec_plan ex steps max_retries = Ok (summary, ex') ->
  exists tr,
    trace ex' = (trace ex ++ tr)%list /\
    (forall s, pass_transition completed s = false) /\
    forall p0, In p0 steps ->
      chain pass_transition (status p0 :: statuses_of (step_id p0) tr) = true /\
      (exists p, find_step (step_id p0) (sum_steps summary) = Some p /\
                 static p = static p0 /\
                 status p = last (statuses_of (step_id p0) tr) (status p0)) /\
      single_turn max_retries p0 tr.
Proof.
  intros Hnd Hpend Hexec.
  destruct (execute_plan_inv _ _ _ _ _ Hexec)
    as (order & st' & Hres & Hrun & -> & ->).
  destruct (resolve_dependencies_NoDup _ _ Hnd Hres) as [Hond Hperm].
  destruct (run_steps_trace _ _ _ _ Hrun) as [tr Htr]. cbn [ps_exec trace] in Htr.
  exists tr. split; [assumption|]. split; [intros []; reflexivity|].
  intros p0 Hp0. set (id := step_id p0).
  assert (Hin : In id order).
  { apply (Permutation_in _ (Permutation_sym Hperm)).
    unfold step_ids. now apply in_map. }
  apply in_split in Hin as (pre & post & ->).
  destruct (run_steps_at _ _ _ _ _ _ Hrun) as (st1 & st2 & H1 & H2 & H3).
  pose proof (NoDup_remove_2 _ _ _ Hond) as Hnot.
  assert (Hpre : ~ In id pre) by (intros H; apply Hnot, in_or_app; auto).
  assert (Hpost : ~ In id post) by (intros H; apply Hnot, in_or_app; auto).
  destruct (run_steps_frame World execute_tool py_str _ _ _ _ id H1 Hpre)
    as (F1 & _ & F3 & _).
  destruct (run_steps_frame World execute_tool py_str _ _ _ _ id H3 Hpost)
    as (G1 & _ & G3 & _).
  cbn [ps_steps ps_exec trace] in F1, F3.
  pose proof (find_step_NoDup steps p0 Hnd Hp0) as Hfp. fold id in Hfp.
  rewrite Hfp in F1.
  rewrite Forall_forall in Hpend. pose proof (Hpend p0 Hp0) as Hst0.
  destruct (run_step_statuses max_retries st1 st2 id p0 H2 F1)
    as (S & p & HS & Hchain & Hfind & Hstat & Hlast).
  assert (E : statuses_of id tr = S).
  { rewrite Htr, statuses_of_app, HS, F3 in G3.
    now apply app_inv_head in G3. }
  rewrite E, Hst0. split; [assumption|]. split.
  { exists p. cbn [_generate_summary sum_steps]. rewrite G1. auto. }
  (* the events of the step stand together, in its own turn *)
  destruct (run_steps_events _ _ _ _ H1) as (before & Eb & Hb).
  destruct (run_step_own_events _ _ _ _ _ H2 F1) as (own & Eo & Hown).
  destruct (run_steps_events _ _ _ _ H3) as (after & Ea & Ha).
  cbn [ps_exec trace] in Eb.
  assert (Etr : tr = (before ++ own ++ after)%list).
  { rewrite Htr, Eo, Eb in Ea. rewrite <- !app_assoc in Ea.
    now apply app_inv_head in Ea. }
  assert (Hbefore : Forall (fun e => event_id e <> id) before).
  { eapply Forall_impl; [|exact Hb]. intros e He Heq. apply Hpre.
    now rewrite <- Heq. }
  assert (Hafter : Forall (fun e => event_id e <> id) after).
  { eapply Forall_impl; [|exact Ha]. intros e He Heq. apply Hpost.
    now rewrite <- Heq. }
  assert (Eown : statuses_of id (before ++ own ++ after) = statuses_of id own).
  { rewrite !statuses_of_app, (statuses_of_none id before Hbefore),
      (statuses_of_none id after Hafter). now rewrite app_nil_r. }
  exists before, own, after. fold id.
  split; [exact Etr|]. split; [exact Hbefore|]. split; [exact Hafter|].
  rewrite Etr, Eown. exact Hown.
Qed.

(** *** The history *)

Lemma find_step_static (a b : list PlanStep) (id : Z) (p : PlanStep) :
  map static a = map static b -> find_step id a = Some p ->
  exists q, find_step id b = Some q /\ static q = static p.
Proof.
  unfold find_step. revert b. induction a as [|x a IH]; intros [|y b] E Hf;
    simpl in *; try discriminate.
  assert (Exy : static x = static y) by congruence.
  assert (E' : map static a = map static b) by congruence.
  destruct (static_fields _ _ Exy) as (Hid & _). rewrite <- Hid.
  destruct (step_id x =? id).
  - injection Hf as <-. eauto.
  - eauto.
Qed.

Lemma attempts_match (steps : list PlanStep) (step q : PlanStep) (id : Z)
  (atts : list Attempt) :
  step_id step = id -> find_step id steps = Some q -> static q = static step ->
  Forall2 (record_matches steps)
    (map (attempt_record step) atts)
    (map (fun a : Attempt => EvInvoke id (tool step) (fst a) (snd a)) atts).
Proof.
  intros Hid Hq Hs. destruct (static_fields _ _ Hs) as (_ & _ & Hp & _).
  induction atts as [|[params out] atts IH]; simpl; constructor; auto.
  unfold record_matches, attempt_record. simpl. rewrite Hid, Hq, Hp.
  destruct out; auto.
Qed.

(** The records a run adds to the history are, in order, the records of the
    tool calls it makes. *)
Lemma run_steps_log (steps : list PlanStep) (max_retries : Z) (order : list Z) :
  forall st st' : PlanState World,
  map static (ps_steps st) = map static steps ->
  steps_run max_retries order st = Ok st' ->
  exists new tr,
    execution_history (ps_exec st') =
      (execution_history (ps_exec st) ++ new)%list /\
    trace (ps_exec st') = (trace (ps_exec st) ++ tr)%list /\
    Forall2 (record_matches steps) new (invocations tr).
Proof.
  induction order as [|x order IH]; intros st st' Hstat Hrun; simpl in Hrun.
  - injection Hrun as <-. exists [], []. rewrite !app_nil_r.
    split; [reflexivity|]. split; [reflexivity|constructor].
  - destruct (step1 max_retries st x) as [st1| |] eqn:H1; try discriminate.
    simpl in Hrun.
    destruct (run_step_effect World execute_tool py_str _ _ _ _ H1)
      as (step & step' & atts & evs & r & Hf & _ & _ & Hh & Ht & _ & Hinv & _).
    pose proof (run_step_static World execute_tool py_str _ _ _ _ H1) as Hstat1.
    destruct (IH st1 st') as (new & tr & Hh' & Ht' & Hall); auto.
    { now rewrite Hstat1. }
    destruct (find_step_static _ _ _ _ Hstat Hf) as (q & Hq & Hqs).
    pose proof (find_step_Some _ _ _ Hf) as [_ Hid].
    exists (map (attempt_record step) atts ++ new)%list, (evs ++ tr)%list.
    split; [|split].
    + rewrite Hh', Hh. now rewrite app_assoc.
    + rewrite Ht', Ht. now rewrite app_assoc.
    + rewrite invocations_app, Hinv. apply Forall2_app; auto.
      now apply attempts_match with (q := q).
Qed.

(** C9, as the code has it: the history carried by the summary is the
    executor's whole history, the records it held before the call followed by
    one record for each tool call of this run, in the order of the calls.
    Each record holds the step identifier, the tool identifier, the raw
    result and the attempt's status, and the parameters of the attempt: the
    resolved ones the tool was called with when the call returned, the
    step's unresolved ones when it raised. *)
Theorem history_is_prior_records_then_one_per_call
  (ex ex' : Exec) (steps : list PlanStep) (max_retries : Z) (summary : Summary) :
  exec_plan ex steps max_retries = Ok (summary, ex') ->
  exists new tr,
    sum_execution_history summary = (execution_history ex ++ new)%list /\
    execution_history ex' = sum_execution_history summary /\
    trace ex' = (trace ex ++ tr)%list /\
    Forall2 (record_matches steps) new (invocations tr).
Proof.
  intros Hexec.
  destruct (execute_plan_inv _ _ _ _ _ Hexec)
    as (order & st' & Hres & Hrun & -> & ->).
  destruct (run_steps_log steps max_retries order
              (mkPlanState steps [] [] ex) st' eq_refl Hrun)
    as (new & tr & Hh & Ht & Hall).
  exists new, tr. cbn [_generate_summary sum_execution_history].
  cbn [ps_exec execution_history trace] in Hh, Ht. auto.
Qed.

(** *** The running context *)

Lemma step_key_not_well_known (id : Z) (f k : string) :
  In (f, k) well_known -> k <> "step_" ++ PyStr.of_Z id ++ "_result".
Proof.
  unfold well_known. simpl.
  intros [E|[E|[E|[E|[E|[]]]]]]; injection E as <- <-; discriminate.
Qed.

(** What a turn does to the running context.  When the turn of a step ends
    with a successful result, each well-known field the result carries is in
    the running context, under its key, before the next step; a turn that
    ends with a result that is not successful leaves the context as it
    was. *)
Theorem context_extraction_on_success
  (max_retries : Z) (st st' : PlanState World) (id : Z) (r : PyObj) :
  step1 max_retries st id = Ok st' ->
  get id (ps_results st') = Some r ->
  (succeeded r = true ->
     get ("step_" ++ PyStr.of_Z id ++ "_result") (ps_context st') =
       Some (VDict r) /\
     forall f k v, In (f, k) well_known -> get f r = Some v ->
                   get k (ps_context st') = Some v) /\
  (succeeded r = false ->
     _extract_context r = [] /\ ps_context st' = ps_context st).
Proof.
  intros Hrun Hget.
  destruct (find_step id (ps_steps st)) as [step|] eqn:Hf.
  2:{ rewrite run_step_not_found in Hrun; auto. discriminate. }
  pose proof (find_step_Some _ _ _ Hf) as [_ Hid].
  destruct (_dependencies_satisfied step (ps_steps st)) eqn:Hd.
  - destruct (run_step_attempted World execute_tool py_str max_retries st id
                step Hf Hd)
      as (atts & step' & ex' & Hr & _ & _ & _ & Hs & _).
    rewrite Hr in Hrun. destruct atts as [|a atts]; [discriminate|].
    injection Hrun as <-.
    destruct (static_fields _ _ Hs) as (Hid' & _).
    unfold after_attempts in *. cbn [ps_results ps_context] in *.
    rewrite Hid', Hid in *. rewrite get_set_eq in Hget. injection Hget as <-.
    set (r := outcome_result id (last_outcome (a :: atts))).
    split.
    + intros Hok. rewrite Hok. split; [apply get_set_eq|].
      intros f k v Hin Hv.
      rewrite get_set_neq
        by (intros E; symmetry in E; revert E;
            now apply step_key_not_well_known with (f := f)).
      rewrite get_update by apply extract_context_keys_NoDup.
      now rewrite (extract_context_copies r f k v Hok Hin Hv).
    + intros Hko. rewrite Hko. split; [now apply extract_context_failed|reflexivity].
  - rewrite (run_step_gated World execute_tool py_str max_retries st id step
               Hf Hd) in Hrun.
    injection Hrun as <-. unfold after_gate in *.
    cbn [ps_results ps_context] in *.
    rewrite Hid, get_set_eq in Hget. injection Hget as <-.
    split; [discriminate|]. intros _. split; reflexivity.
Qed.

End PlanFacts.


(** ** The orchestration loop *)

Section AgentFacts.

Variable World : Type.
Variable execute_tool : string -> PyObj -> World -> ToolOutcome * World.
Variable py_str : Value -> string.
Variable heuristics : Heuristics.
Variable recursion_limit : nat.

Local Notation Agent := (AgenticAI World).
Local Notation exec_plan := (execute_plan World execute_tool py_str).
Local Notation one_turn :=
  (turn World execute_tool py_str heuristics recursion_limit).
Local Notation loop :=
  (agent_loop World execute_tool py_str heuristics recursion_limit).

Lemma summary_success_flag (ex ex' : Executor World) (steps : list PlanStep)
  (max_retries : Z) (summary : Summary) :
  exec_plan ex steps max_retries = Ok (summary, ex') ->
  sum_success summary = Nat.eqb (sum_failed summary) 0.
Proof.
  unfold execute_plan.
  destruct (_resolve_dependencies steps) as [order| |]; simpl; try discriminate.
  destruct (run_steps _ _ _ _ _ _) as [st'| |]; simpl; try discriminate.
  intros E. injection E as <- _. reflexivity.
Qed.

(** C6: in a turn of the loop whose execution summary reports a failed step
    and in which [adjust_plan] gives back as many steps as it was given, the
    loop ends: [execute] returns from that iteration with that summary as
    the final result, the planner has been called once in the turn and not
    again, and the executor is as that execution left it. *)
Theorem stall_ends_the_loop
  (a : Agent) (task : string) (fuel : nat) (iteration : Z)
  (steps : list PlanStep) (summary : Summary) (ex : Executor World) :
  iteration < max_iterations a ->
  Planner.plan heuristics recursion_limit task (execution_context a) = Ok steps ->
  exec_plan (executor a) steps 2 = Ok (summary, ex) ->
  (0 < sum_failed summary)%nat ->
  List.length (Planner.adjust_plan (sum_steps summary) (sum_results summary)) =
    List.length (sum_steps summary) ->
  loop (S fuel) task iteration a =
    Ok (Finished false task (iteration + 1) (Some summary)
                 (_update_context (execution_context a) summary),
        mkAgenticAI ex (_update_context (execution_context a) summary)
                    (max_iterations a) (S (plan_calls a))).
Proof.
  intros Hit Hplan Hexec Hfailed Hlen.
  cbn [agent_loop].
  replace (iteration <? max_iterations a) with true
    by (symmetry; apply Z.ltb_lt; lia).
  unfold turn. rewrite Hplan. cbn [bind].
  pose proof (plan_returns_nonempty _ _ _ _ _ Hplan) as Hne.
  destruct steps as [|s steps]; [congruence|].
  cbn [executor execution_context max_iterations plan_calls].
  rewrite Hexec. cbn [bind].
  pose proof (summary_success_flag _ _ _ _ _ Hexec) as Hflag.
  assert (Hs : sum_success summary = false).
  { rewrite Hflag. apply Nat.eqb_neq. lia. }
  rewrite Hs.
  replace (Nat.ltb 0 (sum_failed summary)) with true
    by (symmetry; apply Nat.ltb_lt; lia).
  rewrite Hlen, Nat.eqb_refl.
  cbn [bind]. unfold finish. cbn [execution_context]. rewrite Hs. reflexivity.
Qed.

End AgentFacts.
(** ** The execution order of an acyclic plan *)

Section Topological.
Import PyDict PyDictFacts.

(** *** The in-degrees at the start *)

Lemma get_zeroed {V : Type} (g : dict Z V) :
  forall (acc : dict Z Z) (x : Z),
  get x (fold_left (fun d kv => set (fst kv) 0 d) g acc) =
  if mem_list x (keys g) then Some 0 else get x acc.
Proof.
  induction g as [|[k v] g IH]; intros acc x; simpl; auto.
  rewrite IH. destruct (mem_list x (keys g)) eqn:E.
  - now rewrite orb_true_r.
  - rewrite orb_false_r. destruct (Z.eqb_spec x k) as [->|Hn].
    + apply get_set_eq.
    + apply get_set_neq. congruence.
Qed.

Lemma count_deps_one (ks : list Z) (x : Z) (deps : list Z) :
  forall deg : dict Z Z,
  keys deg = ks ->
  let deg' :=
    fold_left (fun in_degree dep =>
                 if mem dep in_degree then bump x 1 in_degree else in_degree)
              deps deg in
  keys deg' = ks /\
  get x deg' =
    option_map (fun n => n + Z.of_nat (List.length
                                         (filter (fun d => mem_list d ks) deps)))
               (get x deg) /\
  forall y, y <> x -> get y deg' = get y deg.
Proof.
  induction deps as [|dep deps IH]; intros deg Hk; simpl.
  - split; auto. split; auto. destruct (get x deg); simpl; auto.
    f_equal. lia.
  - assert (Hmem : mem dep deg = mem_list dep ks).
    { destruct (mem dep deg) eqn:E1, (mem_list dep ks) eqn:E2; auto.
      - apply mem_In in E1. rewrite Hk in E1. apply mem_list_In in E1. congruence.
      - apply mem_list_In in E2. rewrite <- Hk in E2. apply mem_In in E2.
        congruence. }
    rewrite Hmem. destruct (mem_list dep ks) eqn:E.
    + destruct (IH (bump x 1 deg)) as (K & G & O);
        [now rewrite keys_bump|].
      split; auto. split.
      * rewrite G, get_bump_same. destruct (get x deg); simpl; auto.
        f_equal. lia.
      * intros y Hy. rewrite O by auto. apply get_bump_other. congruence.
    + apply IH; auto.
Qed.

Lemma count_deps_all (ks : list Z) (g : dict Z (list Z)) :
  NoDup (keys g) ->
  forall deg : dict Z Z,
  keys deg = ks ->
  forall x,
  get x (fold_left
           (fun in_degree (kv : Z * list Z) =>
              fold_left
                (fun in_degree dep =>
                   if mem dep in_degree then bump (fst kv) 1 in_degree
                   else in_degree)
                (snd kv) in_degree)
           g deg) =
  match get x g with
  | Some deps =>
      option_map (fun n => n + Z.of_nat (List.length
                                           (filter (fun d => mem_list d ks) deps)))
                 (get x deg)
  | None => get x deg
  end.
Proof.
  induction g as [|[k deps] g IH]; intros Hnd deg Hk x; simpl; auto.
  inversion Hnd as [|? ? Hnot Hnd']; subst.
  destruct (count_deps_one (keys deg) k deps deg eq_refl) as (K & G & O).
  rewrite IH; auto.
  destruct (Z.eqb_spec x k) as [->|Hn].
  - apply get_None_not_In in Hnot. rewrite Hnot. exact G.
  - rewrite (O x Hn). reflexivity.
Qed.

Lemma init_in_degree_get (g : dict Z (list Z)) (x : Z) (deps : list Z) :
  NoDup (keys g) -> get x g = Some deps ->
  get x (init_in_degree g) =
    Some (Z.of_nat (List.length (filter (fun d => mem_list d (keys g)) deps))).
Proof.
  intros Hnd Hx. unfold init_in_degree.
  rewrite (count_deps_all (keys g)); auto.
  - rewrite Hx, get_zeroed.
    assert (Hin : mem_list x (keys g) = true).
    { apply mem_list_In, mem_In. unfold mem. now rewrite Hx. }
    rewrite Hin. reflexivity.
  - now rewrite keys_zeroed.
Qed.

Lemma zero_in_filter (d : dict Z Z) (x : Z) :
  get x d = Some 0 ->
  In x (map fst (filter (fun kv : Z * Z => snd kv =? 0) d)).
Proof.
  induction d as [|[k v] d IH]; simpl; [discriminate|].
  destruct (Z.eqb_spec x k) as [->|Hn].
  - intros E. injection E as ->. simpl. now left.
  - intros E. destruct (v =? 0); simpl; auto.
Qed.

Lemma pending_deps_nil (ks deps : list Z) :
  pending_deps ks [] deps = filter (fun d => mem_list d ks) deps.
Proof.
  unfold pending_deps. apply filter_ext. intros d. simpl. apply andb_true_r.
Qed.

Lemma kahn_topo_inv_init (g : dict Z (list Z)) :
  NoDup (keys g) ->
  kahn_topo_inv g (init_in_degree g)
    (map fst (filter (fun kv : Z * Z => snd kv =? 0) (init_in_degree g))) [].
Proof.
  intros Hnd. pose proof (keys_init_in_degree g Hnd) as Hk.
  split; [|split; [|split]].
  - rewrite <- Hk. apply kahn_inv_init. now rewrite Hk.
  - intros x deps Hx. rewrite pending_deps_nil. now apply init_in_degree_get.
  - intros x _ Hz. simpl. now apply zero_in_filter.
  - intros l1 x l2 deps d E. destruct l1; discriminate E.
Qed.

(** *** What a pass of [relax] does *)

Lemma relax_spec (s : Z) (g : dict Z (list Z)) :
  NoDup (keys g) ->
  forall (deg : dict Z Z) (queue : list Z),
  (forall x,
     get x (fst (relax s g (deg, queue))) =
     match get x g with
     | Some deps =>
         if mem_list s deps then option_map (fun n => n + -1) (get x deg)
         else get x deg
     | None => get x deg
     end) /\
  (forall x, In x queue -> In x (snd (relax s g (deg, queue)))) /\
  (forall x deps, get x g = Some deps -> mem_list s deps = true ->
     get x deg = Some 1 -> In x (snd (relax s g (deg, queue)))).
Proof.
  unfold relax. induction g as [|[k deps] g IH]; intros Hnd deg queue.
  - simpl. split; auto. split; auto. discriminate.
  - inversion Hnd as [|? ? Hnot Hnd']; subst.
    apply get_None_not_In in Hnot.
    cbn [fold_left].
    set (acc1 := if mem_list s deps then _ else _).
    assert (Hacc : acc1 = (fst acc1, snd acc1)) by now destruct acc1.
    rewrite Hacc. destruct (IH Hnd' (fst acc1) (snd acc1)) as (G & Q & P).
    assert (Hdeg1 : forall x, get x (fst acc1) =
              if Z.eqb x k then
                (if mem_list s deps then option_map (fun n => n + -1) (get x deg)
                 else get x deg)
              else get x deg).
    { intros x. unfold acc1. destruct (mem_list s deps).
      - assert (E : fst (match get k (bump k (-1) deg) with
                         | Some 0 => (bump k (-1) deg, (queue ++ [k])%list)
                         | _ => (bump k (-1) deg, queue)
                         end) = bump k (-1) deg)
          by (destruct (get k (bump k (-1) deg)) as [[| |]|]; reflexivity).
        rewrite E. destruct (Z.eqb_spec x k) as [->|Hn].
        + apply get_bump_same.
        + apply get_bump_other. congruence.
      - simpl. now destruct (x =? k). }
    assert (Hq1 : forall x, In x queue -> In x (snd acc1)).
    { intros x Hx. unfold acc1. destruct (mem_list s deps); auto.
      destruct (get k (bump k (-1) deg)) as [[| |]|]; simpl; auto.
      apply in_or_app. now left. }
    assert (Hp1 : mem_list s deps = true -> get k deg = Some 1 ->
                  In k (snd acc1)).
    { intros Hs Hone. unfold acc1. rewrite Hs.
      rewrite get_bump_same, Hone. simpl. apply in_or_app. right. now left. }
    split; [|split].
    + intros x. rewrite G, Hdeg1. simpl.
      destruct (Z.eqb_spec x k) as [->|Hn]; auto.
      rewrite Hnot. reflexivity.
    + intros x Hx. apply Q. now apply Hq1.
    + intros x deps' Hx Hs Hone. simpl in Hx.
      destruct (Z.eqb_spec x k) as [->|Hn].
      * injection Hx as <-. apply Q. now apply Hp1.
      * apply (P x deps'); auto. rewrite Hdeg1.
        replace (x =? k) with false by (symmetry; now apply Z.eqb_neq).
        exact Hone.
Qed.

Lemma pending_deps_add (ks order deps : list Z) (s : Z) :
  NoDup deps -> In s ks -> ~ In s order ->
  Z.of_nat (List.length (pending_deps ks (order ++ [s]) deps)) =
  Z.of_nat (List.length (pending_deps ks order deps)) +
  (if mem_list s deps then -1 else 0).
Proof.
  intros Hnd Hks Hord. unfold pending_deps.
  induction deps as [|d deps IH]; [reflexivity|].
  inversion Hnd as [|? ? Hnot Hnd']; subst. specialize (IH Hnd').
  assert (Hmem : mem_list d (order ++ [s]) =
                 (mem_list d order || Z.eqb d s)%bool).
  { unfold mem_list. rewrite existsb_app. simpl. now rewrite orb_false_r. }
  change (mem_list s (d :: deps)) with (Z.eqb s d || mem_list s deps)%bool.
  cbn [filter]. rewrite Hmem.
  destruct (Z.eqb_spec d s) as [->|Hn].
  - rewrite Z.eqb_refl. cbn [orb].
    apply mem_list_In in Hks. apply mem_list_false in Hord.
    rewrite Hks, Hord, orb_true_r. cbn [andb negb].
    apply mem_list_false in Hnot. rewrite Hnot in IH.
    cbn [List.length]. lia.
  - replace (s =? d) with false by (symmetry; apply Z.eqb_neq; congruence).
    rewrite orb_false_r. cbn [orb].
    destruct (mem_list d ks && negb (mem_list d order))%bool;
      cbn [List.length]; lia.
Qed.

Lemma app_one_split {A : Type} (l l1 l2 : list A) (s x : A) :
  (l ++ [s] = l1 ++ x :: l2)%list ->
  (l2 = [] /\ x = s /\ l1 = l) \/
  (exists l2', l2 = (l2' ++ [s])%list /\ l = (l1 ++ x :: l2')%list).
Proof.
  intros E. destruct (exists_last (l := x :: l2)) as (l' & a & E');
    [discriminate|].
  destruct l2 as [|y l2].
  - left. apply app_inj_tail in E as [-> ->]. auto.
  - right. destruct (exists_last (l := y :: l2)) as (l2' & b & El);
      [discriminate|].
    rewrite El in E. change (l1 ++ x :: l2' ++ [b])%list
      with (l1 ++ (x :: l2') ++ [b])%list in E.
    rewrite app_assoc in E. apply app_inj_tail in E as [-> ->].
    exists l2'. rewrite El. auto.
Qed.

(** One turn of the loop keeps the stronger invariant. *)
Lemma relax_topo_inv (g : dict Z (list Z)) (s : Z) (order queue : list Z)
  (deg : dict Z Z) :
  NoDup (keys g) ->
  (forall x deps, get x g = Some deps -> NoDup deps) ->
  kahn_topo_inv g deg (s :: queue) order ->
  kahn_topo_inv g (fst (relax s g (deg, queue)))
                  (snd (relax s g (deg, queue))) (order ++ [s]).
Proof.
  intros Hnd Hdeps (Hinv & Hcount & Hzero & Hclosed).
  pose proof (relax_inv_pop (keys g) s order queue g deg (incl_refl _) Hinv)
    as Hinv'.
  destruct (relax_spec s g Hnd deg queue) as (G & Q & P).
  destruct Hinv as (Hkeys & Hnodup & Hincl & Hvals).
  assert (Hs_ks : In s (keys g)).
  { apply Hincl. apply in_or_app. right. now left. }
  assert (Hs_order : ~ In s order).
  { intros Hin. apply NoDup_remove_2 in Hnodup. apply Hnodup.
    apply in_or_app. now left. }
  split; [assumption|]. split; [|split].
  - intros x deps Hx. rewrite G, Hx.
    rewrite (pending_deps_add _ _ _ s (Hdeps _ _ Hx) Hs_ks Hs_order).
    rewrite (Hcount x deps Hx).
    destruct (mem_list s deps); simpl; f_equal; lia.
  - intros x Hx Hz. rewrite G in Hz.
    assert (Hsome : exists deps, get x g = Some deps).
    { apply mem_In in Hx. unfold mem in Hx. destruct (get x g); eauto.
      discriminate. }
    destruct Hsome as [deps Hg]. rewrite Hg in Hz.
    rewrite <- app_assoc. simpl.
    destruct (mem_list s deps) eqn:Hs.
    + apply in_or_app. right. right. apply (P x deps); auto.
      destruct (get x deg) as [n|]; simpl in Hz; [|discriminate].
      injection Hz as Hz. f_equal. lia.
    + specialize (Hzero x Hx Hz).
      apply in_app_or in Hzero as [Hin|[<-|Hin]].
      * apply in_or_app. now left.
      * apply in_or_app. right. now left.
      * apply in_or_app. right. right. now apply Q.
  - intros l1 x l2 deps d E Hx Hd Hdk.
    apply app_one_split in E as [(-> & -> & ->)|(l2' & -> & ->)].
    + (* the step just popped: none of its dependencies is still to come *)
      destruct (Hvals s) as (n & Hn & Hle).
      { apply in_or_app. right. now left. }
      rewrite (Hcount s deps Hx) in Hn. injection Hn as Hn.
      assert (Hnil : pending_deps (keys g) order deps = []).
      { destruct (pending_deps (keys g) order deps); auto. simpl in Hn. lia. }
      destruct (mem_list d order) eqn:Hm; [now apply mem_list_In|].
      assert (Hin : In d (pending_deps (keys g) order deps)).
      { unfold pending_deps. apply filter_In. split; auto.
        apply mem_list_In in Hdk. now rewrite Hdk, Hm. }
      rewrite Hnil in Hin. contradiction.
    + now apply (Hclosed l1 x l2' deps d).
Qed.

Lemma kahn_loop_topo (g : dict Z (list Z)) (fuel : nat) :
  NoDup (keys g) ->
  (forall x deps, get x g = Some deps -> NoDup deps) ->
  forall (deg : dict Z Z) (queue order : list Z),
  kahn_topo_inv g deg queue order ->
  (List.length order + fuel = List.length (keys g))%nat ->
  exists order' deg',
    kahn_loop fuel g deg queue order = Ok order' /\
    kahn_topo_inv g deg' [] order'.
Proof.
  intros Hnd Hdeps. induction fuel as [|fuel IH];
    intros deg queue order Hinv Hlen.
  - destruct queue as [|s queue].
    + exists order, deg. simpl. auto.
    + exfalso. destruct Hinv as ((_ & Hn & Hincl & _) & _).
      pose proof (NoDup_incl_length Hn Hincl) as Hl.
      rewrite List.length_app in Hl. simpl in Hl. lia.
  - destruct queue as [|s queue].
    + exists order, deg. simpl. auto.
    + cbn [kahn_loop].
      pose proof (relax_topo_inv g s order queue deg Hnd Hdeps Hinv) as Hinv'.
      destruct (relax s g (deg, queue)) as [deg1 queue1]. simpl in Hinv'.
      apply (IH deg1 queue1 (order ++ [s])%list Hinv').
      rewrite List.length_app. simpl. lia.
Qed.

(** *** No step is left behind when there is no cycle *)

Lemma no_predecessor_free_set (T : Z -> Z -> Prop) :
  (forall x y z, T x y -> T y z -> T x z) ->
  forall (n : nat) (l : list Z),
  (List.length l <= n)%nat -> l <> [] ->
  (forall x, In x l -> exists y, In y l /\ T y x) ->
  exists x, T x x.
Proof.
  intros Htrans. induction n as [|n IH]; intros l Hlen Hne Hpred.
  - destruct l; [congruence|simpl in Hlen; lia].
  - destruct l as [|a l]; [congruence|].
    destruct (Hpred a (or_introl eq_refl)) as (y & Hy & Hya).
    destruct (Z.eq_dec y a) as [->|Hne_ya]; [eauto|].
    set (m := filter (fun z => negb (z =? a)) (a :: l)).
    assert (Hm : forall z, In z m <-> In z (a :: l) /\ z <> a).
    { intros z. unfold m. rewrite filter_In, negb_true_iff, Z.eqb_neq.
      reflexivity. }
    apply (IH m).
    + unfold m. simpl. rewrite Z.eqb_refl. simpl.
      pose proof (filter_length_le (fun z => negb (z =? a)) l). simpl in Hlen.
      lia.
    + intros E. assert (Hin : In y m) by (apply Hm; auto).
      rewrite E in Hin. contradiction.
    + intros z Hz. apply Hm in Hz as [Hz Hza].
      destruct (Hpred z Hz) as (w & Hw & Hwz).
      destruct (Z.eq_dec w a) as [->|Hwa].
      * exists y. split; [apply Hm; auto|]. eapply Htrans; eauto.
      * exists w. split; [apply Hm; auto|auto].
Qed.

Lemma get_graph_step (steps : list PlanStep) (x : Z) (deps : list Z) :
  get x (map (fun s => (step_id s, dependencies s)) steps) = Some deps ->
  exists p, In p steps /\ step_id p = x /\ dependencies p = deps.
Proof.
  induction steps as [|s steps IH]; simpl; [discriminate|].
  destruct (Z.eqb_spec x (step_id s)) as [->|Hn].
  - intros E. injection E as <-. eauto.
  - intros E. destruct (IH E) as (p & Hp & Hid & Hd). eauto.
Qed.

Lemma get_graph_of_step (steps : list PlanStep) (p : PlanStep) :
  NoDup (step_ids steps) -> In p steps ->
  get (step_id p) (map (fun s => (step_id s, dependencies s)) steps) =
    Some (dependencies p).
Proof.
  unfold step_ids. induction steps as [|s steps IH]; simpl; [tauto|].
  intros Hnd [->|Hin]; inversion Hnd as [|? ? Hnot Hnd']; subst.
  - now rewrite Z.eqb_refl.
  - destruct (Z.eqb_spec (step_id p) (step_id s)) as [E|Hn]; auto.
    elim Hnot. rewrite <- E. now apply in_map.
Qed.

Lemma NoDup_split_unique {A : Type} (a : A) (l1 l2 m1 m2 : list A) :
  NoDup (l1 ++ a :: l2) -> (l1 ++ a :: l2 = m1 ++ a :: m2)%list ->
  l1 = m1 /\ l2 = m2.
Proof.
  revert m1. induction l1 as [|x l1 IH]; intros [|y m1] Hnd E; simpl in *.
  - injection E as <-. auto.
  - injection E as <- ->. inversion Hnd as [|? ? Hnot _]; subst.
    elim Hnot. apply in_or_app. right. now left.
  - injection E as -> <-. inversion Hnd as [|? ? Hnot _]; subst.
    elim Hnot. apply in_or_app. right. now left.
  - injection E as <- E. inversion Hnd as [|? ? _ Hnd']; subst.
    destruct (IH m1 Hnd' E) as [-> ->]. auto.
Qed.

Lemma NoDup_app_In_both {A : Type} (l1 l2 : list A) (d : A) :
  NoDup (l1 ++ l2) -> In d l1 -> In d l2 -> False.
Proof.
  induction l1 as [|x l1 IH]; simpl; [tauto|].
  intros Hnd [->|Hin] H2; inversion Hnd as [|? ? Hnot Hnd']; subst.
  - apply Hnot. apply in_or_app. now right.
  - now apply IH.
Qed.

(** For a plan with unique identifiers, no dependency named twice by a step
    and no dependency cycle, the queue reaches every step, so that the order
    is the queue's, and every step comes in it after its dependencies that
    are steps of the plan. *)
Lemma resolve_dependencies_topological (steps : list PlanStep) :
  NoDup (step_ids steps) ->
  (forall p, In p steps -> NoDup (dependencies p)) ->
  acyclic steps ->
  exists order,
    _resolve_dependencies steps = Ok order /\
    kahn_order steps = Ok order /\
    NoDup order /\ Permutation order (step_ids steps) /\
    respects_dependencies steps order.
Proof.
  intros Hnd Hdeps Hacyc.
  pose proof (build_graph_unique steps Hnd) as Hg.
  pose proof (keys_build_graph steps Hnd) as Hkeys.
  assert (Hgnd : NoDup (keys (build_graph steps))) by now rewrite Hkeys.
  assert (Hgdeps : forall x deps, get x (build_graph steps) = Some deps ->
                                  NoDup deps).
  { intros x deps Hx. rewrite Hg in Hx.
    destruct (get_graph_step _ _ _ Hx) as (p & Hp & _ & <-). auto. }
  destruct (kahn_loop_topo (build_graph steps)
              (List.length (build_graph steps)) Hgnd Hgdeps _ _ _
              (kahn_topo_inv_init _ Hgnd))
    as (order & deg & Hrun & (Hk1 & Hk2 & Hk3 & Hk4) & Hcount & Hzero & Hclosed).
  { unfold keys. simpl. now rewrite length_map. }
  rewrite app_nil_r in Hk2, Hk3. rewrite Hkeys in *.
  assert (Hkahn : kahn_order steps = Ok order) by exact Hrun.
  (* the steps the queue did not reach *)
  set (rest := filter (fun id => negb (mem_list id order)) (step_ids steps)).
  assert (Hrest : rest = []).
  { destruct rest as [|r0 rest'] eqn:Er; auto. exfalso.
    assert (Hin_rest : forall x, In x rest <->
                                 In x (step_ids steps) /\ ~ In x order).
    { intros x. unfold rest. rewrite filter_In, negb_true_iff, mem_list_false.
      reflexivity. }
    destruct (no_predecessor_free_set (clos_trans Z (dep_edge steps))
                (fun x y z H1 H2 => t_trans _ _ x y z H1 H2)
                (List.length rest) rest (le_n _)) as [x Hx].
    - rewrite Er. discriminate.
    - intros x Hx. apply Hin_rest in Hx as [Hxk Hxo].
      assert (Hsome : exists deps, get x (build_graph steps) = Some deps).
      { rewrite <- Hkeys in Hxk. apply mem_In in Hxk. unfold mem in Hxk.
        destruct (get x (build_graph steps)); eauto. discriminate. }
      destruct Hsome as [deps Hdx].
      pose proof (Hcount x deps Hdx) as Hc.
      destruct (pending_deps (step_ids steps) order deps) as [|d ds] eqn:Ep.
      + elim Hxo. rewrite <- (app_nil_r order). apply Hzero; auto.
      + assert (Hd : In d (pending_deps (step_ids steps) order deps))
          by (rewrite Ep; now left).
        unfold pending_deps in Hd. apply filter_In in Hd as [Hdd Hd].
        apply andb_true_iff in Hd as [Hdk Hdo].
        apply mem_list_In in Hdk. apply negb_true_iff, mem_list_false in Hdo.
        exists d. split; [apply Hin_rest; auto|].
        apply t_step. rewrite Hg in Hdx.
        destruct (get_graph_step _ _ _ Hdx) as (p & Hp & Hid & Hpd).
        exists p. rewrite Hpd. auto.
    - exact (Hacyc x Hx). }
  exists order. split; [|split; [assumption|split; [assumption|split]]].
  - unfold _resolve_dependencies. rewrite Hkahn. cbn [bind].
    fold rest. rewrite Hrest. now rewrite app_nil_r.
  - apply NoDup_Permutation; auto. intros x. split; [apply Hk3|].
    intros Hx. destruct (mem_list x order) eqn:E; [now apply mem_list_In|].
    assert (Hin : In x rest).
    { unfold rest. apply filter_In. split; auto. now rewrite E. }
    rewrite Hrest in Hin. contradiction.
  - intros p d l1 l2 Hp Hd Hdk E.
    assert (Hl1 : In d l1).
    { apply (Hclosed l1 (step_id p) l2 (dependencies p) d); auto.
      rewrite Hg. now apply get_graph_of_step. }
    split; auto.
    intros (m1 & m2 & E' & Hm2).
    rewrite E in Hk2, E'.
    destruct (NoDup_split_unique _ _ _ _ _ Hk2 E') as [_ <-].
    exact (NoDup_app_In_both _ _ _ Hk2 Hl1 (or_intror Hm2)).
Qed.

End Topological.

(** ** The planner: the shape of a plan *)

Section PlanShape.
Import Planner.
Variable h : Heuristics.

Lemma dense_ids_NoDup (steps : list PlanStep) :
  dense_ids steps -> NoDup (step_ids steps).
Proof.
  unfold dense_ids. intros ->. apply Finite.Injective_map_NoDup.
  - intros x y E. lia.
  - apply seq_NoDup.
Qed.

Lemma dense_ids_bound (steps : list PlanStep) (d : Z) :
  dense_ids steps -> In d (step_ids steps) ->
  0 <= d < Z.of_nat (List.length steps).
Proof.
  unfold dense_ids. intros -> Hin. apply in_map_iff in Hin as (i & <- & Hi).
  apply in_seq in Hi. lia.
Qed.

Lemma dense_ids_snoc (steps : list PlanStep) (p : PlanStep) :
  dense_ids steps -> step_id p = Z.of_nat (List.length steps) ->
  dense_ids (steps ++ [p]).
Proof.
  unfold dense_ids, step_ids. intros Hd Hp.
  rewrite map_app, length_app, Nat.add_1_r, seq_S, map_app. simpl.
  unfold step_ids in Hd. now rewrite Hd, Hp.
Qed.

Lemma planned_snoc (steps : list PlanStep) (p : PlanStep) :
  planned steps -> step_id p = Z.of_nat (List.length steps) ->
  fresh_step p -> earlier_deps p -> planned (steps ++ [p]).
Proof.
  intros (Hd & Hf & He) Hid Hfresh Hdeps. split; [|split].
  - now apply dense_ids_snoc.
  - apply Forall_app. auto.
  - apply Forall_app. auto.
Qed.

Lemma new_step_planned (steps : list PlanStep) (desc tl : string)
  (params : PyObj) :
  planned steps -> In tl available_tools ->
  In (tl, PyDict.keys params) tool_parameters ->
  planned (steps ++ [new_step (Z.of_nat (List.length steps)) desc tl params []]).
Proof.
  intros Hp Htl Hpar. apply planned_snoc.
  - exact Hp.
  - reflexivity.
  - split; [reflexivity|]. split; [reflexivity|]. split; [exact Htl|exact Hpar].
  - split; [constructor|]. intros d [].
Qed.

Ltac known_tool := cbn; repeat (first [left; reflexivity | right]).

Lemma plan_shape_keep (n : nat) (acc : list PlanStep * Z) :
  plan_shape n acc -> plan_shape (S n) acc.
Proof. intros (A & B & C & D). repeat split; auto; apply A. Qed.

Lemma plan_shape_add (n : nat) (acc : list PlanStep * Z) (desc tl : string)
  (params : PyObj) :
  plan_shape n acc -> In tl available_tools ->
  In (tl, PyDict.keys params) tool_parameters ->
  plan_shape (S n)
    ((fst acc ++ [new_step (snd acc) desc tl params []])%list, snd acc + 1).
Proof.
  intros (A & B & C & D) Htl Hpar. unfold plan_shape. cbn [fst snd]. rewrite B.
  split; [|split; [|split]].
  - now apply new_step_planned.
  - rewrite length_app. simpl. lia.
  - apply Forall_app. split; [exact C|]. repeat constructor.
  - rewrite length_app. simpl. lia.
Qed.

Ltac plan_stage H :=
  repeat match goal with
         | |- plan_shape _ (if ?c then _ else _) => destruct c
         | |- plan_shape _ (match ?o with Some _ => _ | None => _ end) =>
             destruct o
         end;
  first [ apply plan_shape_keep; exact H
        | eapply (plan_shape_add _ (_, _));
          [exact H | known_tool | known_tool] ].

Ltac next_stage n H s k :=
  match goal with
  | |- context [match ?X with pair _ _ => _ end] =>
      assert (H : plan_shape n X); [| destruct X as [s k]]
  end.

(** The steps found by the keyword tests: at most six, numbered from 0,
    without dependencies. *)
Lemma pattern_steps_shape (task : string) :
  plan_shape 6 (pattern_steps h task).
Proof.
  unfold pattern_steps.
  assert (H0 : plan_shape 0 ([], 0)).
  { split; [|split; [reflexivity|split; [constructor|simpl; lia]]].
    split; [reflexivity|]. split; constructor. }
  next_stage 1%nat H1 s1 k1.
  { cbn [filter step_ids map]. plan_stage H0. }
  next_stage 2%nat H2 s2 k2; [plan_stage H1|].
  next_stage 3%nat H3 s3 k3; [plan_stage H2|].
  next_stage 4%nat H4 s4 k4; [plan_stage H3|].
  next_stage 5%nat H5 s5 k5; [plan_stage H4|].
  plan_stage H5.
Qed.

Lemma NoDup_step_ids_filter (f : PlanStep -> bool) (steps : list PlanStep) :
  NoDup (step_ids steps) -> NoDup (step_ids (filter f steps)).
Proof.
  unfold step_ids. induction steps as [|s l IH]; simpl; intros Hnd;
    [constructor|].
  inversion Hnd as [|? ? Hnot Hnd']; subst.
  destruct (f s); simpl; auto. constructor; auto.
  intros Hin. apply Hnot. apply in_map_iff in Hin as (q & Hq & Hin).
  apply filter_In in Hin as [Hin _]. rewrite <- Hq. now apply in_map.
Qed.

(** The inner loop of [_decompose_multi_step] numbers the sub-steps on from
    the steps so far and makes each depend on all the steps before it. *)
Lemma add_sub_steps_planned (sub_steps : list PlanStep) :
  forall (steps : list PlanStep) (k : Z),
  planned steps -> k = Z.of_nat (List.length steps) ->
  Forall fresh_step sub_steps ->
  planned (fst (add_sub_steps sub_steps (steps, k))) /\
  snd (add_sub_steps sub_steps (steps, k)) =
    Z.of_nat (List.length (fst (add_sub_steps sub_steps (steps, k)))) /\
  List.length (fst (add_sub_steps sub_steps (steps, k))) =
    (List.length steps + List.length sub_steps)%nat.
Proof.
  unfold add_sub_steps.
  induction sub_steps as [|s sub_steps IH]; intros steps k Hp Hk Hfresh.
  - cbn [fold_left fst snd List.length]. split; [exact Hp|].
    split; [exact Hk|lia].
  - inversion Hfresh as [|? ? Hs Hrest]; subst. cbn [fold_left].
    set (deps := step_ids (filter _ steps)).
    set (p := set_id_deps _ deps s).
    assert (Hp' : planned (steps ++ [p])).
    { apply planned_snoc.
      - exact Hp.
      - reflexivity.
      - destruct Hs as (Hst & Hres & Htl & Hpar).
        split; [exact Hst|]. split; [exact Hres|].
        split; [exact Htl|exact Hpar].
      - destruct Hp as (Hd & _ & _). split.
        + apply NoDup_step_ids_filter. now apply dense_ids_NoDup.
        + intros d Hin. unfold p, deps in Hin. cbn [dependencies set_id_deps] in Hin.
          unfold step_ids in Hin. apply in_map_iff in Hin as (q & <- & Hq).
          apply filter_In in Hq as [Hq Hlt]. apply Z.ltb_lt in Hlt.
          assert (Hin : In (step_id q) (step_ids steps))
            by (unfold step_ids; now apply in_map).
          pose proof (dense_ids_bound _ _ Hd Hin).
          cbn [step_id set_id_deps p]. unfold p. cbn [step_id set_id_deps]. lia. }
    destruct (IH (steps ++ [p])%list (Z.of_nat (List.length steps) + 1) Hp')
      as (H1 & H2 & H3).
    { rewrite length_app. simpl. lia. }
    { exact Hrest. }
    split; [exact H1|]. split; [exact H2|].
    rewrite H3, length_app. simpl. lia.
Qed.

Lemma decompose_parts_planned (plan_rec : string -> Res (list PlanStep))
  (parts : list string) :
  (forall part r, plan_rec part = Ok r -> Forall fresh_step r) ->
  forall (steps : list PlanStep) (k : Z) (acc : list PlanStep * Z),
  planned steps -> k = Z.of_nat (List.length steps) ->
  decompose_parts plan_rec parts (steps, k) = Ok acc ->
  planned (fst acc) /\ (List.length steps <= List.length (fst acc))%nat.
Proof.
  intros Hrec. induction parts as [|part parts IH];
    intros steps k acc Hp Hk Hrun; simpl in Hrun.
  - injection Hrun as <-. auto.
  - destruct (plan_rec (PyStr.strip part)) as [sub| |] eqn:Hsub;
      simpl in Hrun; try discriminate.
    destruct (add_sub_steps_planned sub steps k Hp Hk (Hrec _ _ Hsub))
      as (H1 & H2 & H3).
    destruct (add_sub_steps sub (steps, k)) as [steps' k'] eqn:E.
    simpl in H1, H2, H3.
    destruct (IH steps' k' acc H1 H2 Hrun) as [H4 H5]. split; auto. lia.
Qed.

Lemma planned_nil : planned [].
Proof. split; [reflexivity|]. split; constructor. Qed.

Lemma generic_plan_planned (task : string) :
  planned (_create_generic_plan task 0).
Proof.
  unfold _create_generic_plan.
  destruct (PyStr.contains "file" (PyStr.lower task));
    [|destruct (existsb _ _)];
    (apply (new_step_planned []); [exact planned_nil|known_tool|known_tool]).
Qed.

Lemma plan_planned (fuel : nat) :
  forall (task : string) (context : PyObj) (steps : list PlanStep),
  plan h fuel task context = Ok steps -> planned steps.
Proof.
  induction fuel as [|fuel IH]; intros task context steps Hplan;
    [discriminate|].
  cbn [plan] in Hplan.
  destruct (pattern_steps_shape task) as (Hp & Hk & _ & _).
  destruct (pattern_steps h task) as [steps0 k]. cbn [fst snd] in Hp, Hk.
  destruct (_is_multi_step_task task).
  - unfold _decompose_multi_step in Hplan.
    destruct (decompose_parts _ _ _) as [acc| |] eqn:Hdec; simpl in Hplan;
      try discriminate.
    apply decompose_parts_planned in Hdec as [Hacc Hlen]; auto.
    2:{ intros part r Hr. apply IH in Hr. apply Hr. }
    destruct (fst acc) as [|s l] eqn:Eacc.
    + injection Hplan as <-.
      assert (Hk0 : k = 0) by (destruct steps0; simpl in *; lia).
      rewrite Hk0. apply generic_plan_planned.
    + injection Hplan as <-. exact Hacc.
  - simpl in Hplan. destruct steps0 as [|s l].
    + injection Hplan as <-. simpl in Hk. subst k. apply generic_plan_planned.
    + injection Hplan as <-. exact Hp.
Qed.

(** X1: whatever [plan] returns is numbered 0, 1, 2, ... in the order of the
    list and made of fresh steps (pending, without result), each for a tool
    of the planner's list and with the parameters the planner gives that
    tool; every step depends only on steps with a smaller identifier, naming
    each once. *)
Theorem plan_returns_planned (fuel : nat) (task : string) (context : PyObj)
  (steps : list PlanStep) :
  plan h fuel task context = Ok steps ->
  step_ids steps = map Z.of_nat (seq 0 (List.length steps)) /\
  Forall fresh_step steps /\
  Forall (fun p => NoDup (dependencies p) /\
                   forall d, In d (dependencies p) -> 0 <= d < step_id p)
         steps.
Proof. apply plan_planned. Qed.

(** A plan in which every dependency is smaller than the step that names it
    has no cycle. *)
Lemma increasing_acyclic (steps : list PlanStep) :
  (forall p d, In p steps -> In d (dependencies p) -> d < step_id p) ->
  acyclic steps.
Proof.
  intros Hlt.
  assert (Hedge : forall d s, dep_edge steps d s -> d < s).
  { intros d s (p & Hp & <- & Hd & _). now apply Hlt. }
  assert (Htrans : forall x y, clos_trans Z (dep_edge steps) x y -> x < y).
  { induction 1; [auto|lia]. }
  intros x Hx. apply Htrans in Hx. lia.
Qed.

Lemma planned_acyclic (steps : list PlanStep) : planned steps -> acyclic steps.
Proof.
  intros (_ & _ & He). apply increasing_acyclic. intros p d Hp Hd.
  rewrite Forall_forall in He. destruct (He p Hp) as [_ Hb].
  specialize (Hb d Hd). lia.
Qed.

(** X2: the executor orders every plan the planner returns without leaving a
    step behind: the order is the queue's, it holds every identifier once,
    and every step comes in it after all its dependencies. *)
Theorem planner_plans_are_ordered (fuel : nat) (task : string)
  (context : PyObj) (steps : list PlanStep) :
  plan h fuel task context = Ok steps ->
  exists order,
    _resolve_dependencies steps = Ok order /\
    kahn_order steps = Ok order /\
    NoDup order /\ Permutation order (step_ids steps) /\
    respects_dependencies steps order.
Proof.
  intros Hplan. pose proof (plan_planned _ _ _ _ Hplan) as Hp.
  apply resolve_dependencies_topological.
  - apply dense_ids_NoDup, Hp.
  - intros p Hin. destruct Hp as (_ & _ & He). rewrite Forall_forall in He.
    apply (He p Hin).
  - now apply planned_acyclic.
Qed.

Lemma plan_context_any (fuel : nat) (task : string) (context context' : PyObj) :
  plan h fuel task context = plan h fuel task context'.
Proof. destruct fuel; reflexivity. Qed.

(** X3: a task with none of the multi-step indicators is planned without
    recursion: from one to six steps, none of which depends on another. *)
Theorem plan_without_indicator (fuel : nat) (task : string) (context : PyObj) :
  _is_multi_step_task task = false ->
  exists steps,
    plan h (S fuel) task context = Ok steps /\
    (1 <= List.length steps <= 6)%nat /\
    Forall (fun p => dependencies p = []) steps.
Proof.
  intros Hm. cbn [plan]. rewrite Hm.
  destruct (pattern_steps_shape task) as (_ & _ & Hdeps & Hlen).
  destruct (pattern_steps h task) as [[|s l] k]; cbn [fst snd bind] in *.
  - eexists. split; [reflexivity|]. unfold _create_generic_plan.
    destruct (PyStr.contains "file" (PyStr.lower task));
      [|destruct (existsb _ _)]; simpl; split; try lia; repeat constructor.
  - eexists. split; [reflexivity|]. cbn [List.length] in *.
    split; [lia|assumption].
Qed.

End PlanShape.

(** ** The planner: replanning *)

Section Replanning.
Import Planner.

Lemma adjust_fold (failed_steps : list PlanStep) :
  forall adjusted : list PlanStep,
  exists extra,
    fold_left
      (fun adjusted_steps failed_step =>
         if String.eqb (tool failed_step) "api_call" then
           List.app adjusted_steps
             [new_step (Z.of_nat (List.length adjusted_steps))
                ("Alternative approach for: " ++ description failed_step)
                "web_search"
                [("query", VStr (description failed_step))] []]
         else adjusted_steps)
      failed_steps adjusted = (adjusted ++ extra)%list /\
    List.length extra =
      List.length (filter (fun s => String.eqb (tool s) "api_call") failed_steps) /\
    step_ids extra =
      map Z.of_nat (seq (List.length adjusted) (List.length extra)) /\
    Forall (fun p => tool p = "web_search" /\ fresh_step p /\
                     dependencies p = [] /\
                     exists q, In q failed_steps /\
                               tool q = "api_call" /\
                               parameters p = [("query", VStr (description q))])
           extra.
Proof.
  induction failed_steps as [|f l IH]; intros adjusted.
  - exists []. simpl. rewrite app_nil_r. repeat split; constructor.
  - cbn [fold_left filter]. destruct (String.eqb_spec (tool f) "api_call") as [E|E].
    + destruct (IH (adjusted ++
                    [new_step (Z.of_nat (List.length adjusted))
                       ("Alternative approach for: " ++ description f)
                       "web_search" [("query", VStr (description f))] []])%list)
        as (extra & H1 & H2 & H3 & H4).
      exists (new_step (Z.of_nat (List.length adjusted))
                ("Alternative approach for: " ++ description f)
                "web_search" [("query", VStr (description f))] [] :: extra).
      split; [|split; [|split]].
      * rewrite H1, <- app_assoc. reflexivity.
      * simpl. now rewrite H2.
      * simpl. rewrite H3, length_app. simpl.
        rewrite Nat.add_1_r. reflexivity.
      * constructor.
        -- split; [reflexivity|]. split.
           ++ split; [reflexivity|]. split; [reflexivity|].
              split; cbn; repeat (first [left; reflexivity | right]).
           ++ split; [reflexivity|]. exists f.
              split; [now left|]. split; [exact E|reflexivity].
        -- eapply Forall_impl; [|exact H4].
           intros p (A & B & C & q & Hq & D & E').
           split; [exact A|]. split; [exact B|]. split; [exact C|].
           exists q. split; [now right|]. split; [exact D|exact E'].
    + destruct (IH adjusted) as (extra & H1 & H2 & H3 & H4).
      exists extra. split; [exact H1|]. split; [exact H2|]. split; [exact H3|].
      eapply Forall_impl; [|exact H4].
      intros p (A & B & C & q & Hq & D & E').
      split; [exact A|]. split; [exact B|]. split; [exact C|].
      exists q. split; [now right|]. split; [exact D|exact E'].
Qed.

Lemma filter_failed_api (steps : list PlanStep) :
  filter (fun s => String.eqb (tool s) "api_call")
         (filter (fun s => status_eqb (status s) failed) steps) =
  filter failed_api_call steps.
Proof.
  induction steps as [|s l IH]; [reflexivity|].
  cbn [filter]. unfold failed_api_call at 1.
  destruct (status_eqb (status s) failed); cbn [filter andb];
    [destruct (String.eqb (tool s) "api_call")|]; now rewrite IH.
Qed.

Lemma adjust_plan_extra (steps : list PlanStep)
  (execution_results : PyDict.dict Z PyObj) :
  exists extra,
    adjust_plan steps execution_results = (steps ++ extra)%list /\
    List.length extra = List.length (filter failed_api_call steps) /\
    step_ids extra =
      map Z.of_nat (seq (List.length steps) (List.length extra)) /\
    Forall (fun p => tool p = "web_search" /\ fresh_step p /\
                     dependencies p = []) extra /\
    (List.length (adjust_plan steps execution_results) = List.length steps <->
     forall s, In s steps -> failed_api_call s = false).
Proof.
  unfold adjust_plan.
  destruct (adjust_fold (filter (fun s => status_eqb (status s) failed) steps)
              steps) as (extra & H1 & H2 & H3 & H4).
  rewrite filter_failed_api in H2.
  assert (Hex : exists extra',
             (match filter (fun s => status_eqb (status s) failed) steps with
              | [] => steps
              | _ =>
                  fold_left
                    (fun adjusted_steps failed_step =>
                       if String.eqb (tool failed_step) "api_call" then
                         List.app adjusted_steps
                           [new_step (Z.of_nat (List.length adjusted_steps))
                              ("Alternative approach for: " ++
                               description failed_step)
                              "web_search"
                              [("query", VStr (description failed_step))] []]
                       else adjusted_steps)
                    (filter (fun s => status_eqb (status s) failed) steps) steps
              end) = (steps ++ extra')%list /\ extra' = extra).
  { destruct (filter (fun s => status_eqb (status s) failed) steps) eqn:E.
    - exists extra. split; [exact H1|reflexivity].
    - exists extra. split; [exact H1|reflexivity]. }
  destruct Hex as (extra' & Heq & ->).
  exists extra. rewrite Heq. split; [reflexivity|]. split; [exact H2|].
  split; [exact H3|]. split.
  - eapply Forall_impl; [|exact H4]. intros p (A & B & C & _). auto.
  - rewrite length_app, H2. split.
    + intros Hlen s Hs. destruct (failed_api_call s) eqn:E; auto.
      assert (Hin : In s (filter failed_api_call steps))
        by (apply filter_In; auto).
      destruct (filter failed_api_call steps); [contradiction|simpl in Hlen; lia].
    + intros Hnone. replace (filter failed_api_call steps) with (@nil PlanStep).
      * simpl. lia.
      * symmetry. destruct (filter failed_api_call steps) as [|s l] eqn:E; auto.
        assert (Hin : In s (filter failed_api_call steps))
          by (rewrite E; now left).
        apply filter_In in Hin as [Hs Ht]. rewrite (Hnone s Hs) in Ht.
        discriminate.
Qed.

(** X4: [adjust_plan] never removes or changes a step: it returns the steps
    it was given followed by one fresh [web_search] step for each failed
    [api_call] step, numbered on from the length of the plan.  So the plan
    comes back with the same length exactly when no failed step is an
    [api_call]. *)
Theorem adjust_plan_appends_alternatives (steps : list PlanStep)
  (execution_results : PyDict.dict Z PyObj) :
  exists extra,
    adjust_plan steps execution_results = (steps ++ extra)%list /\
    List.length extra = List.length (filter failed_api_call steps) /\
    step_ids extra =
      map Z.of_nat (seq (List.length steps) (List.length extra)) /\
    Forall (fun p => tool p = "web_search" /\ fresh_step p /\
                     dependencies p = []) extra /\
    (List.length (adjust_plan steps execution_results) = List.length steps <->
     forall s, In s steps -> failed_api_call s = false).
Proof. apply adjust_plan_extra. Qed.

End Replanning.

(** ** Strings and dictionaries, further *)

Module PyStrMore.
Import PyStr PyStrFacts.

Lemma append_inj_r (a b t : string) : a ++ t = b ++ t -> a = b.
Proof.
  revert b. induction a as [|c a IH]; intros [|c' b] E; auto.
  - apply (f_equal String.length) in E. simpl in E.
    rewrite length_app in E. lia.
  - apply (f_equal String.length) in E. simpl in E.
    rewrite length_app in E. lia.
  - simpl in E. injection E as -> E. f_equal. now apply IH.
Qed.

Lemma of_Z_inj (a b : Z) : of_Z a = of_Z b -> a = b.
Proof.
  unfold of_Z. intros E.
  assert (Hn : forall z, Z.to_int z <> Decimal.Pos Decimal.Nil /\
                         Z.to_int z <> Decimal.Neg Decimal.Nil).
  { intros [|p|p]; simpl; split; try discriminate;
      intros H; injection H as H; now apply Unsigned.to_uint_nonnil in H. }
  apply (f_equal NilZero.int_of_string) in E.
  rewrite !NilZero.isi in E by apply Hn.
  injection E as E. now apply to_int_inj.
Qed.

Lemma no_char_app (sep : ascii) (a b : string) :
  no_char sep (a ++ b) = (no_char sep a && no_char sep b)%bool.
Proof. induction a as [|c a IH]; simpl; auto. now rewrite IH, andb_assoc. Qed.

Lemma string_of_uint_no_dot (d : Decimal.uint) :
  no_char "." (NilZero.string_of_uint d) = true.
Proof.
  assert (Hd : no_char "." (NilEmpty.string_of_uint d) = true)
    by (induction d; simpl; auto).
  destruct d; auto.
Qed.

Lemma of_Z_no_dot (n : Z) : no_char "." (of_Z n) = true.
Proof.
  unfold of_Z. destruct (Z.to_int n); simpl; apply string_of_uint_no_dot.
Qed.

Lemma app_assoc (a b c : string) : (a ++ b) ++ c = a ++ b ++ c.
Proof. induction a; simpl; congruence. Qed.

Lemma app_empty_r (a : string) : a ++ "" = a.
Proof. induction a; simpl; congruence. Qed.

(** Reading a segment without separator up to the end of the path. *)
Lemma split_char_aux_last (sep : ascii) (a cur : string) :
  no_char sep a = true -> split_char_aux sep a cur = [cur ++ a].
Proof.
  revert cur. induction a as [|c a IH]; intros cur Ha; simpl in *.
  - now rewrite app_empty_r.
  - apply andb_true_iff in Ha as [Hc Ha]. apply negb_true_iff in Hc.
    rewrite Hc, IH by assumption. now rewrite app_assoc.
Qed.

(** Reading a segment without separator up to the next separator. *)
Lemma split_char_aux_segment (sep : ascii) (a rest cur : string) :
  no_char sep a = true ->
  split_char_aux sep (a ++ String sep rest) cur =
  (cur ++ a) :: split_char_aux sep rest "".
Proof.
  revert cur. induction a as [|c a IH]; intros cur Ha; simpl in *.
  - now rewrite Ascii.eqb_refl, app_empty_r.
  - apply andb_true_iff in Ha as [Hc Ha]. apply negb_true_iff in Hc.
    rewrite Hc, IH by assumption. now rewrite app_assoc.
Qed.

(** Splitting at the dots gives back the segments that were joined by
    dots. *)
Lemma split_concat (part : string) (parts : list string) :
  Forall (fun s => no_char "." s = true) (part :: parts) ->
  split_char "." (String.concat "." (part :: parts)) = part :: parts.
Proof.
  unfold split_char. revert part.
  induction parts as [|p parts IH]; intros part Hall.
  - inversion Hall; subst. simpl. now rewrite split_char_aux_last.
  - inversion Hall as [|? ? Hpart Hrest]; subst.
    change (String.concat "." (part :: p :: parts))
      with (part ++ String "." (String.concat "." (p :: parts))).
    rewrite split_char_aux_segment by assumption.
    simpl app. f_equal. now apply IH.
Qed.

End PyStrMore.

Module PyDictMore.
Import PyDict PyDictFacts.

Section Facts.
Context {K V : Type} `{EqKey K}.

Lemma set_new (k : K) (v : V) (d : dict K V) :
  ~ In k (keys d) -> set k v d = (d ++ [(k, v)])%list.
Proof.
  induction d as [|[k' v'] d IH]; simpl; intros Hnot; auto.
  destruct (keqb_spec k k') as [->|Hn]; [tauto|].
  rewrite IH; tauto.
Qed.

End Facts.
End PyDictMore.

(** ** Parameter resolution, further *)

Section ResolutionMore.
Import PyStrMore.
Variable py_str : Value -> string.

Lemma resolve_parameters_fold (context : PyObj) (parameters : PyObj) :
  forall resolved : PyObj,
  NoDup (PyDict.keys resolved ++ PyDict.keys parameters) ->
  fold_left
    (fun resolved kv =>
       PyDict.set (fst kv) (resolve_value py_str (snd kv) context) resolved)
    parameters resolved =
  (resolved ++
   map (fun kv => (fst kv, resolve_value py_str (snd kv) context)) parameters)%list.
Proof.
  induction parameters as [|[k v] l IH]; intros resolved Hnd; simpl.
  - now rewrite app_nil_r.
  - assert (Hk : ~ In k (PyDict.keys resolved)).
    { intros Hin. apply NoDup_remove_2 in Hnd. apply Hnd.
      apply in_or_app. now left. }
    rewrite (PyDictMore.set_new k _ resolved Hk).
    rewrite IH.
    + now rewrite <- List.app_assoc.
    + unfold PyDict.keys in *. rewrite map_app, <- List.app_assoc. exact Hnd.
Qed.

Lemma resolve_value_literal (v : Value) (context : PyObj) :
  literal v = true -> resolve_value py_str v context = v.
Proof.
  destruct v as [| | |s| |]; simpl; auto. intros Hl.
  apply andb_true_iff in Hl as [H1 H2].
  apply negb_true_iff in H1, H2. now rewrite H1, H2.
Qed.

(** X5: [_resolve_parameters] resolves the parameters one by one: it keeps
    their names and their order and resolves each value on its own against
    the context, so a parameter list without reference or template comes
    back as it was given, whatever the context holds. *)
Theorem resolve_parameters_pointwise (parameters context : PyObj) :
  NoDup (PyDict.keys parameters) ->
  _resolve_parameters py_str parameters context =
    map (fun kv => (fst kv, resolve_value py_str (snd kv) context)) parameters /\
  PyDict.keys (_resolve_parameters py_str parameters context) =
    PyDict.keys parameters /\
  (Forall (fun kv => literal (snd kv) = true) parameters ->
   _resolve_parameters py_str parameters context = parameters).
Proof.
  intros Hnd. unfold _resolve_parameters.
  rewrite resolve_parameters_fold by exact Hnd. cbn [List.app].
  split; [reflexivity|]. split.
  - unfold PyDict.keys. rewrite map_map. reflexivity.
  - intros Hall. induction Hall as [|[k v] l Hv _ IH]; simpl; auto.
    inversion Hnd; subst. simpl in Hv.
    rewrite resolve_value_literal by exact Hv. now rewrite IH.
Qed.

Lemma get_context_value_segments (part : string) (parts : list string)
  (context : PyObj) :
  Forall (fun s => no_char "." s = true) (part :: parts) ->
  _get_context_value (String.concat "." (part :: parts)) context =
    walk_path (part :: parts) (VDict context).
Proof.
  intros Hall. unfold _get_context_value. now rewrite split_concat.
Qed.


End ResolutionMore.

(** ** Templates *)

Section Templates.
Variable py_str : Value -> string.

Lemma resolve_template_fold (context : PyObj) (matches : list string) :
  (forall match_, In match_ matches ->
     _get_context_value (PyStr.strip match_) context = VNone) ->
  forall result : string,
  fold_left
    (fun result match_ =>
       match _get_context_value (PyStr.strip match_) context with
       | VNone => result
       | value => PyStr.replace ("{{" ++ match_ ++ "}}") (py_str value) result
       end)
    matches result = result.
Proof.
  induction matches as [|m l IH]; intros Hnone result; [reflexivity|].
  cbn [fold_left]. rewrite (Hnone m (or_introl eq_refl)).
  apply IH. intros x Hx. apply Hnone. now right.
Qed.

Lemma get_context_value_empty (path : string) :
  _get_context_value path [] = VNone.
Proof. now apply get_context_value_absent. Qed.

(** X7: a placeholder [{{path}}] whose path leads to nothing in the context
    stays in the text as it is: a template none of whose placeholders can
    be resolved comes back unchanged.  This is so for every template in the
    empty context, the context of the first step of a run; there a
    parameter is resolved to itself, or to [None] when it is a reference
    [${...}]. *)
Theorem unresolved_placeholders_stay (template : string) (context : PyObj) :
  ((forall path, In path (placeholders template) ->
      _get_context_value (PyStr.strip path) context = VNone) ->
   _resolve_template py_str template context = template) /\
  _resolve_template py_str template [] = template /\
  resolve_value py_str (VStr template) [] =
    if (PyStr.startswith "${" template && PyStr.endswith "}" template)%bool
    then VNone else VStr template.
Proof.
  assert (Hempty : _resolve_template py_str template [] = template).
  { unfold _resolve_template. apply resolve_template_fold.
    intros m _. apply get_context_value_empty. }
  split; [|split].
  - intros Hnone. unfold _resolve_template. now apply resolve_template_fold.
  - exact Hempty.
  - unfold resolve_value.
    destruct (PyStr.startswith "${" template && PyStr.endswith "}" template)%bool.
    + apply get_context_value_empty.
    + rewrite Hempty. now destruct (PyStr.contains "{{" template).
Qed.

End Templates.

(** ** The executor: what a run leaves of a completed step *)

Section Settled.
Import PyDict PyDictFacts PyStrMore.

Variable World : Type.
Variable execute_tool : string -> PyObj -> World -> ToolOutcome * World.
Variable py_str : Value -> string.

Local Notation Exec := (Executor World).
Local Notation step1 := (run_step World execute_tool py_str).
Local Notation steps_run := (run_steps World execute_tool py_str).
Local Notation exec_plan := (execute_plan World execute_tool py_str).

Lemma step_result_key_inj (a b : Z) :
  step_result_key a = step_result_key b -> a = b.
Proof.
  unfold step_result_key. intros E. simpl in E.
  injection E as E. apply append_inj_r in E. now apply of_Z_inj.
Qed.

Lemma extract_context_no_step_key (r : PyObj) (id : Z) :
  get (step_result_key id) (_extract_context r) = None.
Proof.
  apply get_None_not_In. intros Hin.
  assert (Hk : forall (l : list (string * string)) (acc : PyObj) k,
             In k (keys (fold_left
                           (fun context fk =>
                              match get (fst fk) r with
                              | Some v => set (snd fk) v context
                              | None => context
                              end) l acc)) ->
             In k (keys acc) \/ exists f, In (f, k) l).
  { induction l as [|[f k'] l IH]; intros acc k Hk; simpl in Hk; auto.
    apply IH in Hk as [Hk|[f' Hf]].
    - cbn [fst snd] in Hk. destruct (get f r) as [v|]; auto.
      destruct (in_dec string_dec k (keys acc)) as [Hi|Hn]; auto.
      destruct (string_dec k k') as [->|Hne].
      + right. exists f. now left.
      + left.
        destruct (in_dec string_dec k' (keys acc)) as [Hi'|Hn'].
        * now rewrite keys_set_present in Hk.
        * rewrite keys_set_absent in Hk by assumption.
          apply in_app_or in Hk as [Hk|[Hk|[]]]; congruence.
    - right. exists f'. now right. }
  unfold _extract_context in Hin. destruct (succeeded r); [|contradiction].
  apply Hk in Hin as [[]|[f Hf]].
  now apply (step_key_not_well_known id) in Hf.
Qed.

Lemma dependencies_satisfied_inv (step : PlanStep) (steps : list PlanStep)
  (d : Z) :
  _dependencies_satisfied step steps = true -> In d (dependencies step) ->
  exists q, find_step d steps = Some q /\ status q = completed.
Proof.
  unfold _dependencies_satisfied. intros Hs Hd.
  destruct (dependencies step) as [|d0 deps] eqn:E; [contradiction|].
  rewrite forallb_forall in Hs. specialize (Hs d Hd).
  destruct (find_step d steps) as [q|]; [|discriminate].
  exists q. split; auto. now destruct (status q).
Qed.

(** What a turn does to its step, to the results and to the context. *)
Lemma run_step_outcome (max_retries : Z) (st st' : PlanState World) (id : Z)
  (step : PlanStep) :
  find_step id (ps_steps st) = Some step ->
  step1 max_retries st id = Ok st' ->
  exists (step' : PlanStep) (r : PyObj),
    ps_steps st' = store_step step' (ps_steps st) /\
    static step' = static step /\
    ps_results st' = set id r (ps_results st) /\
    ((_dependencies_satisfied step (ps_steps st) = false /\
      status step' = failed /\ ps_context st' = ps_context st) \/
     (_dependencies_satisfied step (ps_steps st) = true /\
      result step' = Some r /\
      status step' = (if succeeded r then completed else failed) /\
      ps_context st' =
        if succeeded r then
          set (step_result_key id) (VDict r)
              (update (ps_context st) (_extract_context r))
        else ps_context st)).
Proof.
  intros Hf Hrun.
  destruct (_dependencies_satisfied step (ps_steps st)) eqn:Hd.
  - unfold run_step in Hrun. rewrite Hf, Hd in Hrun. cbn [negb] in Hrun.
    destruct (retry_loop_spec World execute_tool py_str
                (Z.to_nat (max_retries + 1)) max_retries 0 step
                None (ps_context st) (ps_exec st))
      as (atts & step' & ex' & Hr & _ & _ & Hs & Hst & _); [lia|].
    rewrite Hr in Hrun. cbn [bind] in Hrun.
    destruct atts as [|a atts]; [discriminate|].
    destruct Hst as [Hstatus Hresult]; [discriminate|].
    apply find_step_Some in Hf as [_ Hid].
    injection Hrun as <-. cbn [ps_steps ps_results ps_context].
    exists step', (outcome_result (step_id step) (last_outcome (a :: atts))).
    split; [reflexivity|]. split; [exact Hs|].
    split; [now rewrite Hid|]. right.
    split; [reflexivity|]. split; [exact Hresult|]. split.
    + rewrite Hstatus, succeeded_outcome_result. reflexivity.
    + unfold step_result_key. now rewrite Hid.
  - rewrite (run_step_gated _ _ _ _ _ _ _ Hf Hd) in Hrun.
    injection Hrun as <-. unfold after_gate. cbn [ps_steps ps_results ps_context].
    apply find_step_Some in Hf as [_ Hid].
    exists (set_status failed step), dependencies_error.
    split; [reflexivity|]. split; [reflexivity|].
    split; [now rewrite Hid|]. left. auto.
Qed.

Lemma run_step_settled (max_retries : Z) (st st' : PlanState World) (id : Z)
  (todo : list Z) :
  ~ In id todo -> pass_inv st (id :: todo) ->
  step1 max_retries st id = Ok st' -> pass_inv st' todo.
Proof.
  intros Hnot [Hpend Hset] Hrun.
  destruct (find_step id (ps_steps st)) as [step|] eqn:Hf.
  2:{ rewrite run_step_not_found in Hrun by assumption. discriminate. }
  destruct (run_step_outcome _ _ _ _ _ Hf Hrun)
    as (step' & r & Hsteps & Hs & Hres & Hcase).
  pose proof (find_step_Some _ _ _ Hf) as [_ Hid].
  destruct (static_fields _ _ Hs) as (Hid' & _ & _ & Hdeps).
  assert (Hpending : status step = pending)
    by (apply (Hpend id); [now left|exact Hf]).
  assert (Hother : forall i, i <> id ->
            find_step i (ps_steps st') = find_step i (ps_steps st)).
  { intros i Hi. rewrite Hsteps. apply find_store_other. lia. }
  assert (Hhere : find_step id (ps_steps st') = Some step').
  { rewrite Hsteps, <- Hid, <- Hid'. apply (find_store_same _ step).
    now rewrite Hid', Hid. }
  (* a completed step of the state before is another step *)
  assert (Hcompleted : forall d q,
            find_step d (ps_steps st) = Some q -> status q = completed ->
            d <> id /\ find_step d (ps_steps st') = Some q).
  { intros d q Hq Hc.
    assert (d <> id) by (intros ->; congruence).
    split; auto. now rewrite Hother. }
  assert (Hkeep : forall p, step_id p <> id -> settled st p -> settled st' p).
  { intros p Hp [Hd (r0 & Hr0 & Hok & Hres0 & Hctx0)]. split.
    - intros d Hin. destruct (Hd d Hin) as (q & Hq & Hc).
      exists q. split; auto. now apply Hcompleted.
    - exists r0. split; [exact Hr0|]. split; [exact Hok|]. split.
      + rewrite Hres. rewrite get_set_neq by lia. exact Hres0.
      + destruct Hcase as [(_ & _ & ->)|(_ & _ & _ & ->)]; auto.
        destruct (succeeded r); auto.
        rewrite get_set_neq.
        * rewrite get_update by apply extract_context_keys_NoDup.
          now rewrite extract_context_no_step_key.
        * intros E. apply step_result_key_inj in E. congruence. }
  split.
  - intros i p Hi Hp. rewrite Hother in Hp by (intros ->; contradiction).
    apply (Hpend i); [now right|exact Hp].
  - intros i p Hp Hc. destruct (Z.eq_dec i id) as [->|Hne].
    + rewrite Hhere in Hp. injection Hp as <-.
      destruct Hcase as [(_ & Hfail & _)|(Hsat & Hresult & Hstatus & Hctx)];
        [congruence|].
      destruct (succeeded r) eqn:Hok; [|congruence]. split.
      * intros d Hin. rewrite Hdeps in Hin.
        destruct (dependencies_satisfied_inv _ _ _ Hsat Hin) as (q & Hq & Hcq).
        exists q. split; auto. now apply Hcompleted.
      * exists r. split; [exact Hresult|]. split; [exact Hok|].
        rewrite Hid', Hid, Hres, Hctx. split; apply get_set_eq.
    + rewrite Hother in Hp by assumption.
      apply Hkeep; [|now apply (Hset i)].
      apply find_step_Some in Hp as [_ ->]. exact Hne.
Qed.

Lemma run_steps_settled (max_retries : Z) (order : list Z) :
  forall (rest : list Z) (st st' : PlanState World),
  NoDup (order ++ rest) -> pass_inv st (order ++ rest) ->
  steps_run max_retries order st = Ok st' -> pass_inv st' rest.
Proof.
  induction order as [|id order IH]; intros rest st st' Hnd Hinv Hrun;
    simpl in *.
  - now injection Hrun as <-.
  - destruct (step1 max_retries st id) as [st1| |] eqn:H1; try discriminate.
    simpl in Hrun. inversion Hnd as [|? ? Hnot Hnd']; subst.
    apply (IH rest st1 st'); auto.
    now apply (run_step_settled max_retries st st1 id).
Qed.

Lemma pass_inv_start (ex : Exec) (steps : list PlanStep) (todo : list Z) :
  Forall (fun p => status p = pending) steps ->
  pass_inv (mkPlanState steps [] [] ex) todo.
Proof.
  intros Hpend. rewrite Forall_forall in Hpend. split; cbn [ps_steps].
  - intros i p _ Hp. apply find_step_Some in Hp as [Hp _]. auto.
  - intros i p Hp Hc. apply find_step_Some in Hp as [Hp _].
    apply Hpend in Hp. congruence.
Qed.

(** X8: in a run of a plan with unique identifiers whose steps start
    pending, a step ends completed only with every one of its dependencies a
    completed step of the plan; it then carries a successful result, the one
    the summary's results hold for it. *)
Theorem completed_step_has_completed_dependencies
  (ex ex' : Exec) (steps : list PlanStep) (max_retries : Z) (summary : Summary) :
  NoDup (step_ids steps) ->
  Forall (fun p => status p = pending) steps ->
  exec_plan ex steps max_retries = Ok (summary, ex') ->
  forall p, In p (sum_steps summary) -> status p = completed ->
    (forall d, In d (dependencies p) ->
       exists q, In q (sum_steps summary) /\ step_id q = d /\
                 status q = completed) /\
    exists r, result p = Some r /\ succeeded r = true /\
              get (step_id p) (sum_results summary) = Some r.
Proof.
  intros Hnd Hpend Hrun p Hp Hc.
  destruct (execute_plan_inv _ _ _ _ _ _ _ _ Hrun)
    as (order & st' & Hord & Hsteps & -> & _).
  destruct (resolve_dependencies_NoDup _ _ Hnd Hord) as [Hnd' _].
  assert (Hinv : pass_inv st' []).
  { apply (run_steps_settled max_retries order []
             (mkPlanState steps [] [] ex) st').
    - now rewrite app_nil_r.
    - now apply pass_inv_start.
    - exact Hsteps. }
  cbn [sum_steps sum_results _generate_summary] in *.
  assert (Hnd1 : NoDup (step_ids (ps_steps st'))).
  { rewrite (step_ids_static (ps_steps st') steps); auto.
    apply (run_steps_static _ _ _ _ _ _ _ Hsteps). }
  destruct Hinv as [_ Hset].
  destruct (Hset (step_id p) p (find_step_NoDup _ _ Hnd1 Hp) Hc)
    as [Hd (r & Hr & Hok & Hres & _)].
  split.
  - intros d Hin. destruct (Hd d Hin) as (q & Hq & Hcq).
    apply find_step_Some in Hq as [Hq Hid]. eauto.
  - eauto.
Qed.

(** X9: when the loop reaches a step, the running context holds the result
    of every step completed so far under its key [step_<id>_result], so a
    parameter of the step that refers to that key, or to a field of it,
    resolves to that result, or to that field of it. *)
Theorem earlier_results_are_in_context
  (ex : Exec) (steps : list PlanStep) (max_retries : Z) (id : Z)
  (st : PlanState World) :
  NoDup (step_ids steps) ->
  Forall (fun p => status p = pending) steps ->
  reached execute_tool py_str ex steps max_retries id st ->
  forall p, In p (ps_steps st) -> status p = completed ->
  exists r,
    result p = Some r /\ succeeded r = true /\
    get (step_result_key (step_id p)) (ps_context st) = Some (VDict r) /\
    resolve_value py_str
      (VStr ("${" ++ step_result_key (step_id p) ++ "}")) (ps_context st) =
      VDict r /\
    forall field, no_char "." field = true ->
      resolve_value py_str
        (VStr ("${" ++ String.concat "." [step_result_key (step_id p); field]
                    ++ "}"))
        (ps_context st) =
      match get field r with Some v => v | None => VNone end.
Proof.
  intros Hnd Hpend (order & pre & post & Hord & -> & Hsteps) p Hp Hc.
  destruct (resolve_dependencies_NoDup _ _ Hnd Hord) as [Hnd' _].
  assert (Hinv : pass_inv st (id :: post)).
  { apply (run_steps_settled max_retries pre (id :: post)
             (mkPlanState steps [] [] ex) st); auto.
    now apply pass_inv_start. }
  assert (Hnd1 : NoDup (step_ids (ps_steps st))).
  { rewrite (step_ids_static (ps_steps st) steps); auto.
    apply (run_steps_static _ _ _ _ _ _ _ Hsteps). }
  destruct Hinv as [_ Hset].
  destruct (Hset (step_id p) p (find_step_NoDup _ _ Hnd1 Hp) Hc)
    as [_ (r & Hr & Hok & _ & Hctx)].
  assert (Hkey : no_char "." (step_result_key (step_id p)) = true).
  { unfold step_result_key.
    change ("step_" ++ PyStr.of_Z (step_id p) ++ "_result")
      with ("step_" ++ (PyStr.of_Z (step_id p) ++ "_result")).
    rewrite !no_char_app, of_Z_no_dot. reflexivity. }
  exists r. split; [exact Hr|]. split; [exact Hok|]. split; [exact Hctx|].
  split.
  - rewrite resolve_reference.
    rewrite (get_context_value_segments (step_result_key (step_id p)) []).
    + cbn [walk_path]. now rewrite Hctx.
    + now constructor.
  - intros field Hfield. rewrite resolve_reference.
    rewrite get_context_value_segments.
    + cbn [walk_path]. now rewrite Hctx.
    + repeat constructor; assumption.
Qed.

End Settled.

(** ** The executor: the summary of a run *)

Section SummaryFacts.
Import PyDict PyDictFacts.

Variable World : Type.
Variable execute_tool : string -> PyObj -> World -> ToolOutcome * World.
Variable py_str : Value -> string.

Local Notation Exec := (Executor World).
Local Notation step1 := (run_step World execute_tool py_str).
Local Notation steps_run := (run_steps World execute_tool py_str).
Local Notation exec_plan := (execute_plan World execute_tool py_str).

(** X10: a run assigns only to the status and the result of a step: the
    summary holds the steps of the plan, as many and in the same order, each
    with the identifier, description, tool, parameters and dependencies it
    came with. *)
Theorem execute_plan_keeps_the_plan
  (ex ex' : Exec) (steps : list PlanStep) (max_retries : Z) (summary : Summary) :
  exec_plan ex steps max_retries = Ok (summary, ex') ->
  map static (sum_steps summary) = map static steps /\
  step_ids (sum_steps summary) = step_ids steps /\
  sum_total_steps summary = List.length steps.
Proof.
  intros Hrun.
  destruct (execute_plan_inv _ _ _ _ _ _ _ _ Hrun)
    as (order & st' & _ & Hsteps & -> & _).
  cbn [sum_steps sum_total_steps _generate_summary].
  pose proof (run_steps_static _ _ _ _ _ _ _ Hsteps) as Hs.
  cbn [ps_steps] in Hs. split; [exact Hs|]. split.
  - now apply step_ids_static.
  - apply (f_equal (@List.length _)) in Hs. now rewrite !length_map in Hs.
Qed.

Lemma count_failed_zero (steps : list PlanStep) :
  Forall (fun p => terminal (status p)) steps ->
  (count_status failed steps = 0%nat <->
   Forall (fun p => status p = completed) steps) /\
  (count_status completed steps = List.length steps <->
   Forall (fun p => status p = completed) steps).
Proof.
  unfold count_status.
  induction 1 as [|p l Hp Hl [IH1 IH2]]; cbn [filter List.length].
  - split; split; auto.
  - pose proof (filter_length_le
                  (fun s => status_eqb (status s) completed) l) as Hle.
    destruct Hp as [Hp|Hp]; rewrite Hp; cbn [status_eqb List.length]; split; split.
    + intros E. constructor; [exact Hp|now apply IH1].
    + intros Hall. inversion Hall; subst. now apply IH1.
    + intros E. constructor; [exact Hp|]. apply IH2. lia.
    + intros Hall. inversion Hall; subst. f_equal. now apply IH2.
    + discriminate.
    + intros Hall. inversion Hall; subst. congruence.
    + intros E. lia.
    + intros Hall. inversion Hall; subst. congruence.
Qed.

(** X11: the summary of a run of a plan with unique identifiers reports
    success exactly when every step of the plan ended completed, that is,
    when its count of completed steps is the number of steps. *)
Theorem success_means_all_completed
  (ex ex' : Exec) (steps : list PlanStep) (max_retries : Z) (summary : Summary) :
  NoDup (step_ids steps) ->
  exec_plan ex steps max_retries = Ok (summary, ex') ->
  (sum_success summary = true <->
   Forall (fun p => status p = completed) (sum_steps summary)) /\
  (sum_success summary = true <->
   sum_completed summary = sum_total_steps summary).
Proof.
  intros Hnd Hrun.
  destruct (execute_plan_inv _ _ _ _ _ _ _ _ Hrun)
    as (order & st' & Hord & Hsteps & -> & _).
  destruct (resolve_dependencies_NoDup _ _ Hnd Hord) as [Hnd' Hperm].
  cbn [sum_success sum_steps sum_completed sum_total_steps _generate_summary].
  assert (Hids : step_ids (ps_steps st') = step_ids steps).
  { apply step_ids_static. apply (run_steps_static _ _ _ _ _ _ _ Hsteps). }
  assert (Hterm : Forall (fun p => terminal (status p)) (ps_steps st')).
  { apply Forall_forall. intros p Hp.
    assert (Hin : In (step_id p) order).
    { apply (Permutation_in _ (Permutation_sym Hperm)).
      rewrite <- Hids. unfold step_ids. now apply in_map. }
    destruct (run_steps_terminal _ _ _ _ _ _ _ Hnd' Hsteps _ Hin)
      as (q & Hq & Ht).
    rewrite find_step_NoDup in Hq; [|now rewrite Hids|exact Hp].
    now injection Hq as <-. }
  destruct (count_failed_zero _ Hterm) as [H1 H2].
  rewrite Nat.eqb_eq. split; [exact H1|]. now rewrite H1, H2.
Qed.

Lemma run_step_calls (max_retries : Z) (st st' : PlanState World) (id : Z) :
  step1 max_retries st id = Ok st' ->
  exists evs,
    trace (ps_exec st') = (trace (ps_exec st) ++ evs)%list /\
    (List.length (invocations evs) <= Z.to_nat (max_retries + 1))%nat.
Proof.
  intros Hrun.
  destruct (find_step id (ps_steps st)) as [step|] eqn:Hf.
  2:{ rewrite run_step_not_found in Hrun; auto. discriminate. }
  destruct (_dependencies_satisfied step (ps_steps st)) eqn:Hd.
  - destruct (run_step_attempted World execute_tool py_str max_retries st id
                step Hf Hd)
      as (atts & step' & ex' & Hr & _ & _ & Ht & _ & _ & _ & Hle & _).
    rewrite Hr in Hrun. destruct atts as [|a atts]; [discriminate|].
    injection Hrun as <-. unfold after_attempts. cbn [ps_exec].
    exists (flat_map (attempt_events step) (a :: atts)). split; [exact Ht|].
    rewrite invocations_attempt_events, length_map. exact Hle.
  - rewrite (run_step_gated World execute_tool py_str max_retries st id step
               Hf Hd) in Hrun.
    injection Hrun as <-. unfold after_gate. cbn [ps_exec trace].
    exists [EvStatus (step_id step) failed]. split; [reflexivity|].
    simpl. lia.
Qed.

Lemma run_steps_calls (max_retries : Z) (order : list Z) :
  forall st st' : PlanState World,
  steps_run max_retries order st = Ok st' ->
  exists tr,
    trace (ps_exec st') = (trace (ps_exec st) ++ tr)%list /\
    (List.length (invocations tr) <=
     Z.to_nat (max_retries + 1) * List.length order)%nat.
Proof.
  induction order as [|id order IH]; intros st st' Hrun; simpl in Hrun.
  - injection Hrun as <-. exists []. rewrite app_nil_r. simpl. split; auto. lia.
  - destruct (step1 max_retries st id) as [st1| |] eqn:H1; try discriminate.
    simpl in Hrun.
    destruct (run_step_calls _ _ _ _ H1) as (evs & Hevs & Hle).
    destruct (IH _ _ Hrun) as (tr & Htr & Hle').
    exists (evs ++ tr)%list. split.
    + now rewrite Htr, Hevs, <- app_assoc.
    + rewrite invocations_app, length_app. cbn [List.length]. lia.
Qed.

(** X12: a run of a plan with unique identifiers calls the tools at most
    [1 + max_retries] times per step of the plan, whatever the tools
    return. *)
Theorem tool_calls_are_bounded
  (ex ex' : Exec) (steps : list PlanStep) (max_retries : Z) (summary : Summary) :
  NoDup (step_ids steps) ->
  exec_plan ex steps max_retries = Ok (summary, ex') ->
  exists tr,
    trace ex' = (trace ex ++ tr)%list /\
    (List.length (invocations tr) <=
     Z.to_nat (1 + max_retries) * List.length steps)%nat.
Proof.
  intros Hnd Hrun.
  destruct (execute_plan_inv _ _ _ _ _ _ _ _ Hrun)
    as (order & st' & Hord & Hsteps & _ & ->).
  destruct (resolve_dependencies_NoDup _ _ Hnd Hord) as [_ Hperm].
  destruct (run_steps_calls _ _ _ _ Hsteps) as (tr & Htr & Hle).
  exists tr. split; [exact Htr|].
  apply Permutation_length in Hperm. unfold step_ids in Hperm.
  rewrite length_map in Hperm. rewrite <- Hperm.
  replace (1 + max_retries) with (max_retries + 1) by lia. exact Hle.
Qed.

End SummaryFacts.

(** ** The orchestration loop, further *)

Section AgentMore.
Import PyDict PyDictFacts.

Variable World : Type.
Variable execute_tool : string -> PyObj -> World -> ToolOutcome * World.
Variable py_str : Value -> string.
Variable heuristics : Heuristics.
Variable recursion_limit : nat.

Local Notation Agent := (AgenticAI World).
Local Notation step1 := (run_step World execute_tool py_str).
Local Notation steps_run := (run_steps World execute_tool py_str).
Local Notation exec_plan := (execute_plan World execute_tool py_str).
Local Notation one_turn :=
  (turn World execute_tool py_str heuristics recursion_limit).
Local Notation loop :=
  (agent_loop World execute_tool py_str heuristics recursion_limit).
Local Notation run_task :=
  (execute World execute_tool py_str heuristics recursion_limit).

(** The agent after a turn that planned and executed. *)
Local Notation after_turn a summary ex :=
  (mkAgenticAI ex (_update_context (execution_context a) summary)
               (max_iterations a) (S (plan_calls a))).

Lemma execute_plan_returns (ex : Executor World) (steps : list PlanStep)
  (max_retries : Z) :
  NoDup (step_ids steps) -> 0 <= max_retries ->
  exists summary ex', exec_plan ex steps max_retries = Ok (summary, ex').
Proof.
  intros Hnd Hmr. unfold execute_plan.
  destruct (resolve_dependencies_returns steps Hnd)
    as (kahn & _ & Hk & Hincl & ->).
  cbn [bind].
  destruct (run_steps_total World execute_tool py_str max_retries
              (kahn ++ filter (fun id => negb (mem_list id kahn)) (step_ids steps))
              (mkPlanState steps [] [] ex) Hmr) as [st' ->].
  - cbn [ps_steps]. intros x Hx. apply in_app_or in Hx as [Hx|Hx]; auto.
    now apply filter_In in Hx.
  - cbn [bind]. eauto.
Qed.

Lemma existsb_filter_nil {A : Type} (f : A -> bool) (l : list A) :
  existsb f l = negb (Nat.eqb (List.length (filter f l)) 0).
Proof.
  induction l as [|x l IH]; simpl; auto. destruct (f x); simpl; auto.
Qed.

Lemma failed_api_call_failed (steps : list PlanStep) :
  count_status failed steps = 0%nat -> existsb failed_api_call steps = false.
Proof.
  unfold count_status. induction steps as [|s l IH]; simpl; auto.
  unfold failed_api_call at 1.
  destruct (status_eqb (status s) failed); simpl; [discriminate|auto].
Qed.

(** A step whose tool fails whatever it is given ends its turn failed. *)
Lemma run_step_failing_tool (max_retries : Z) (st st' : PlanState World)
  (id : Z) (step : PlanStep) :
  step1 max_retries st id = Ok st' ->
  find_step id (ps_steps st) = Some step ->
  always_fails execute_tool (tool step) ->
  exists p, find_step id (ps_steps st') = Some p /\ status p = failed /\
            static p = static step.
Proof.
  intros Hrun Hf Hfail.
  pose proof (find_step_Some _ _ _ Hf) as [_ Hid].
  destruct (_dependencies_satisfied step (ps_steps st)) eqn:Hd.
  - destruct (run_step_attempted World execute_tool py_str max_retries st id
                step Hf Hd)
      as (atts & step' & ex' & Hr & _ & _ & _ & Hs & Hst & _ & _ & _ & Htool).
    rewrite Hr in Hrun. destruct atts as [|a0 atts]; [discriminate|].
    injection Hrun as <-.
    destruct (static_fields _ _ Hs) as (Hid' & _).
    exists step'. unfold after_attempts. cbn [ps_steps]. split; [|split].
    + rewrite <- Hid, <- Hid'. apply find_store_same with (q := step).
      now rewrite Hid', Hid.
    + rewrite Hst by discriminate. unfold outcome_status.
      assert (Hlast : In (last (a0 :: atts) ([], Raised "")) (a0 :: atts))
        by (apply last_In; discriminate).
      rewrite Forall_forall in Htool. destruct (Htool _ Hlast) as [w Hw].
      unfold last_outcome. rewrite Hw, Hfail. reflexivity.
    + exact Hs.
  - rewrite (run_step_gated World execute_tool py_str max_retries st id step
               Hf Hd) in Hrun.
    injection Hrun as <-. exists (set_status failed step).
    unfold after_gate. cbn [ps_steps]. split; [|split; reflexivity].
    rewrite <- Hid.
    apply (find_store_same (set_status failed step) step). simpl.
    now rewrite Hid.
Qed.

Lemma execute_plan_failing_tool (ex ex' : Executor World)
  (steps : list PlanStep) (max_retries : Z) (summary : Summary) (p : PlanStep) :
  NoDup (step_ids steps) ->
  exec_plan ex steps max_retries = Ok (summary, ex') ->
  In p steps -> always_fails execute_tool (tool p) ->
  exists q, In q (sum_steps summary) /\ status q = failed /\
            static q = static p.
Proof.
  intros Hnd Hrun Hp Hfail.
  destruct (execute_plan_inv _ _ _ _ _ _ _ _ Hrun)
    as (order & st' & Hord & Hsteps & -> & _).
  destruct (resolve_dependencies_NoDup _ _ Hnd Hord) as [Hnd' Hperm].
  assert (Hin : In (step_id p) order).
  { apply (Permutation_in _ (Permutation_sym Hperm)).
    unfold step_ids. now apply in_map. }
  apply in_split in Hin as (pre & post & ->).
  destruct (run_steps_at _ _ _ _ _ _ _ _ _ Hsteps)
    as (st1 & st2 & Hpre & Hstep & Hpost).
  assert (Hnpre : ~ In (step_id p) pre).
  { intros Hi. apply NoDup_remove_2 in Hnd'. apply Hnd'.
    apply in_or_app. now left. }
  assert (Hnpost : ~ In (step_id p) post).
  { intros Hi. apply NoDup_remove_2 in Hnd'. apply Hnd'.
    apply in_or_app. now right. }
  destruct (run_steps_frame World execute_tool py_str _ _ _ _ _ Hpre Hnpre)
    as (F1 & _).
  cbn [ps_steps] in F1. rewrite (find_step_NoDup _ _ Hnd Hp) in F1.
  destruct (run_step_failing_tool _ _ _ _ _ Hstep F1 Hfail)
    as (q & Hq & Hst & Hs).
  destruct (run_steps_frame World execute_tool py_str _ _ _ _ _ Hpost Hnpost)
    as (F2 & _).
  rewrite <- F2 in Hq. apply find_step_Some in Hq as [Hq _].
  exists q. cbn [sum_steps _generate_summary]. auto.
Qed.

(** What a turn of the loop comes to, once the task is planned and the plan
    executed. *)
Lemma turn_spec (a : Agent) (task : string) (iteration : Z)
  (steps : list PlanStep) (summary : Summary) (ex : Executor World) :
  Planner.plan heuristics recursion_limit task [] = Ok steps ->
  exec_plan (executor a) steps 2 = Ok (summary, ex) ->
  one_turn task iteration a =
    Ok (if existsb failed_api_call (sum_steps summary)
        then Continue World (after_turn a summary ex)
        else Break World summary (after_turn a summary ex)).
Proof.
  intros Hplan Hexec. unfold turn.
  rewrite (plan_context_any heuristics recursion_limit task
             (execution_context a) []), Hplan.
  cbn [bind].
  pose proof (plan_returns_nonempty _ _ _ _ _ Hplan) as Hne.
  destruct steps as [|s steps]; [congruence|].
  cbn [executor execution_context max_iterations plan_calls].
  rewrite Hexec. cbn [bind].
  destruct (adjust_plan_extra (sum_steps summary) (sum_results summary))
    as (extra & Hadj & Hlen & _).
  rewrite Hadj, length_app, Hlen.
  rewrite existsb_filter_nil.
  pose proof (execute_plan_inv _ _ _ _ _ _ _ _ Hexec)
    as (order & st' & _ & _ & Hsum & _).
  assert (Hflag : sum_success summary = Nat.eqb (sum_failed summary) 0)
    by (rewrite Hsum; reflexivity).
  assert (Hfailed : sum_failed summary =
                    count_status failed (sum_steps summary))
    by (rewrite Hsum; reflexivity).
  rewrite Hflag.
  destruct (Nat.eqb (sum_failed summary) 0) eqn:E.
  - apply Nat.eqb_eq in E. rewrite Hfailed in E.
    apply failed_api_call_failed in E. rewrite existsb_filter_nil in E.
    now rewrite E.
  - apply Nat.eqb_neq in E.
    replace (Nat.ltb 0 (sum_failed summary)) with true
      by (symmetry; apply Nat.ltb_lt; lia).
    destruct (List.length (filter failed_api_call (sum_steps summary)))
      as [|n] eqn:En.
    + rewrite Nat.add_0_r, Nat.eqb_refl. reflexivity.
    + replace (Nat.eqb (List.length (sum_steps summary) + S n)
                       (List.length (sum_steps summary))) with false
        by (symmetry; apply Nat.eqb_neq; lia).
      reflexivity.
Qed.

Lemma loop_turn
  (a : Agent) (task : string) (fuel : nat) (iteration : Z)
  (steps : list PlanStep) (summary : Summary) (ex : Executor World) :
  iteration < max_iterations a ->
  Planner.plan heuristics recursion_limit task [] = Ok steps ->
  exec_plan (executor a) steps 2 = Ok (summary, ex) ->
  loop (S fuel) task iteration a =
    if existsb failed_api_call (sum_steps summary)
    then loop fuel task (iteration + 1) (after_turn a summary ex)
    else Ok (Finished (sum_success summary) task (iteration + 1) (Some summary)
                      (_update_context (execution_context a) summary),
             after_turn a summary ex).
Proof.
  intros Hit Hplan Hexec. cbn [agent_loop].
  replace (iteration <? max_iterations a) with true
    by (symmetry; apply Z.ltb_lt; lia).
  rewrite (turn_spec a task (iteration + 1) steps summary ex Hplan Hexec).
  cbn [bind]. destruct (existsb failed_api_call (sum_steps summary));
    reflexivity.
Qed.

(** X13: the loop goes on to another iteration exactly when the execution
    left a failed [api_call] step.  Otherwise [execute] returns from the
    iteration, with the summary as the final result and its success flag as
    the outcome; this is so for a summary without failed step and for one
    whose failed steps are of other tools. *)
Theorem loop_goes_on_only_after_failed_api_call
  (a : Agent) (task : string) (fuel : nat) (iteration : Z)
  (steps : list PlanStep) (summary : Summary) (ex : Executor World) :
  iteration < max_iterations a ->
  Planner.plan heuristics recursion_limit task [] = Ok steps ->
  exec_plan (executor a) steps 2 = Ok (summary, ex) ->
  loop (S fuel) task iteration a =
    if existsb failed_api_call (sum_steps summary)
    then loop fuel task (iteration + 1) (after_turn a summary ex)
    else Ok (Finished (sum_success summary) task (iteration + 1) (Some summary)
                      (_update_context (execution_context a) summary),
             after_turn a summary ex).
Proof. apply loop_turn. Qed.

(** The loop from [iteration] on, for a task the planner plans. *)
Lemma agent_loop_returns (task : string) (steps : list PlanStep) :
  Planner.plan heuristics recursion_limit task [] = Ok steps ->
  forall (fuel : nat) (iteration : Z) (a : Agent),
  (Z.to_nat (max_iterations a - iteration) <= fuel)%nat ->
  exists (iterations : Z) (final_result : option Summary) (a' : Agent),
    loop fuel task iteration a =
      Ok (Finished (match final_result with
                    | Some r => sum_success r
                    | None => false
                    end)
                   task iterations final_result (execution_context a'), a') /\
    max_iterations a' = max_iterations a /\
    iterations = Z.of_nat (plan_calls a' - plan_calls a) + iteration /\
    (plan_calls a <= plan_calls a')%nat /\
    iteration <= iterations <= Z.max iteration (max_iterations a) /\
    match final_result with
    | Some r =>
        iteration < iterations /\
        existsb failed_api_call (sum_steps r) = false /\
        exists ex0 ex1, exec_plan ex0 steps 2 = Ok (r, ex1)
    | None => iterations = Z.max iteration (max_iterations a)
    end.
Proof.
  intros Hplan. pose proof (plan_planned _ _ _ _ _ Hplan) as Hp.
  assert (Hnd : NoDup (step_ids steps)) by (apply dense_ids_NoDup, Hp).
  induction fuel as [|fuel IH]; intros iteration a Hfuel.
  - assert (Hit : (iteration <? max_iterations a) = false)
      by (apply Z.ltb_ge; lia).
    exists iteration, None, a. cbn [agent_loop]. rewrite Hit.
    split; [reflexivity|]. split; [reflexivity|].
    split; [lia|]. split; [lia|]. split; lia.
  - destruct (iteration <? max_iterations a) eqn:Hit.
    2:{ apply Z.ltb_ge in Hit. exists iteration, None, a.
        cbn [agent_loop].
        replace (iteration <? max_iterations a) with false
          by (symmetry; apply Z.ltb_ge; lia).
        split; [reflexivity|]. split; [reflexivity|].
        split; [lia|]. split; [lia|]. split; lia. }
    apply Z.ltb_lt in Hit.
    destruct (execute_plan_returns (executor a) steps 2 Hnd)
      as (summary & ex & Hexec); [lia|].
    cbn [agent_loop].
    replace (iteration <? max_iterations a) with true
      by (symmetry; apply Z.ltb_lt; lia).
    rewrite (turn_spec a task (iteration + 1) steps summary ex Hplan Hexec).
    cbn [bind].
    destruct (existsb failed_api_call (sum_steps summary)) eqn:Hgo.
    + destruct (IH (iteration + 1) (after_turn a summary ex))
        as (iterations & final & a' & Hrun & Hmax & Hits & Hcalls & Hb & Hf).
      { cbn [max_iterations]. lia. }
      cbn [max_iterations plan_calls] in *.
      exists iterations, final, a'. split; [exact Hrun|].
      split; [exact Hmax|]. split; [lia|]. split; [lia|]. split; [lia|].
      destruct final as [r|]; [split; [lia|apply Hf]|lia].
    + exists (iteration + 1), (Some summary), (after_turn a summary ex).
      cbn [max_iterations plan_calls execution_context finish].
      split; [reflexivity|]. split; [reflexivity|].
      split; [lia|]. split; [lia|]. split; [lia|]. split; [lia|].
      split; [exact Hgo|eauto].
Qed.

(** X14: [execute] returns for every task the planner plans, whatever the
    tools do and whatever context it is given; it never gives the "no plan"
    answer.  It calls the planner once in each iteration, makes at least one
    iteration and at most [max_iterations], and reports success only with a
    final summary that reports it.  It has no final summary only when the
    iterations are used up. *)
Theorem execute_returns
  (a : Agent) (task : string) (context : option PyObj) (steps : list PlanStep) :
  Planner.plan heuristics recursion_limit task [] = Ok steps ->
  0 < max_iterations a ->
  exists (success : bool) (iterations : Z) (final_result : option Summary)
         (a' : Agent),
    run_task a task context =
      Ok (Finished success task iterations final_result (execution_context a'),
          a') /\
    1 <= iterations <= max_iterations a /\
    plan_calls a' = (plan_calls a + Z.to_nat iterations)%nat /\
    match final_result with
    | Some r => success = sum_success r
    | None => success = false /\ iterations = max_iterations a
    end.
Proof.
  intros Hplan Hmax. unfold execute.
  set (a0 := match context with
             | Some ((_ :: _) as context0) =>
                 mkAgenticAI (executor a)
                             (update (execution_context a) context0)
                             (max_iterations a) (plan_calls a)
             | _ => a
             end).
  assert (Ha0 : max_iterations a0 = max_iterations a /\
                plan_calls a0 = plan_calls a).
  { unfold a0. destruct context as [[|kv c]|]; auto. }
  destruct Ha0 as [Hm Hc].
  destruct (agent_loop_returns task steps Hplan
              (Z.to_nat (max_iterations a0)) 0 a0)
    as (iterations & final & a' & Hrun & _ & Hits & Hcalls & Hb & Hf); [lia|].
  exists (match final with Some r => sum_success r | None => false end),
         iterations, final, a'.
  split; [exact Hrun|]. rewrite Hm, Hc in *.
  destruct final as [r|].
  - split; [lia|]. split; [lia|reflexivity].
  - split; [lia|]. split; [lia|]. split; [reflexivity|lia].
Qed.

(** X15: when the tool [api_call] fails whatever it is given, a task whose
    plan holds an [api_call] step uses up the iterations: every iteration
    plans the same steps again and executes them again, and [execute] ends
    after [max_iterations] iterations without final result, reporting
    failure. *)
Theorem failing_api_call_uses_up_the_iterations
  (a : Agent) (task : string) (context : option PyObj) (steps : list PlanStep) :
  Planner.plan heuristics recursion_limit task [] = Ok steps ->
  (exists p, In p steps /\ tool p = "api_call") ->
  always_fails execute_tool "api_call" ->
  0 < max_iterations a ->
  exists a' : Agent,
    run_task a task context =
      Ok (Finished false task (max_iterations a) None (execution_context a'),
          a') /\
    plan_calls a' = (plan_calls a + Z.to_nat (max_iterations a))%nat.
Proof.
  intros Hplan (p & Hp & Htool) Hfail Hmax. unfold execute.
  set (a0 := match context with
             | Some ((_ :: _) as context0) =>
                 mkAgenticAI (executor a)
                             (update (execution_context a) context0)
                             (max_iterations a) (plan_calls a)
             | _ => a
             end).
  assert (Ha0 : max_iterations a0 = max_iterations a /\
                plan_calls a0 = plan_calls a).
  { unfold a0. destruct context as [[|kv c]|]; auto. }
  destruct Ha0 as [Hm Hc].
  destruct (agent_loop_returns task steps Hplan
              (Z.to_nat (max_iterations a0)) 0 a0)
    as (iterations & final & a' & Hrun & _ & Hits & Hcalls & Hb & Hf); [lia|].
  destruct final as [r|].
  - destruct Hf as (_ & Hnone & ex0 & ex1 & Hexec).
    pose proof (plan_planned _ _ _ _ _ Hplan) as Hpl.
    assert (Hnd : NoDup (step_ids steps)) by (apply dense_ids_NoDup, Hpl).
    rewrite <- Htool in Hfail.
    destruct (execute_plan_failing_tool _ _ _ _ _ _ Hnd Hexec Hp Hfail)
      as (q & Hq & Hst & Hs).
    apply static_fields in Hs as (_ & Ht & _).
    assert (Hyes : existsb failed_api_call (sum_steps r) = true).
    { apply existsb_exists. exists q. split; [exact Hq|].
      unfold failed_api_call. rewrite Hst, Ht, Htool. reflexivity. }
    congruence.
  - exists a'. rewrite Hm, Hc in *.
    assert (E : iterations = max_iterations a) by lia.
    rewrite E in Hrun. split; [exact Hrun|lia].
Qed.

End AgentMore.

(** ** The agent's context *)

Section ContextFacts.
Import PyDict PyDictFacts PyStrMore.

Lemma keys_set_incl (k k' : string) (v : Value) (d : PyObj) :
  In k (keys d) -> In k (keys (set k' v d)).
Proof.
  intros Hin. destruct (in_dec string_dec k' (keys d)) as [Hi|Hn].
  - now rewrite keys_set_present.
  - rewrite keys_set_absent by assumption. apply in_or_app. now left.
Qed.

Lemma update_from_step_keys (context : PyObj) (step_data : PlanStep)
  (k : string) :
  In k (keys context) -> In k (keys (update_from_step context step_data)).
Proof.
  intros Hin. unfold update_from_step.
  destruct (result step_data) as [[|kv r]|]; auto.
  destruct (status_eqb (status step_data) completed); auto.
  set (res := kv :: r).
  destruct (mem "search_results" res), (mem "api_response" res),
           (get "file_path" res), (get "content" res);
    repeat apply keys_set_incl; exact Hin.
Qed.

Lemma update_from_step_other (context : PyObj) (step_data : PlanStep) (id : Z) :
  step_id step_data <> id ->
  get (step_result_key id) (update_from_step context step_data) =
  get (step_result_key id) context.
Proof.
  intros Hne. unfold update_from_step.
  destruct (result step_data) as [[|kv r]|]; auto.
  destruct (status_eqb (status step_data) completed); auto.
  set (res := kv :: r).
  assert (Hstep : forall (v : Value) (d : PyObj),
             get (step_result_key id)
                 (set ("step_" ++ PyStr.of_Z (step_id step_data) ++ "_result")
                      v d) = get (step_result_key id) d).
  { intros v d. apply get_set_neq. intros E.
    apply (step_result_key_inj (step_id step_data) id) in E. congruence. }
  assert (Hlast : forall (k : string) (v : Value) (d : PyObj),
             In k ["last_file_content"; "last_file_path";
                   "last_api_response"; "last_search_results"] ->
             get (step_result_key id) (set k v d) =
             get (step_result_key id) d).
  { intros k v d Hk. apply get_set_neq. unfold step_result_key.
    simpl in Hk. destruct Hk as [<-|[<-|[<-|[<-|[]]]]]; discriminate. }
  destruct (mem "search_results" res), (mem "api_response" res),
           (get "file_path" res), (get "content" res);
    rewrite ?Hlast by (simpl; tauto); apply Hstep.
Qed.

Lemma update_from_step_own (context : PyObj) (step_data : PlanStep)
  (r : PyObj) :
  status step_data = completed -> result step_data = Some r -> r <> [] ->
  get (step_result_key (step_id step_data))
      (update_from_step context step_data) = Some (VDict r).
Proof.
  intros Hst Hr Hne. unfold update_from_step. rewrite Hr, Hst.
  destruct r as [|kv r]; [congruence|]. cbn [status_eqb].
  set (res := kv :: r).
  assert (Hlast : forall (k : string) (v : Value) (d : PyObj),
             In k ["last_file_content"; "last_file_path";
                   "last_api_response"; "last_search_results"] ->
             get (step_result_key (step_id step_data)) (set k v d) =
             get (step_result_key (step_id step_data)) d).
  { intros k v d Hk. apply get_set_neq. unfold step_result_key.
    simpl in Hk. destruct Hk as [<-|[<-|[<-|[<-|[]]]]]; discriminate. }
  destruct (mem "search_results" res), (mem "api_response" res),
           (get "file_path" res), (get "content" res);
    rewrite ?Hlast by (simpl; tauto); apply get_set_eq.
Qed.

Lemma update_context_other (steps : list PlanStep) (id : Z) :
  forall context : PyObj,
  ~ In id (step_ids steps) ->
  get (step_result_key id) (fold_left update_from_step steps context) =
  get (step_result_key id) context.
Proof.
  induction steps as [|s l IH]; intros context Hnot; simpl in *; auto.
  rewrite IH by tauto. apply update_from_step_other. tauto.
Qed.

(** X16: [_update_context] only adds to the agent's context or overwrites in
    it: no key is lost.  After it, the context holds under
    [step_<id>_result] the result of every completed step of the summary
    that has a result with at least one field (the steps having unique
    identifiers). *)
Theorem update_context_records_step_results
  (context : PyObj) (execution_result : Summary) :
  (forall k, In k (keys context) ->
             In k (keys (_update_context context execution_result))) /\
  (NoDup (step_ids (sum_steps execution_result)) ->
   forall p r, In p (sum_steps execution_result) ->
     status p = completed -> result p = Some r -> r <> [] ->
     get (step_result_key (step_id p))
         (_update_context context execution_result) = Some (VDict r)).
Proof.
  unfold _update_context. split.
  - generalize (sum_steps execution_result) as steps. intros steps.
    revert context. induction steps as [|s l IH]; intros context k Hk;
      simpl; auto.
    apply IH. now apply update_from_step_keys.
  - intros Hnd p r Hp Hst Hr Hne.
    apply in_split in Hp as (l1 & l2 & E). rewrite E in *.
    rewrite fold_left_app. cbn [fold_left].
    unfold step_ids in Hnd. rewrite map_app in Hnd. cbn [map] in Hnd.
    apply NoDup_remove_2 in Hnd.
    rewrite update_context_other.
    + now apply update_from_step_own.
    + intros Hin. apply Hnd. apply in_or_app. now right.
Qed.

End ContextFacts.

(** ** Plans whose tools succeed *)

Section Succeeding.
Import PyDict PyDictFacts.

Variable World : Type.
Variable execute_tool : string -> PyObj -> World -> ToolOutcome * World.
Variable py_str : Value -> string.

Local Notation Exec := (Executor World).
Local Notation step1 := (run_step World execute_tool py_str).
Local Notation steps_run := (run_steps World execute_tool py_str).
Local Notation exec_plan := (execute_plan World execute_tool py_str).

Lemma dependencies_satisfied_intro (step : PlanStep) (steps : list PlanStep) :
  (forall d, In d (dependencies step) ->
     exists q, find_step d steps = Some q /\ status q = completed) ->
  _dependencies_satisfied step steps = true.
Proof.
  unfold _dependencies_satisfied. intros Hall.
  destruct (dependencies step) as [|d0 deps]; auto.
  apply forallb_forall. intros d Hd.
  destruct (Hall d Hd) as (q & -> & ->). reflexivity.
Qed.

(** A step whose dependencies are satisfied and whose tool succeeds at the
    first attempt is completed by that one call. *)
Lemma run_step_first_success (max_retries : Z) (st : PlanState World)
  (id : Z) (step : PlanStep) :
  0 <= max_retries ->
  find_step id (ps_steps st) = Some step ->
  _dependencies_satisfied step (ps_steps st) = true ->
  outcome_ok
    (fst (execute_tool (tool step)
            (_resolve_parameters py_str (parameters step) (ps_context st))
            (world (ps_exec st)))) = true ->
  exists st' p e,
    step1 max_retries st id = Ok st' /\
    find_step id (ps_steps st') = Some p /\ status p = completed /\
    invocations (trace (ps_exec st')) =
      (invocations (trace (ps_exec st)) ++ [e])%list.
Proof.
  intros Hmr Hf Hd Hok.
  pose proof (find_step_Some _ _ _ Hf) as [_ Hid].
  unfold run_step. rewrite Hf, Hd. cbn [negb].
  destruct (Z.to_nat (max_retries + 1)) as [|fuel] eqn:Hfuel; [lia|].
  cbn [retry_loop].
  replace (0 <=? max_retries) with true by (symmetry; apply Z.leb_le; lia).
  rewrite (execute_step_spec World execute_tool py_str). cbv zeta.
  rewrite succeeded_outcome_result, Hok. cbn [bind].
  rewrite succeeded_outcome_result, Hok.
  eexists _, _, _. split; [reflexivity|]. cbn [ps_steps ps_exec trace].
  split; [|split].
  - rewrite <- Hid.
    apply (find_store_same
             (set_result _ (set_status (outcome_status _) step)) step).
    cbn [step_id set_result set_status]. now rewrite Hid.
  - cbn [status set_result set_status]. unfold outcome_status.
    now rewrite Hok.
  - rewrite invocations_app. reflexivity.
Qed.

(** The loop over an order in which every step comes after its
    dependencies, when every step of the plan succeeds: [done] are the
    identifiers behind, [todo] those to come. *)
Lemma run_steps_succeeding (steps : list PlanStep) (max_retries : Z) :
  0 <= max_retries -> NoDup (step_ids steps) -> closed_deps steps ->
  (forall p, In p steps -> step_succeeds execute_tool py_str p) ->
  forall (todo done : list Z) (st : PlanState World),
  NoDup (done ++ todo) -> incl (done ++ todo) (step_ids steps) ->
  respects_dependencies steps (done ++ todo) ->
  map static (ps_steps st) = map static steps ->
  (forall i, In i done ->
     exists p, find_step i (ps_steps st) = Some p /\ status p = completed) ->
  exists (st' : PlanState World) (calls : list Event),
    steps_run max_retries todo st = Ok st' /\
    (forall i, In i (done ++ todo) ->
       exists p, find_step i (ps_steps st') = Some p /\ status p = completed) /\
    invocations (trace (ps_exec st')) =
      (invocations (trace (ps_exec st)) ++ calls)%list /\
    List.length calls = List.length todo.
Proof.
  intros Hmr Hnd Hclosed Hok.
  induction todo as [|id todo IH];
    intros done st Hnd' Hincl Hresp Hstatic Hdone.
  - exists st, []. rewrite !app_nil_r in *. cbn [run_steps].
    split; [reflexivity|]. split; [exact Hdone|]. split; reflexivity.
  - (* the step of the plan, and the step as the state has it *)
    assert (Hin : In id (step_ids steps))
      by (apply Hincl, in_or_app; right; now left).
    unfold step_ids in Hin. apply in_map_iff in Hin as (p0 & Hid0 & Hp0).
    pose proof (find_step_NoDup _ _ Hnd Hp0) as Hf0. rewrite Hid0 in Hf0.
    destruct (find_step_static steps (ps_steps st) id p0 (eq_sym Hstatic) Hf0)
      as (step & Hf & Hs).
    destruct (static_fields _ _ Hs) as (_ & Htool & Hpar & Hdeps).
    assert (Hsat : _dependencies_satisfied step (ps_steps st) = true).
    { apply dependencies_satisfied_intro. intros d Hd. apply Hdone.
      rewrite Hdeps in Hd.
      destruct (Hresp p0 d done todo Hp0 Hd) as [Hbefore _].
      - now apply (Hclosed p0 Hp0).
      - now rewrite Hid0.
      - exact Hbefore. }
    destruct (run_step_first_success max_retries st id step Hmr Hf Hsat)
      as (st1 & p & e & Hrun & Hp & Hst & Hinv).
    { rewrite Htool, Hpar. now apply Hok. }
    assert (Hnot : ~ In id done).
    { intros Hi. apply NoDup_remove_2 in Hnd'. apply Hnd'.
      apply in_or_app. now left. }
    destruct (IH (done ++ [id])%list st1) as (st' & calls & Hrest & Hall & Hinv' & Hlen).
    + now rewrite <- app_assoc.
    + now rewrite <- app_assoc.
    + now rewrite <- app_assoc.
    + rewrite <- Hstatic.
      apply (run_step_static World execute_tool py_str _ _ _ _ Hrun).
    + intros i Hi. apply in_app_or in Hi as [Hi|[<-|[]]].
      * destruct (run_step_frame World execute_tool py_str _ _ _ id i Hrun)
          as (F & _); [intros ->; contradiction|].
        rewrite F. now apply Hdone.
      * eauto.
    + exists st', (e :: calls). cbn [run_steps]. rewrite Hrun. cbn [bind].
      split; [exact Hrest|]. split; [|split].
      * intros i Hi. apply Hall. now rewrite <- app_assoc.
      * rewrite Hinv', Hinv, <- app_assoc. reflexivity.
      * simpl. now rewrite Hlen.
Qed.

Lemma execute_plan_succeeding (ex : Exec) (steps : list PlanStep)
  (max_retries : Z) :
  0 <= max_retries -> NoDup (step_ids steps) -> closed_deps steps ->
  acyclic steps ->
  (forall p, In p steps -> step_succeeds execute_tool py_str p) ->
  exists (summary : Summary) (ex' : Exec) (calls : list Event),
    exec_plan ex steps max_retries = Ok (summary, ex') /\
    sum_success summary = true /\
    Forall (fun p => status p = completed) (sum_steps summary) /\
    existsb failed_api_call (sum_steps summary) = false /\
    invocations (trace ex') = (invocations (trace ex) ++ calls)%list /\
    List.length calls = List.length steps.
Proof.
  intros Hmr Hnd Hclosed Hacyc Hok.
  destruct (resolve_dependencies_topological steps Hnd)
    as (order & Hord & _ & Hnd' & Hperm & Hresp); auto.
  { intros p Hp. now apply (Hclosed p Hp). }
  destruct (run_steps_succeeding steps max_retries Hmr Hnd Hclosed Hok
              order [] (mkPlanState steps [] [] ex))
    as (st' & calls & Hrun & Hall & Hinv & Hlen); auto.
  { intros x Hx. now apply (Permutation_in _ Hperm). }
  { intros i []. }
  cbn [List.app] in Hall.
  assert (Hids : step_ids (ps_steps st') = step_ids steps).
  { apply step_ids_static.
    apply (run_steps_static World execute_tool py_str _ _ _ _ Hrun). }
  assert (Hcompleted : Forall (fun p => status p = completed) (ps_steps st')).
  { apply Forall_forall. intros p Hp.
    assert (Hin : In (step_id p) order).
    { apply (Permutation_in _ (Permutation_sym Hperm)).
      rewrite <- Hids. unfold step_ids. now apply in_map. }
    destruct (Hall _ Hin) as (q & Hq & Hst).
    rewrite find_step_NoDup in Hq; [|now rewrite Hids|exact Hp].
    now injection Hq as <-. }
  assert (Hnone : count_status failed (ps_steps st') = 0%nat).
  { unfold count_status. clear - Hcompleted.
    induction Hcompleted as [|p l Hp _ IH]; simpl; auto.
    now rewrite Hp. }
  exists (_generate_summary World (ps_exec st') (ps_steps st') (ps_results st')),
         (ps_exec st'), calls.
  unfold execute_plan. rewrite Hord. cbn [bind]. rewrite Hrun. cbn [bind].
  cbn [sum_success sum_steps _generate_summary].
  split; [reflexivity|]. split; [now rewrite Hnone|].
  split; [exact Hcompleted|]. split; [now apply failed_api_call_failed|].
  split; [exact Hinv|].
  rewrite Hlen. apply Permutation_length in Hperm. unfold step_ids in Hperm.
  now rewrite length_map in Hperm.
Qed.

(** X17: a plan without cycle, with unique identifiers and dependencies that
    are steps of the plan, each named once, in which the tool of every step
    succeeds on the step's parameters, is executed to success: every step
    ends completed, after one tool call for each step and no retry. *)
Theorem plan_of_succeeding_tools_completes (ex : Exec) (steps : list PlanStep)
  (max_retries : Z) :
  0 <= max_retries -> NoDup (step_ids steps) -> closed_deps steps ->
  acyclic steps ->
  (forall p, In p steps -> step_succeeds execute_tool py_str p) ->
  exists (summary : Summary) (ex' : Exec) (calls : list Event),
    exec_plan ex steps max_retries = Ok (summary, ex') /\
    sum_success summary = true /\
    Forall (fun p => status p = completed) (sum_steps summary) /\
    invocations (trace ex') = (invocations (trace ex) ++ calls)%list /\
    List.length calls = List.length steps.
Proof.
  intros Hmr Hnd Hclosed Hacyc Hok.
  destruct (execute_plan_succeeding ex steps max_retries Hmr Hnd Hclosed
              Hacyc Hok)
    as (summary & ex' & calls & H1 & H2 & H3 & _ & H4 & H5).
  exists summary, ex', calls. auto.
Qed.

Lemma planned_closed_deps (steps : list PlanStep) :
  planned steps -> closed_deps steps.
Proof.
  intros (Hd & _ & He) p Hp. rewrite Forall_forall in He.
  destruct (He p Hp) as [Hnd Hb]. split; [exact Hnd|].
  intros d Hin. specialize (Hb d Hin).
  assert (Hlt : step_id p < Z.of_nat (List.length steps)).
  { apply (dense_ids_bound steps (step_id p) Hd).
    unfold step_ids. now apply in_map. }
  rewrite Hd. apply in_map_iff. exists (Z.to_nat d). split; [lia|].
  apply in_seq. lia.
Qed.

End Succeeding.

Section SucceedingTask.
Import PyDict PyDictFacts.

Variable World : Type.
Variable execute_tool : string -> PyObj -> World -> ToolOutcome * World.
Variable py_str : Value -> string.
Variable heuristics : Heuristics.
Variable recursion_limit : nat.

Local Notation Agent := (AgenticAI World).
Local Notation exec_plan := (execute_plan World execute_tool py_str).
Local Notation run_task :=
  (execute World execute_tool py_str heuristics recursion_limit).

Lemma task_of_succeeding_tools
  (a : Agent) (task : string) (context : option PyObj) (steps : list PlanStep) :
  Planner.plan heuristics recursion_limit task [] = Ok steps ->
  (forall p, In p steps -> step_succeeds execute_tool py_str p) ->
  0 < max_iterations a ->
  exists (summary : Summary) (a' : Agent) (calls : list Event),
    run_task a task context =
      Ok (Finished true task 1 (Some summary) (execution_context a'), a') /\
    Forall (fun p => status p = completed) (sum_steps summary) /\
    plan_calls a' = S (plan_calls a) /\
    invocations (trace (executor a')) =
      (invocations (trace (executor a)) ++ calls)%list /\
    List.length calls = List.length steps.
Proof.
  intros Hplan Hok Hmax.
  pose proof (plan_planned _ _ _ _ _ Hplan) as Hp.
  set (a0 := match context with
             | Some ((_ :: _) as context0) =>
                 mkAgenticAI (executor a)
                             (update (execution_context a) context0)
                             (max_iterations a) (plan_calls a)
             | _ => a
             end).
  assert (Ha0 : max_iterations a0 = max_iterations a /\
                plan_calls a0 = plan_calls a /\ executor a0 = executor a).
  { unfold a0. destruct context as [[|kv c]|]; auto. }
  destruct Ha0 as (Hm & Hc & He).
  destruct (execute_plan_succeeding World execute_tool py_str (executor a0)
              steps 2)
    as (summary & ex' & calls & Hrun & Hsucc & Hall & Hno & Hinv & Hlen).
  - lia.
  - apply dense_ids_NoDup, Hp.
  - now apply planned_closed_deps.
  - now apply planned_acyclic.
  - exact Hok.
  - exists summary,
      (mkAgenticAI ex' (_update_context (execution_context a0) summary)
                   (max_iterations a0) (S (plan_calls a0))),
      calls.
    cbn [execution_context plan_calls executor].
    split; [|split; [exact Hall|split; [now rewrite Hc|split]]].
    + unfold execute. fold a0.
      destruct (Z.to_nat (max_iterations a0)) as [|fuel] eqn:Hfuel; [lia|].
      rewrite (loop_turn World execute_tool py_str heuristics recursion_limit
                 a0 task fuel 0 steps summary ex'); [|lia|exact Hplan|exact Hrun].
      rewrite Hno, Hsucc. reflexivity.
    + rewrite <- He. exact Hinv.
    + exact Hlen.
Qed.

(** X18: a task planned as steps whose tools succeed on their parameters is
    done in the first iteration: [execute] reports success with the summary
    of that execution, in which every step is completed, after one tool call
    for each step of the plan. *)
Theorem task_of_succeeding_tools_succeeds
  (a : Agent) (task : string) (context : option PyObj) (steps : list PlanStep) :
  Planner.plan heuristics recursion_limit task [] = Ok steps ->
  (forall p, In p steps -> step_succeeds execute_tool py_str p) ->
  0 < max_iterations a ->
  exists (summary : Summary) (a' : Agent) (calls : list Event),
    run_task a task context =
      Ok (Finished true task 1 (Some summary) (execution_context a'), a') /\
    Forall (fun p => status p = completed) (sum_steps summary) /\
    plan_calls a' = S (plan_calls a) /\
    invocations (trace (executor a')) =
      (invocations (trace (executor a)) ++ calls)%list /\
    List.length calls = List.length steps.
Proof. apply task_of_succeeding_tools. Qed.

End SucceedingTask.

(** ** The tools *)

Section ToolFacts.
Import PyDict PyDictFacts.

Variable World : Type.
Variable py_str : Value -> string.
Variable type_error : string -> PyObj -> string.
Variable attribute_error : Value -> string -> string.
Variable file_read_execute : PyObj -> World -> ToolOutcome * World.
Variable file_write_execute : PyObj -> World -> ToolOutcome * World.
Variable file_list_execute : PyObj -> World -> ToolOutcome * World.
Variable api_call_execute : PyObj -> World -> ToolOutcome * World.
Variable calculate_execute : PyObj -> World -> ToolOutcome * World.
Variable json_parse_execute : PyObj -> World -> ToolOutcome * World.
Variable subprocess_run : string -> World -> Tools.Completed * World.

Local Notation registry :=
  (Tools.new_registry World py_str type_error attribute_error
     file_read_execute file_write_execute file_list_execute api_call_execute
     calculate_execute json_parse_execute subprocess_run).
Local Notation execute_tool := (Tools.execute_tool World py_str type_error).
Local Notation web_search_tool := (Tools.WebSearchTool World py_str type_error).
Local Notation system_command_tool :=
  (Tools.SystemCommandTool World type_error attribute_error subprocess_run).

(** X19: the registry [ToolRegistry()] holds the tools the planner knows,
    under the same names and in the same order, so every step of a plan the
    planner returns names a registered tool. *)
Theorem planned_tools_are_registered (h : Heuristics) (fuel : nat)
  (task : string) (context : PyObj) (steps : list PlanStep) :
  Planner.plan h fuel task context = Ok steps ->
  keys registry = available_tools /\
  Forall (fun p => exists t, Tools.get_tool World (tool p) registry = Some t /\
                             Tools.name t = tool p) steps.
Proof.
  intros Hplan. split; [reflexivity|].
  destruct (plan_planned _ _ _ _ _ Hplan) as (_ & Hfresh & _).
  eapply Forall_impl; [|exact Hfresh].
  intros p (_ & _ & Htool & _). unfold available_tools in Htool.
  simpl in Htool.
  repeat (destruct Htool as [<-|Htool]; [eexists; split; reflexivity|]).
  contradiction.
Qed.

(** A name the registry does not hold is answered with a failure result,
    whatever the arguments, and the world is left as it is. *)
Lemma unregistered_tool_always_fails (self : Tools.ToolRegistry World)
  (tool_name : string) :
  Tools.get_tool World tool_name self = None ->
  always_fails (execute_tool self) tool_name /\
  forall kwargs w, snd (execute_tool self tool_name kwargs w) = w.
Proof.
  intros Hnone. split.
  - intros kwargs w. unfold Tools.execute_tool. rewrite Hnone.
    destruct (mem "self" kwargs || mem "tool_name" kwargs)%bool; reflexivity.
  - intros kwargs w. unfold Tools.execute_tool. rewrite Hnone.
    destruct (mem "self" kwargs || mem "tool_name" kwargs)%bool; reflexivity.
Qed.

(** The first word of a command that starts with a word of the safe list
    and a space. *)
Lemma split_safe_word (word rest : string) :
  In word Tools.safe_commands ->
  PyStr.split (word ++ " " ++ rest) = word :: PyStr.split rest.
Proof.
  unfold Tools.safe_commands. simpl.
  intros [<-|[<-|[<-|[<-|[<-|[<-|[]]]]]]]; reflexivity.
Qed.

Lemma system_command_runs (command : string) (w : World) :
  match PyStr.split command with
  | first :: _ => In first Tools.safe_commands
  | [] => True
  end ->
  Tools.system_command World attribute_error subprocess_run (VStr command) w =
  (Returned (Tools.shell_result command (fst (subprocess_run command w))),
   snd (subprocess_run command w)).
Proof.
  intros Hsafe. unfold Tools.system_command.
  destruct (PyStr.split command) as [|first others].
  - now destruct (subprocess_run command w).
  - apply mem_list_In in Hsafe. rewrite Hsafe. cbn [negb].
    now destruct (subprocess_run command w).
Qed.

(** X20: [SystemCommandTool] checks the first word of the command and nothing
    else.  A command whose first word is not in the safe list is refused and
    the shell is not run; a command that starts with a word of the list and
    a space is handed to the shell whole, whatever follows the word; so is
    a command without any word. *)
Theorem system_command_checks_the_first_word_only
  (kwargs : PyObj) (command : string) (w : World) :
  mem "self" kwargs = false ->
  get "command" kwargs = Some (VStr command) ->
  (forall first others,
     PyStr.split command = first :: others ->
     ~ In first Tools.safe_commands ->
     Tools.execute system_command_tool kwargs w =
       (Returned
          [("success", VBool false);
           ("error",
            VStr ("Command '" ++ first ++
                  "' not in safe list. Allowed: ['ls', 'dir', 'pwd', 'echo', 'date', 'whoami']"))],
        w)) /\
  (forall word rest,
     In word Tools.safe_commands -> command = word ++ " " ++ rest ->
     Tools.execute system_command_tool kwargs w =
       (Returned (Tools.shell_result command (fst (subprocess_run command w))),
        snd (subprocess_run command w))) /\
  (PyStr.split command = [] ->
     Tools.execute system_command_tool kwargs w =
       (Returned (Tools.shell_result command (fst (subprocess_run command w))),
        snd (subprocess_run command w))).
Proof.
  intros Hself Hcommand.
  assert (Hexec : Tools.execute system_command_tool kwargs w =
                  Tools.system_command World attribute_error subprocess_run
                    (VStr command) w).
  { cbn [Tools.execute Tools.SystemCommandTool].
    unfold Tools.system_command_execute. now rewrite Hself, Hcommand. }
  rewrite Hexec. split; [|split].
  - intros first others Hsplit Hnot. unfold Tools.system_command.
    rewrite Hsplit. apply mem_list_false in Hnot. now rewrite Hnot.
  - intros word rest Hword ->. apply system_command_runs.
    now rewrite split_safe_word.
  - intros Hsplit. apply system_command_runs. now rewrite Hsplit.
Qed.

(** X21: the command of the planner's generic plan, [echo '<task>'], always
    passes the check of [SystemCommandTool]: the text of the task reaches
    the shell between the quotes, as it is. *)
Theorem generic_plan_command_reaches_the_shell
  (task : string) (start_id : Z) (p : PlanStep) (w : World) :
  In p (Planner._create_generic_plan task start_id) ->
  tool p = "system_command" ->
  parameters p = [("command", VStr ("echo '" ++ task ++ "'"))] /\
  Tools.execute system_command_tool (parameters p) w =
    (Returned (Tools.shell_result ("echo '" ++ task ++ "'")
                 (fst (subprocess_run ("echo '" ++ task ++ "'") w))),
     snd (subprocess_run ("echo '" ++ task ++ "'") w)).
Proof.
  intros Hin Htool.
  assert (Hp : parameters p = [("command", VStr ("echo '" ++ task ++ "'"))]).
  { unfold Planner._create_generic_plan in Hin.
    destruct (PyStr.contains "file" (PyStr.lower task));
      [|destruct (existsb _ _)];
      destruct Hin as [<-|[]]; try discriminate Htool; reflexivity. }
  split; [exact Hp|]. rewrite Hp.
  cbn [Tools.execute Tools.SystemCommandTool].
  unfold Tools.system_command_execute. cbn [mem get keqb EqKey_string].
  change (String.eqb "self" "command") with false.
  change (String.eqb "command" "command") with true. cbv iota.
  apply system_command_runs.
  change ("echo '" ++ task ++ "'") with ("echo" ++ " " ++ ("'" ++ task ++ "'")).
  rewrite split_safe_word; [|simpl; tauto]. simpl. tauto.
Qed.

(** X22: a web search succeeds whatever the query, with two results, and
    leaves the world as it is.  The executor copies the results to the
    running context, under [search_results]; the agent's [_update_context]
    never copies them to [last_search_results], because it looks for
    [search_results] in the result, where the field is [results]. *)
Theorem web_search_results_are_not_kept_as_last
  (kwargs : PyObj) (query : Value) (w : World) :
  mem "self" kwargs = false ->
  get "query" kwargs = Some query ->
  exists (r : PyObj) (results : list Value),
    Tools.execute web_search_tool kwargs w = (Returned r, w) /\
    succeeded r = true /\
    get "results" r = Some (VList results) /\
    List.length results = 2%nat /\
    get "count" r = Some (VInt 2) /\
    get "search_results" (_extract_context r) = Some (VList results) /\
    forall (context : PyObj) (step_data : PlanStep),
      result step_data = Some r ->
      get "last_search_results" (update_from_step context step_data) =
      get "last_search_results" context.
Proof.
  intros Hself Hquery.
  eexists (Tools.web_search py_str query), _.
  split; [|split; [|split; [|split; [|split; [|split]]]]].
  - cbn [Tools.execute Tools.WebSearchTool]. unfold Tools.web_search_execute.
    now rewrite Hself, Hquery.
  - reflexivity.
  - reflexivity.
  - reflexivity.
  - reflexivity.
  - reflexivity.
  - intros context step_data Hr. unfold update_from_step. rewrite Hr.
    unfold Tools.web_search at 1.
    destruct (status_eqb (status step_data) completed); [|reflexivity].
    cbn [get mem keqb EqKey_string].
    change (String.eqb "content" "success") with false.
    cbn.
    apply get_set_neq. discriminate.
Qed.

Lemma web_search_step_succeeds (p : PlanStep) :
  fresh_step p -> tool p = "web_search" ->
  step_succeeds (execute_tool registry) py_str p.
Proof.
  intros (_ & _ & _ & Hpar) Htool context w. rewrite Htool in *.
  assert (Hk : keys (parameters p) = ["query"]).
  { unfold tool_parameters in Hpar. simpl in Hpar.
    repeat (destruct Hpar as [Hpar|Hpar]; [try discriminate Hpar|]);
      [|contradiction].
    now injection Hpar as <-. }
  destruct (parameters p) as [|[k v] [|kv l]]; try discriminate Hk.
  injection Hk as ->. reflexivity.
Qed.

(** X23: with the tools of [ToolRegistry()], a task the planner plans as web
    searches only is done in the first iteration, whatever its text and
    whatever the context: every search is called once and succeeds, and
    [execute] reports success. *)
Theorem web_search_task_succeeds
  (heuristics : Heuristics) (recursion_limit : nat) (a : AgenticAI World)
  (task : string) (context : option PyObj) (steps : list PlanStep) :
  Planner.plan heuristics recursion_limit task [] = Ok steps ->
  Forall (fun p => tool p = "web_search") steps ->
  0 < max_iterations a ->
  exists (summary : Summary) (a' : AgenticAI World) (calls : list Event),
    execute World (execute_tool registry) py_str heuristics recursion_limit
            a task context =
      Ok (Finished true task 1 (Some summary) (execution_context a'), a') /\
    Forall (fun p => status p = completed) (sum_steps summary) /\
    invocations (trace (executor a')) =
      (invocations (trace (executor a)) ++ calls)%list /\
    List.length calls = List.length steps.
Proof.
  intros Hplan Hall Hmax.
  destruct (plan_planned _ _ _ _ _ Hplan) as (_ & Hfresh & _).
  rewrite Forall_forall in Hall, Hfresh.
  destruct (task_of_succeeding_tools World (execute_tool registry) py_str
              heuristics recursion_limit a task context steps Hplan)
    as (summary & a' & calls & Hrun & Hdone & _ & Hinv & Hlen).
  - intros p Hp. apply web_search_step_succeeds; auto.
  - exact Hmax.
  - exists summary, a', calls. auto.
Qed.

End ToolFacts.

(** ** The properties on the example world *)

Section Examples.
Import PyDict.

Local Notation ex0 := (new_executor Demo.World 0%nat).

(** With [a] and [b] both in the context, "${a} and ${b}" is absent. *)
Lemma whole_value_reference_is_one_lookup_witness :
  resolve_value Demo.py_str (VStr "${a} and ${b}")
                [("a", VStr "x"); ("b", VStr "y")] = VNone.
Proof.
  destruct (whole_value_reference_is_one_lookup Demo.py_str "${a} and ${b}"
              [("a", VStr "x"); ("b", VStr "y")]) as (_ & H & _).
  destruct (H "a} and ${b" eq_refl) as [_ Habsent].
  apply Habsent. reflexivity.
Defined.

(** The service is busy during the three attempts of the run and would
    answer the fourth: it does not fail whatever it is given, it fails on
    every attempt, and the attempts are three. *)
Lemma retry_bound_witness :
  exists summary ex' atts,
    Demo.run ex0 Demo.flaky_plan 2 = Ok (summary, ex') /\
    records_of 0 (sum_execution_history summary) =
      map (attempt_record Demo.flaky_call) atts /\
    all_failed atts /\
    Z.of_nat (List.length atts) = 3 /\
    ~ always_fails Demo.execute_tool "flaky".
Proof.
  destruct (Demo.run ex0 Demo.flaky_plan 2) as [[summary ex']| |] eqn:Hrun;
    try (vm_compute in Hrun; discriminate Hrun).
  destruct (retry_bound Demo.World Demo.execute_tool Demo.py_str
              ex0 ex' Demo.flaky_plan 2 summary 0
              (mkPlanState Demo.flaky_plan [] [] ex0) Demo.flaky_call)
    as (atts & Hrec & _ & _ & _ & _ & _ & Hexact & _ & _).
  - repeat constructor. simpl. tauto.
  - exact Hrun.
  - exists [0], [], []. split; [reflexivity|]. split; reflexivity.
  - reflexivity.
  - reflexivity.
  - assert (Hst : map rec_status (records_of 0 (sum_execution_history summary)) =
                  [failed; failed; failed]).
    { pose proof Hrun as Hc. vm_compute in Hc. injection Hc as <- _.
      reflexivity. }
    assert (Hrec' : records_of 0 (sum_execution_history summary) =
                    map (attempt_record Demo.flaky_call) atts) by exact Hrec.
    assert (Hall : all_failed atts).
    { rewrite Hrec', map_map in Hst. clear - Hst.
      assert (Hone : forall a : Attempt,
                rec_status (attempt_record Demo.flaky_call a) = failed ->
                outcome_ok (snd a) = false).
      { intros a. cbn [rec_status attempt_record]. unfold outcome_status.
        destruct (outcome_ok (snd a)); [discriminate|reflexivity]. }
      destruct atts as [|a1 [|a2 [|a3 [|a4 l]]]]; try discriminate Hst.
      cbn [map] in Hst. injection Hst as H1 H2 H3.
      repeat constructor; apply Hone; assumption. }
    exists summary, ex', atts. split; [reflexivity|]. split; [exact Hrec'|].
    split; [exact Hall|]. split; [exact (Hexact Hall)|].
    intros Hfails. specialize (Hfails [] 3%nat). discriminate Hfails.
Defined.

(** The step behind the failed read is failed and never called. *)
Lemma dependency_gate_witness :
  exists summary ex' p,
    Demo.run ex0 Demo.gated_plan 2 = Ok (summary, ex') /\
    find_step 1 (sum_steps summary) = Some p /\ status p = failed /\
    get 1 (sum_results summary) = Some dependencies_error /\
    records_of 1 (sum_execution_history summary) = [] /\
    invocations_of 1 (trace ex') = [].
Proof.
  destruct (Demo.run ex0 Demo.gated_plan 2) as [[summary ex']| |] eqn:Hrun;
    try (vm_compute in Hrun; discriminate Hrun).
  destruct (Demo.run_order 2 [0] (mkPlanState Demo.gated_plan [] [] ex0)) as [st| |] eqn:Hpre;
    try (vm_compute in Hpre; discriminate Hpre).
  assert (Hst : find_step 0 (ps_steps st) =
                Some (set_result
                        [("success", VBool false);
                         ("error", VStr "No such file or directory");
                         ("file_path", VStr "missing.txt")]
                        (set_status failed Demo.read_missing)) /\
                find_step 1 (ps_steps st) = Some Demo.write_after_read).
  { vm_compute in Hpre. injection Hpre as <-. split; reflexivity. }
  destruct Hst as [Hst0 Hst1].
  destruct (dependency_gate Demo.World Demo.execute_tool Demo.py_str
              ex0 ex' Demo.gated_plan 2 summary 1 st Demo.write_after_read 0)
    as ((p & Hp & Hfailed & _) & Hres & Hrec & Hinv).
  - repeat constructor; simpl; intuition discriminate.
  - exact Hrun.
  - exists [0; 1], [0], []. split; [reflexivity|]. split; [reflexivity|exact Hpre].
  - exact Hst1.
  - simpl. auto.
  - right. eexists. split; [exact Hst0|]. discriminate.
  - exists summary, ex', p. split; [reflexivity|]. split; [exact Hp|].
    split; [exact Hfailed|]. split; [exact Hres|].
    split; [exact Hrec|exact Hinv].
Defined.

(** A plan with a cycle: the free step first, then the two of the cycle in
    the order of the plan. *)
Lemma execute_plan_attempts_every_step_once_witness :
  exists summary ex',
    Demo.run ex0 Demo.cyclic_plan 2 = Ok (summary, ex') /\
    _resolve_dependencies Demo.cyclic_plan = Ok [2; 0; 1] /\
    keys (sum_results summary) = [2; 0; 1] /\
    sum_pending summary = 0%nat.
Proof.
  destruct (execute_plan_attempts_every_step_once Demo.World Demo.execute_tool
              Demo.py_str ex0 Demo.cyclic_plan 2)
    as (kahn & order & summary & ex' & _ & Hres & _ & _ & _ & Hrun & Hkeys
        & _ & Hpend & _).
  - repeat constructor; simpl; intuition discriminate.
  - lia.
  - exists summary, ex'.
    assert (E : order = [2; 0; 1]) by (vm_compute in Hres; congruence).
    subst order. auto.
Defined.

(** C5: the update of the context for a retry has no effect.  Before each
    retry the loop merges into the context what [_extract_context] takes
    from the result of the failed attempt, and [_extract_context] takes
    nothing from a result that is not successful: the merge leaves every
    context as it was, whatever fields the failed result carries.  So
    [file_read] on a missing file fails with a result that carries
    [file_path]; after the three attempts the running context still has no
    [file_path], and no retry saw it: the parameter [${file_path}] was
    absent in every attempt. *)
Lemma failed_attempt_fields_not_in_context :
  (forall result context : PyObj,
     succeeded result = false ->
     update context (_extract_context result) = context) /\
  exists st r,
    Demo.run_order 2 [0] (mkPlanState Demo.missing_file_plan [] [] ex0) = Ok st /\
    get 0 (ps_results st) = Some r /\
    succeeded r = false /\
    get "file_path" r = Some (VStr "missing.txt") /\
    get "file_path" (ps_context st) = None /\
    map rec_parameters (execution_history (ps_exec st)) =
      [ [("file_path", VStr "missing.txt"); ("seen", VNone)];
        [("file_path", VStr "missing.txt"); ("seen", VNone)];
        [("file_path", VStr "missing.txt"); ("seen", VNone)] ].
Proof.
  split.
  { intros result context Hfailed.
    now rewrite (extract_context_failed result Hfailed). }
  eexists. eexists. split; [vm_compute; reflexivity|].
  cbn [ps_results ps_context ps_exec execution_history].
  split; [reflexivity|]. split; [reflexivity|]. split; [reflexivity|].
  split; reflexivity.
Qed.

(** The result of a successful calculation is in the context. *)
Lemma context_extraction_on_success_witness :
  exists st,
    run_step Demo.World Demo.execute_tool Demo.py_str 2
             (mkPlanState Demo.calculation_plan [] [] ex0) 0 = Ok st /\
    get "calculation_result" (ps_context st) = Some (VInt 42) /\
    get "step_0_result" (ps_context st) =
      Some (VDict [("success", VBool true); ("result", VInt 42);
                   ("expression", VStr "6 * 7")]).
Proof.
  destruct (run_step Demo.World Demo.execute_tool Demo.py_str 2
              (mkPlanState Demo.calculation_plan [] [] ex0) 0)
    as [st| |] eqn:Hstep; try (vm_compute in Hstep; discriminate Hstep).
  destruct (context_extraction_on_success Demo.World Demo.execute_tool
              Demo.py_str 2 _ st 0
              [("success", VBool true); ("result", VInt 42);
               ("expression", VStr "6 * 7")] Hstep) as [Hok _].
  - vm_compute in Hstep. injection Hstep as <-. reflexivity.
  - destruct (Hok eq_refl) as [Hkey Hfields].
    exists st. split; [reflexivity|]. split; [|exact Hkey].
    apply (Hfields "result" "calculation_result"); [|reflexivity].
    simpl. auto 10.
Defined.

(** C8 fails as stated: the retried step goes from failed back to
    in_progress, twice, and the step behind it goes from pending to failed
    without being in progress. *)
Lemma retry_and_gate_leave_the_specified_transitions :
  exists summary ex',
    Demo.run ex0 Demo.gated_plan 2 = Ok (summary, ex') /\
    statuses_of 0 (trace ex') =
      [in_progress; failed; in_progress; failed; in_progress; failed] /\
    statuses_of 1 (trace ex') = [failed] /\
    chain spec_transition (pending :: statuses_of 0 (trace ex')) = false /\
    chain spec_transition (pending :: statuses_of 1 (trace ex')) = false.
Proof.
  eexists. eexists. split; [vm_compute; reflexivity|].
  cbn [trace]. split; [reflexivity|]. split; [reflexivity|].
  split; reflexivity.
Qed.

(** The same run, within the transitions of a pass, each step in its own
    turn. *)
Lemma status_transitions_in_pass_witness :
  exists summary ex',
    Demo.run ex0 Demo.gated_plan 2 = Ok (summary, ex') /\
    chain pass_transition (pending :: statuses_of 0 (trace ex')) = true /\
    chain pass_transition (pending :: statuses_of 1 (trace ex')) = true /\
    single_turn 2 Demo.read_missing (trace ex') /\
    single_turn 2 Demo.write_after_read (trace ex').
Proof.
  destruct (Demo.run ex0 Demo.gated_plan 2) as [[summary ex']| |] eqn:Hrun;
    try (vm_compute in Hrun; discriminate Hrun).
  destruct (status_transitions_in_pass Demo.World Demo.execute_tool Demo.py_str
              ex0 ex' Demo.gated_plan 2 summary) as (tr & Htr & _ & Hall).
  - repeat constructor; simpl; intuition discriminate.
  - repeat constructor.
  - exact Hrun.
  - simpl in Htr. subst tr. exists summary, ex'. split; [reflexivity|].
    destruct (Hall Demo.read_missing) as (H0 & _ & T0); [simpl; auto|].
    destruct (Hall Demo.write_after_read) as (H1 & _ & T1); [simpl; auto|].
    split; [exact H0|]. split; [exact H1|]. split; [exact T0|exact T1].
Defined.

(** C9 fails as stated: a second run on the same executor makes one tool
    call, and the history its summary carries has two records, the first from
    the run before. *)
Lemma history_keeps_records_of_earlier_runs :
  exists s1 ex1 s2 ex2,
    Demo.run ex0 Demo.calculation_plan 2 = Ok (s1, ex1) /\
    Demo.run ex1 Demo.calculation_plan 2 = Ok (s2, ex2) /\
    List.length (sum_execution_history s1) = 1%nat /\
    List.length (invocations (skipn (List.length (trace ex1)) (trace ex2))) = 1%nat /\
    List.length (sum_execution_history s2) = 2%nat.
Proof.
  eexists. eexists. eexists. eexists.
  split; [vm_compute; reflexivity|]. split; [vm_compute; reflexivity|].
  cbn [sum_execution_history trace]. split; [reflexivity|]. split; reflexivity.
Qed.

(** The second run adds its own record after the first run's. *)
Lemma history_is_prior_records_then_one_per_call_witness :
  exists s1 ex1 s2 ex2 new tr,
    Demo.run ex0 Demo.calculation_plan 2 = Ok (s1, ex1) /\
    Demo.run ex1 Demo.calculation_plan 2 = Ok (s2, ex2) /\
    sum_execution_history s2 = (sum_execution_history s1 ++ new)%list /\
    trace ex2 = (trace ex1 ++ tr)%list /\
    Forall2 (record_matches Demo.calculation_plan) new (invocations tr).
Proof.
  destruct (Demo.run ex0 Demo.calculation_plan 2) as [[s1 ex1]| |] eqn:Hrun1;
    try (vm_compute in Hrun1; discriminate Hrun1).
  destruct (Demo.run ex1 Demo.calculation_plan 2) as [[s2 ex2]| |] eqn:Hrun2;
    try (vm_compute in Hrun1; injection Hrun1 as <- <-;
         vm_compute in Hrun2; discriminate Hrun2).
  destruct (history_is_prior_records_then_one_per_call Demo.World
              Demo.execute_tool Demo.py_str ex0 ex1 Demo.calculation_plan 2 s1
              Hrun1) as (new1 & tr1 & _ & Hh1 & _).
  destruct (history_is_prior_records_then_one_per_call Demo.World
              Demo.execute_tool Demo.py_str ex1 ex2 Demo.calculation_plan 2 s2
              Hrun2) as (new & tr & Hh & _ & Ht & Hall).
  exists s1, ex1, s2, ex2, new, tr.
  split; [reflexivity|]. split; [exact Hrun2|].
  rewrite <- Hh1. auto.
Defined.

(** Listing files with no such tool: one plan, three attempts, no
    alternative, and the loop returns in its first iteration. *)
Lemma stall_ends_the_loop_witness :
  exists summary a',
    execute Demo.World Demo.execute_tool Demo.py_str Demo.heuristics 5
            (new_agent Demo.World 0%nat) "list files" None =
      Ok (Finished false "list files" 1 (Some summary)
                   (execution_context a'), a') /\
    sum_failed summary = 1%nat /\
    plan_calls a' = 1%nat /\
    List.length (invocations (trace (executor a'))) = 3%nat.
Proof.
  set (a := new_agent Demo.World 0%nat).
  destruct (Planner.plan Demo.heuristics 5 "list files" (execution_context a))
    as [steps| |] eqn:Hplan; try (vm_compute in Hplan; discriminate Hplan).
  destruct (Demo.run (executor a) steps 2) as [[summary ex]| |] eqn:Hrun;
    try (vm_compute in Hplan; injection Hplan as <-;
         vm_compute in Hrun; discriminate Hrun).
  assert (Hval : sum_failed summary = 1%nat /\
                 List.length (Planner.adjust_plan (sum_steps summary)
                                (sum_results summary)) =
                   List.length (sum_steps summary) /\
                 List.length (invocations (trace ex)) = 3%nat).
  { vm_compute in Hplan. injection Hplan as <-.
    vm_compute in Hrun. injection Hrun as <- <-.
    split; [reflexivity|]. split; reflexivity. }
  destruct Hval as (Hfailed & Hlen & Hcalls).
  pose proof (stall_ends_the_loop Demo.World Demo.execute_tool Demo.py_str
                Demo.heuristics 5 a "list files" 9 0 steps summary ex) as H.
  exists summary,
    (mkAgenticAI ex (_update_context (execution_context a) summary)
                 (max_iterations a) (S (plan_calls a))).
  split.
  - unfold execute. change (Z.to_nat (max_iterations a)) with 10%nat.
    apply H.
    + reflexivity.
    + exact Hplan.
    + exact Hrun.
    + rewrite Hfailed. lia.
    + exact Hlen.
  - cbn [plan_calls executor]. auto.
Defined.

(** C3 fails on the code: the plan 0 <- 1 <- 2, each dependency written
    twice, has unique identifiers and no cycle, and the order computed for it
    puts step 0 before step 1, on which it depends.  The in-degree of a step
    counts every entry of its dependency list, and the pass that follows a
    pop takes one from it for the whole list, so that step 1 never reaches
    zero.  Executed in that order, step 0 fails for unsatisfied dependencies
    although every tool succeeds. *)
Theorem doubled_dependency_breaks_the_order :
  NoDup (step_ids Demo.doubled_plan) /\
  acyclic Demo.doubled_plan /\
  dep_edge Demo.doubled_plan 1 0 /\
  _resolve_dependencies Demo.doubled_plan = Ok [2; 0; 1] /\
  occurs_before 0 1 [2; 0; 1] /\
  exists summary ex',
    Demo.run ex0 Demo.doubled_plan 2 = Ok (summary, ex') /\
    get 0 (sum_results summary) = Some dependencies_error /\
    sum_failed summary = 1%nat.
Proof.
  split; [repeat constructor; simpl; intuition discriminate|].
  split; [|split; [|split; [|split]]].
  - assert (Hrank : forall d s, dep_edge Demo.doubled_plan d s -> s < d).
    { intros d s (p & Hp & <- & Hd & _). simpl in Hp.
      destruct Hp as [<-|[<-|[<-|[]]]]; simpl in *; intuition lia. }
    assert (Htrans : forall x y,
               clos_trans Z (dep_edge Demo.doubled_plan) x y -> y < x).
    { induction 1; [auto|lia]. }
    intros x Hx. apply Htrans in Hx. lia.
  - exists (new_step 0 "Calculate: 1 + 1" "calculate" [] [1; 1]).
    simpl. auto 10.
  - reflexivity.
  - exists [2], [1]. simpl. auto.
  - eexists. eexists. split; [vm_compute; reflexivity|].
    split; reflexivity.
Qed.

(** *** The further properties *)

Local Notation agent0 := (new_agent Demo.World 0%nat).
Local Notation demo_plan := (Planner.plan Demo.heuristics 5).
Local Notation demo_execute :=
  (execute Demo.World Demo.execute_tool Demo.py_str Demo.heuristics 5).
Local Notation demo_loop :=
  (agent_loop Demo.World Demo.execute_tool Demo.py_str Demo.heuristics 5).

(** "fetch data then search for cats" is planned as the two steps of the
    whole task, an [api_call] and a [web_search], followed by the steps of
    its two parts, each depending on all the steps before it. *)
Lemma plan_returns_planned_witness :
  exists steps,
    demo_plan Demo.fetch_then_search [] = Ok steps /\
    map tool steps = ["api_call"; "web_search"; "api_call"; "web_search"] /\
    step_ids steps = [0; 1; 2; 3] /\
    Forall fresh_step steps.
Proof.
  destruct (demo_plan Demo.fetch_then_search []) as [steps| |] eqn:Hplan;
    try (vm_compute in Hplan; discriminate Hplan).
  destruct (plan_returns_planned Demo.heuristics 5 Demo.fetch_then_search []
              steps Hplan) as (Hids & Hfresh & _).
  exists steps. split; [reflexivity|].
  assert (Ht : map tool steps =
               ["api_call"; "web_search"; "api_call"; "web_search"])
    by (vm_compute in Hplan; injection Hplan as <-; reflexivity).
  split; [exact Ht|]. split; [|exact Hfresh].
  rewrite Hids. apply (f_equal (@List.length _)) in Ht.
  rewrite length_map in Ht. rewrite Ht. reflexivity.
Defined.

Lemma planner_plans_are_ordered_witness :
  exists steps,
    demo_plan Demo.fetch_then_search [] = Ok steps /\
    _resolve_dependencies steps = Ok [0; 1; 2; 3].
Proof.
  destruct (demo_plan Demo.fetch_then_search []) as [steps| |] eqn:Hplan;
    try (vm_compute in Hplan; discriminate Hplan).
  destruct (planner_plans_are_ordered Demo.heuristics 5 Demo.fetch_then_search
              [] steps Hplan) as (order & Hord & _).
  exists steps. split; [reflexivity|]. rewrite Hord.
  vm_compute in Hplan. injection Hplan as <-.
  vm_compute in Hord. symmetry. exact Hord.
Defined.

(** "say hello" matches no keyword: the generic plan, one [system_command]
    step. *)
Lemma plan_without_indicator_witness :
  exists steps,
    demo_plan Demo.greeting [] = Ok steps /\ (1 <= List.length steps <= 6)%nat.
Proof.
  destruct (plan_without_indicator Demo.heuristics 4 Demo.greeting [])
    as (steps & Hplan & Hlen & _).
  - reflexivity.
  - exists steps. split; [exact Hplan|exact Hlen].
Defined.

Lemma resolve_parameters_pointwise_witness :
  _resolve_parameters Demo.py_str
    [("file_path", VStr "out.txt"); ("mode", VStr "w")] [("content", VStr "x")] =
  [("file_path", VStr "out.txt"); ("mode", VStr "w")].
Proof.
  destruct (resolve_parameters_pointwise Demo.py_str
              [("file_path", VStr "out.txt"); ("mode", VStr "w")]
              [("content", VStr "x")]) as (_ & _ & Hlit).
  - repeat constructor; simpl; intuition discriminate.
  - apply Hlit. repeat constructor.
Defined.


(** The second calculation ends completed; the first, on which it depends,
    is completed too. *)
Lemma completed_step_has_completed_dependencies_witness :
  exists summary ex' p q,
    Demo.run ex0 Demo.chain_plan 2 = Ok (summary, ex') /\
    In p (sum_steps summary) /\ step_id p = 1 /\ status p = completed /\
    In q (sum_steps summary) /\ step_id q = 0 /\ status q = completed.
Proof.
  destruct (Demo.run ex0 Demo.chain_plan 2) as [[summary ex']| |] eqn:Hrun;
    try (vm_compute in Hrun; discriminate Hrun).
  assert (Hp : exists p, In p (sum_steps summary) /\ step_id p = 1 /\
                         status p = completed /\ dependencies p = [0]).
  { pose proof Hrun as Hc. vm_compute in Hc. injection Hc as <- _.
    eexists. split; [right; left; reflexivity|].
    split; [reflexivity|]. split; reflexivity. }
  destruct Hp as (p & Hin & Hid & Hst & Hdeps).
  destruct (completed_step_has_completed_dependencies Demo.World
              Demo.execute_tool Demo.py_str ex0 ex' Demo.chain_plan 2 summary)
    with (p := p) as (Hd & _).
  - repeat constructor; simpl; intuition discriminate.
  - repeat constructor.
  - exact Hrun.
  - exact Hin.
  - exact Hst.
  - destruct (Hd 0) as (q & Hq & Hqid & Hqst); [rewrite Hdeps; now left|].
    exists summary, ex', p, q. split; [reflexivity|]. split; [exact Hin|].
    split; [exact Hid|]. split; [exact Hst|]. split; [exact Hq|].
    split; [exact Hqid|exact Hqst].
Defined.

(** When the loop reaches the second calculation, its parameter resolves to
    the result of the first. *)
Lemma earlier_results_are_in_context_witness :
  exists st,
    Demo.run_order 2 [0] (mkPlanState Demo.chain_plan [] [] ex0) = Ok st /\
    resolve_value Demo.py_str (VStr "${step_0_result.result}") (ps_context st) =
      VInt 42.
Proof.
  destruct (Demo.run_order 2 [0] (mkPlanState Demo.chain_plan [] [] ex0))
    as [st| |] eqn:Hpre; try (vm_compute in Hpre; discriminate Hpre).
  assert (Hp : exists p, In p (ps_steps st) /\ step_id p = 0 /\
                         status p = completed /\
                         exists r, result p = Some r /\
                                   get "result" r = Some (VInt 42)).
  { pose proof Hpre as Hc. vm_compute in Hc. injection Hc as <-.
    eexists. split; [left; reflexivity|].
    split; [reflexivity|]. split; [reflexivity|].
    eexists. split; reflexivity. }
  destruct Hp as (p & Hin & Hid & Hst & r & Hr & Hres).
  destruct (earlier_results_are_in_context Demo.World Demo.execute_tool
              Demo.py_str ex0 Demo.chain_plan 2 1 st)
    with (p := p) as (r' & Hr' & _ & _ & _ & Hfield).
  - repeat constructor; simpl; intuition discriminate.
  - repeat constructor.
  - exists [0; 1], [0], []. split; [reflexivity|]. split; [reflexivity|exact Hpre].
  - exact Hin.
  - exact Hst.
  - exists st. split; [reflexivity|].
    specialize (Hfield "result" eq_refl). rewrite Hid in Hfield.
    assert (E : r' = r) by congruence. rewrite E, Hres in Hfield.
    exact Hfield.
Defined.

Lemma execute_plan_keeps_the_plan_witness :
  exists summary ex',
    Demo.run ex0 Demo.gated_plan 2 = Ok (summary, ex') /\
    map static (sum_steps summary) = map static Demo.gated_plan.
Proof.
  destruct (Demo.run ex0 Demo.gated_plan 2) as [[summary ex']| |] eqn:Hrun;
    try (vm_compute in Hrun; discriminate Hrun).
  destruct (execute_plan_keeps_the_plan Demo.World Demo.execute_tool
              Demo.py_str ex0 ex' Demo.gated_plan 2 summary Hrun) as (Hs & _).
  exists summary, ex'. split; [reflexivity|exact Hs].
Defined.

Lemma success_means_all_completed_witness :
  exists summary ex',
    Demo.run ex0 Demo.chain_plan 2 = Ok (summary, ex') /\
    sum_success summary = true /\
    Forall (fun p => status p = completed) (sum_steps summary).
Proof.
  destruct (Demo.run ex0 Demo.chain_plan 2) as [[summary ex']| |] eqn:Hrun;
    try (vm_compute in Hrun; discriminate Hrun).
  destruct (success_means_all_completed Demo.World Demo.execute_tool
              Demo.py_str ex0 ex' Demo.chain_plan 2 summary) as ([Hall _] & _).
  - repeat constructor; simpl; intuition discriminate.
  - exact Hrun.
  - assert (Hok : sum_success summary = true)
      by (pose proof Hrun as Hc; vm_compute in Hc; injection Hc as <- _;
          reflexivity).
    exists summary, ex'. split; [reflexivity|]. split; [exact Hok|].
    apply Hall. exact Hok.
Defined.

(** Two steps, two retries: at most six calls. *)
Lemma tool_calls_are_bounded_witness :
  exists summary ex',
    Demo.run ex0 Demo.gated_plan 2 = Ok (summary, ex') /\
    (List.length (invocations (trace ex')) <= 6)%nat.
Proof.
  destruct (Demo.run ex0 Demo.gated_plan 2) as [[summary ex']| |] eqn:Hrun;
    try (vm_compute in Hrun; discriminate Hrun).
  destruct (tool_calls_are_bounded Demo.World Demo.execute_tool
              Demo.py_str ex0 ex' Demo.gated_plan 2 summary)
    as (tr & Htr & Hle).
  - repeat constructor; simpl; intuition discriminate.
  - exact Hrun.
  - exists summary, ex'. split; [reflexivity|].
    rewrite Htr. exact Hle.
Defined.

(** "say hello": the one step fails, of a tool that is not [api_call], and
    [execute] returns from the first iteration. *)
Lemma loop_goes_on_only_after_failed_api_call_witness :
  exists summary a',
    demo_loop 10%nat Demo.greeting 0 agent0 =
      Ok (Finished false Demo.greeting 1 (Some summary) (execution_context a'),
          a').
Proof.
  destruct (demo_plan Demo.greeting []) as [steps| |] eqn:Hplan;
    try (vm_compute in Hplan; discriminate Hplan).
  destruct (Demo.run (executor agent0) steps 2) as [[summary ex']| |] eqn:Hrun;
    try (vm_compute in Hplan; injection Hplan as <-;
         vm_compute in Hrun; discriminate Hrun).
  pose proof (loop_goes_on_only_after_failed_api_call Demo.World
                Demo.execute_tool Demo.py_str Demo.heuristics 5
                agent0 Demo.greeting 9 0 steps summary ex') as Hloop.
  assert (Hshape : existsb failed_api_call (sum_steps summary) = false /\
                   sum_success summary = false).
  { pose proof Hplan as Hc. vm_compute in Hc. injection Hc as <-.
    pose proof Hrun as Hc. vm_compute in Hc. injection Hc as <- _.
    split; reflexivity. }
  destruct Hshape as [Hno Hfail]. rewrite Hno, Hfail in Hloop.
  exists summary,
         (mkAgenticAI ex' (_update_context (execution_context agent0) summary)
                      (max_iterations agent0) (S (plan_calls agent0))).
  apply Hloop.
  - reflexivity.
  - exact Hplan.
  - exact Hrun.
Defined.

Lemma execute_returns_witness :
  exists success iterations final_result a',
    demo_execute agent0 Demo.greeting None =
      Ok (Finished success Demo.greeting iterations final_result
                   (execution_context a'), a') /\
    1 <= iterations <= 10.
Proof.
  destruct (demo_plan Demo.greeting []) as [steps| |] eqn:Hplan;
    try (vm_compute in Hplan; discriminate Hplan).
  destruct (execute_returns Demo.World Demo.execute_tool Demo.py_str
              Demo.heuristics 5 agent0 Demo.greeting None steps Hplan)
    as (success & iterations & final & a' & Hrun & Hits & _).
  - reflexivity.
  - exists success, iterations, final, a'. split; [exact Hrun|exact Hits].
Defined.

(** The service of the example world is unreachable: ten iterations, ten
    plans, no final result. *)
Lemma failing_api_call_uses_up_the_iterations_witness :
  exists a',
    demo_execute agent0 Demo.fetch_then_search None =
      Ok (Finished false Demo.fetch_then_search 10 None (execution_context a'),
          a') /\
    plan_calls a' = 10%nat.
Proof.
  destruct (demo_plan Demo.fetch_then_search []) as [steps| |] eqn:Hplan;
    try (vm_compute in Hplan; discriminate Hplan).
  destruct (failing_api_call_uses_up_the_iterations Demo.World
              Demo.execute_tool Demo.py_str Demo.heuristics 5 agent0
              Demo.fetch_then_search None steps Hplan)
    as (a' & Hrun & Hcalls).
  - vm_compute in Hplan. injection Hplan as <-.
    eexists. split; [left; reflexivity|reflexivity].
  - intros params w. reflexivity.
  - reflexivity.
  - exists a'. split; [exact Hrun|exact Hcalls].
Defined.

Lemma update_context_records_step_results_witness :
  exists summary ex',
    Demo.run ex0 Demo.calculation_plan 2 = Ok (summary, ex') /\
    get "step_0_result" (_update_context [("user", VStr "ada")] summary) =
      Some (VDict [("success", VBool true); ("result", VInt 42);
                   ("expression", VStr "6 * 7")]) /\
    In "user" (keys (_update_context [("user", VStr "ada")] summary)).
Proof.
  destruct (Demo.run ex0 Demo.calculation_plan 2) as [[summary ex']| |] eqn:Hrun;
    try (vm_compute in Hrun; discriminate Hrun).
  destruct (update_context_records_step_results [("user", VStr "ada")] summary)
    as [Hkeys Hstep].
  assert (Hp : exists p, sum_steps summary = [p] /\ step_id p = 0 /\
                         status p = completed /\
                         result p =
                           Some [("success", VBool true); ("result", VInt 42);
                                 ("expression", VStr "6 * 7")]).
  { pose proof Hrun as Hc. vm_compute in Hc. injection Hc as <- _.
    eexists. split; [reflexivity|]. split; [reflexivity|].
    split; reflexivity. }
  destruct Hp as (p & Hsteps & Hid & Hst & Hr).
  exists summary, ex'. split; [reflexivity|]. split.
  - change "step_0_result" with (step_result_key 0). rewrite <- Hid.
    apply Hstep.
    + rewrite Hsteps. repeat constructor. simpl. tauto.
    + rewrite Hsteps. now left.
    + exact Hst.
    + exact Hr.
    + discriminate.
  - apply Hkeys. now left.
Defined.

(** Two calculations in a chain: two calls, both completed. *)
Lemma plan_of_succeeding_tools_completes_witness :
  exists summary ex',
    Demo.run ex0 Demo.chain_plan 2 = Ok (summary, ex') /\
    sum_success summary = true /\
    List.length (invocations (trace ex')) = 2%nat.
Proof.
  destruct (plan_of_succeeding_tools_completes Demo.World Demo.execute_tool
              Demo.py_str ex0 Demo.chain_plan 2)
    as (summary & ex' & calls & Hrun & Hok & _ & Hinv & Hlen).
  - lia.
  - repeat constructor; simpl; intuition discriminate.
  - intros p [<-|[<-|[]]].
    + split; [constructor|]. intros x [].
    + split; [repeat constructor; simpl; tauto|].
      intros x [<-|[]]. simpl. tauto.
  - apply increasing_acyclic.
    intros p d [<-|[<-|[]]]; simpl; intros Hd; try contradiction.
    destruct Hd as [<-|[]]. lia.
  - intros p [<-|[<-|[]]] context w; reflexivity.
  - exists summary, ex'. split; [exact Hrun|]. split; [exact Hok|].
    rewrite Hinv, length_app, Hlen. reflexivity.
Defined.

(** "calculate 6 * 7", the expression found: one calculation, one call,
    success in the first iteration. *)
Lemma task_of_succeeding_tools_succeeds_witness :
  exists summary a',
    execute Demo.World Demo.execute_tool Demo.py_str Demo.arithmetic 5
            agent0 Demo.calculate_product None =
      Ok (Finished true Demo.calculate_product 1 (Some summary)
                   (execution_context a'), a') /\
    List.length (invocations (trace (executor a'))) = 1%nat.
Proof.
  destruct (Planner.plan Demo.arithmetic 5 Demo.calculate_product [])
    as [steps| |] eqn:Hplan; try (vm_compute in Hplan; discriminate Hplan).
  assert (Hsteps : map tool steps = ["calculate"])
    by (vm_compute in Hplan; injection Hplan as <-; reflexivity).
  destruct (task_of_succeeding_tools_succeeds Demo.World Demo.execute_tool
              Demo.py_str Demo.arithmetic 5 agent0 Demo.calculate_product None
              steps Hplan)
    as (summary & a' & calls & Hrun & _ & _ & Hinv & Hlen).
  - intros p Hp context w.
    assert (Ht : tool p = "calculate").
    { apply (in_map tool) in Hp. rewrite Hsteps in Hp.
      destruct Hp as [<-|[]]. reflexivity. }
    rewrite Ht. reflexivity.
  - reflexivity.
  - exists summary, a'. split; [exact Hrun|].
    rewrite Hinv, length_app, Hlen.
    apply (f_equal (@List.length _)) in Hsteps.
    rewrite length_map in Hsteps. rewrite Hsteps. reflexivity.
Defined.

Lemma planned_tools_are_registered_witness :
  exists steps t,
    demo_plan Demo.greeting [] = Ok steps /\
    map tool steps = ["system_command"] /\
    Tools.get_tool Demo.World "system_command" Demo.registry = Some t /\
    Tools.name t = "system_command".
Proof.
  destruct (demo_plan Demo.greeting []) as [steps| |] eqn:Hplan;
    try (vm_compute in Hplan; discriminate Hplan).
  destruct (planned_tools_are_registered Demo.World Demo.py_str
              Demo.type_error Demo.attribute_error
              Demo.unavailable Demo.unavailable Demo.unavailable
              Demo.unavailable Demo.unavailable Demo.unavailable Demo.shell
              Demo.heuristics 5 Demo.greeting [] steps Hplan) as [_ Hall].
  vm_compute in Hplan. injection Hplan as <-.
  inversion Hall as [|p l (t & Ht & Hname) _]; subst.
  eexists _, t. split; [reflexivity|]. split; [reflexivity|].
  split; [exact Ht|exact Hname].
Defined.

(** [rm] is refused; [echo] and whatever follows it reach the shell. *)
Lemma system_command_checks_the_first_word_only_witness :
  Tools.execute
    (Tools.SystemCommandTool Demo.World Demo.type_error Demo.attribute_error
                             Demo.shell)
    [("command", VStr "echo hello; rm -rf /tmp/x")] 0%nat =
  (Returned [("success", VBool true);
             ("command", VStr "echo hello; rm -rf /tmp/x");
             ("stdout", VStr "echo hello; rm -rf /tmp/x");
             ("stderr", VStr "");
             ("return_code", VInt 0)], 1%nat).
Proof.
  destruct (system_command_checks_the_first_word_only Demo.World
              Demo.type_error Demo.attribute_error Demo.shell
              [("command", VStr "echo hello; rm -rf /tmp/x")]
              "echo hello; rm -rf /tmp/x" 0%nat) as (_ & Hsafe & _).
  - reflexivity.
  - reflexivity.
  - rewrite (Hsafe "echo" "hello; rm -rf /tmp/x").
    + reflexivity.
    + simpl. tauto.
    + reflexivity.
Defined.

Lemma generic_plan_command_reaches_the_shell_witness :
  Tools.execute
    (Tools.SystemCommandTool Demo.World Demo.type_error Demo.attribute_error
                             Demo.shell)
    [("command", VStr "echo 'say hello'")] 0%nat =
  (Returned [("success", VBool true);
             ("command", VStr "echo 'say hello'");
             ("stdout", VStr "echo 'say hello'");
             ("stderr", VStr "");
             ("return_code", VInt 0)], 1%nat).
Proof.
  destruct (generic_plan_command_reaches_the_shell Demo.World
              Demo.type_error Demo.attribute_error Demo.shell
              Demo.greeting 0
              (new_step 0 "Process task: say hello" "system_command"
                        [("command", VStr "echo 'say hello'")] [])
              0%nat) as [_ Hrun].
  - left. reflexivity.
  - reflexivity.
  - exact Hrun.
Defined.

Lemma web_search_results_are_not_kept_as_last_witness :
  exists r,
    Tools.execute (Tools.WebSearchTool Demo.World Demo.py_str Demo.type_error)
                  [("query", VStr "cats")] 0%nat = (Returned r, 0%nat) /\
    succeeded r = true /\
    get "last_search_results"
        (update_from_step []
           (set_result r (set_status completed
              (new_step 0 "Search for: cats" "web_search"
                        [("query", VStr "cats")] [])))) = None.
Proof.
  destruct (web_search_results_are_not_kept_as_last Demo.World Demo.py_str
              Demo.type_error [("query", VStr "cats")] (VStr "cats") 0%nat)
    as (r & results & Hrun & Hok & _ & _ & _ & _ & Hlast).
  - reflexivity.
  - reflexivity.
  - exists r. split; [exact Hrun|]. split; [exact Hok|].
    rewrite Hlast; reflexivity.
Defined.

(** "search for cats" against the registry: one search, success. *)
Lemma web_search_task_succeeds_witness :
  exists summary a',
    execute Demo.World Demo.registry_execute_tool Demo.py_str Demo.heuristics 5
            agent0 Demo.search_for_cats None =
      Ok (Finished true Demo.search_for_cats 1 (Some summary)
                   (execution_context a'), a') /\
    Forall (fun p => status p = completed) (sum_steps summary).
Proof.
  destruct (demo_plan Demo.search_for_cats []) as [steps| |] eqn:Hplan;
    try (vm_compute in Hplan; discriminate Hplan).
  assert (Hsteps : Forall (fun p => tool p = "web_search") steps)
    by (vm_compute in Hplan; injection Hplan as <-; repeat constructor).
  destruct (web_search_task_succeeds Demo.World Demo.py_str Demo.type_error
              Demo.attribute_error
              Demo.unavailable Demo.unavailable Demo.unavailable
              Demo.unavailable Demo.unavailable Demo.unavailable Demo.shell
              Demo.heuristics 5 agent0 Demo.search_for_cats None steps
              Hplan Hsteps)
    as (summary & a' & calls & Hrun & Hdone & _).
  - reflexivity.
  - exists summary, a'. split; [exact Hrun|exact Hdone].
Defined.

(** With nothing under [step_0_result] in the context, the placeholder
    stays. *)
Lemma unresolved_placeholders_stay_witness :
  _resolve_template Demo.py_str "File: {{step_0_result.file_path}}"
                    [("content", VStr "x")] =
  "File: {{step_0_result.file_path}}".
Proof.
  destruct (unresolved_placeholders_stay Demo.py_str
              "File: {{step_0_result.file_path}}" [("content", VStr "x")])
    as (Hstay & _).
  apply Hstay. intros path Hin. vm_compute in Hin.
  destruct Hin as [<-|[]]. reflexivity.
Defined.

End Examples.
